(** * Personal workspace provider: issued handles over an index-path tree

    A verification development for
    [packages/hoppscotch-common/src/services/new-workspace/providers/personal.workspace.ts],
    [services/new-workspace/handle.ts] and the type guards of
    [services/new-workspace/helpers.ts].

    The provider keeps a registry ([issuedHandles]) of writable handles to
    reactive cells.  Consumers hold computed handles that read those cells
    behind an owner-validity guard.  The development follows the code:
    JavaScript strings and numbers with the operations the provider uses,
    the reactive cells and the request objects as a heap addressed by
    allocation index (so that aliasing between the registry, the consumer
    handles and the store is visible), the collection store as an interface,
    and every provider method as a function that passes the state along. *)

From Stdlib Require Import ZArith String Ascii List Lia Bool.
From stdpp Require Import base option list strings pretty.

#[local] Set Warnings "-register-all".
Local Open Scope string_scope.
Local Open Scope list_scope.
Local Open Scope Z_scope.

(** ** JavaScript strings and numbers, as far as the provider uses them *)

Module JS.

(** Numbers that occur here are array lengths, array indices and the
    results of [parseInt]: integers, or [NaN]. *)
Inductive number : Type :=
| NaN
| Num (z : Z).

Definition number_eqb (a b : number) : bool :=
  match a, b with
  | Num x, Num y => Z.eqb x y
  | _, _ => false
  end.

(** [a - b] and [a + b] on numbers. *)
Definition sub (a b : number) : number :=
  match a, b with
  | Num x, Num y => Num (x - y)
  | _, _ => NaN
  end.

Definition add (a b : number) : number :=
  match a, b with
  | Num x, Num y => Num (x + y)
  | _, _ => NaN
  end.

Definition ofNat (n : nat) : number := Num (Z.of_nat n).

(** [Array.prototype.length] as a number. *)
Definition length {A : Type} (l : list A) : number := Num (Z.of_nat (List.length l)).

(** [`${n}`] and [n.toString()]. *)
Definition toString (n : number) : string :=
  match n with
  | NaN => "NaN"
  | Num z => pretty z
  end.

(** [arr[n]]: [undefined] for [NaN], a negative index or one past the end. *)
Definition index {A : Type} (l : list A) (n : number) : option A :=
  match n with
  | Num z => if Z.ltb z 0 then None else l !! Z.to_nat z
  | NaN => None
  end.

(** [Array.from({ length: n })]: the indices [0 .. ToLength(n) - 1];
    [ToLength] sends [NaN] and negative numbers to 0. *)
Definition arrayFromLength (n : number) : list nat :=
  match n with
  | Num z => seq 0 (Z.to_nat z)
  | NaN => []
  end.

(** [arr.findIndex(p)]; [None] stands for [-1]. *)
Fixpoint findIndex {A : Type} (p : A -> bool) (l : list A) : option nat :=
  match l with
  | [] => None
  | x :: l' => if p x then Some 0%nat else S <$> findIndex p l'
  end.

(** [s.split("/")]: never empty, [""] gives [[""]]. *)
Fixpoint split (s : string) : list string :=
  match s with
  | EmptyString => [EmptyString]
  | String c s' =>
      if Ascii.eqb c "/" then EmptyString :: split s'
      else match split s' with
           | [] => [String c EmptyString]
           | seg :: rest => String c seg :: rest
           end
  end.

(** [arr.join("/")]. *)
Fixpoint join (l : list string) : string :=
  match l with
  | [] => ""
  | [x] => x
  | x :: rest => x +:+ "/" +:+ join rest
  end.

(** [arr.slice(0, -1)]. *)
Definition dropLast {A : Type} (l : list A) : list A := removelast l.

(** [arr.slice(-1)[0]] and [arr[arr.length - 1]] on the result of a
    [split], which is never empty. *)
Definition lastSegment (l : list string) : string := List.last l "".

(** [s.startsWith(p)]. *)
Definition startsWith (s p : string) : bool := String.prefix p s.

Definition isWhiteSpace (c : ascii) : bool :=
  let n := N_of_ascii c in
  (N.eqb n 32 || (N.leb 9 n && N.leb n 13))%N.

Fixpoint trimStart (s : string) : string :=
  match s with
  | String c s' => if isWhiteSpace c then trimStart s' else s
  | EmptyString => s
  end.

Definition decimalDigit (c : ascii) : option Z :=
  let n := N_of_ascii c in
  if (N.leb 48 n && N.leb n 57)%N then Some (Z.of_N n - 48) else None.

Definition hexDigit (c : ascii) : option Z :=
  let n := N_of_ascii c in
  if (N.leb 48 n && N.leb n 57)%N then Some (Z.of_N n - 48)
  else if (N.leb 97 n && N.leb n 102)%N then Some (Z.of_N n - 87)
  else if (N.leb 65 n && N.leb n 70)%N then Some (Z.of_N n - 55)
  else None.

(** The longest prefix of digits, read in the given radix; [None] when
    the string does not start with a digit. *)
Fixpoint digits (digit : ascii -> option Z) (radix : Z) (s : string)
         (acc : option Z) : option Z :=
  match s with
  | EmptyString => acc
  | String c s' =>
      match digit c with
      | Some d => digits digit radix s' (Some (radix * default 0 acc + d))
      | None => acc
      end
  end.

(** [parseInt(s)]: leading white space, an optional sign, an optional
    [0x] prefix, then the longest run of digits; [NaN] when there is
    none. *)
Definition parseInt (s : string) : number :=
  let s1 := trimStart s in
  let '(negative, s2) :=
    match s1 with
    | String "-" r => (true, r)
    | String "+" r => (false, r)
    | _ => (false, s1)
    end in
  let '(digit, radix, s3) :=
    match s2 with
    | String "0" (String "x" r) => (hexDigit, 16, r)
    | String "0" (String "X" r) => (hexDigit, 16, r)
    | _ => (decimalDigit, 10, s2)
    end in
  match digits digit radix s3 None with
  | Some v => Num (if negative then - v else v)
  | None => NaN
  end.

Fixpoint allDecimal (s : string) : bool :=
  match s with
  | EmptyString => true
  | String c s' =>
      match decimalDigit c with
      | Some _ => allDecimal s'
      | None => false
      end
  end.

(** [Number(s)] on the strings it meets here.  The provider applies it
    to the last segment of a request ID it has just matched against
    [`${collection}/${index}`], a run of decimal digits: a whole string
    of decimal digits (with an optional minus sign) is read as that
    integer, the empty string is 0, and the model answers [NaN] for
    everything else (white space, fractions, exponents and radix
    prefixes, none of which occurs in such a segment). *)
Definition Number (s : string) : number :=
  if String.eqb s "" then Num 0
  else if allDecimal s then Num (default 0 (digits decimalDigit 10 s None))
  else match s with
       | String "-" r =>
           if negb (String.eqb r "") && allDecimal r
           then Num (- default 0 (digits decimalDigit 10 r None)) else NaN
       | _ => NaN
       end.

End JS.

(** ** fp-ts [Either] and the completion of a method call *)

Inductive Either (E A : Type) : Type :=
| Left (e : E)
| Right (a : A).
Arguments Left {E A} e.
Arguments Right {E A} a.

(** A method either returns [Promise.resolve(...)] of an [Either], or a
    [TypeError] is thrown before it returns. *)
Inductive Completion (A : Type) : Type :=
| Throws
| Resolves (a : A).
Arguments Throws {A}.
Arguments Resolves {A} a.

(** ** Handles ([handle.ts]) and the workspace data they carry *)

(** The value of a handle: [{ type: "ok", data }] or
    [{ type: "invalid", reason }]. *)
Inductive HandleState (T : Type) : Type :=
| Ok (data : T)
| Invalid (reason : string).
Arguments Ok {T} data.
Arguments Invalid {T} reason.

(** [st.data], which is [undefined] on an invalid state. *)
Definition valueData {T : Type} (st : HandleState T) : option T :=
  match st with
  | Ok d => Some d
  | Invalid _ => None
  end.

(** Addresses of heap objects: the position at which they were allocated. *)
Abbreviation ReqRef := nat.
Abbreviation CellRef := nat.

Record Workspace : Type := mkWorkspace {
  w_providerID : string;
  w_workspaceID : string;
  w_name : string;
}.

Record WorkspaceCollection : Type := mkWorkspaceCollection {
  wc_providerID : string;
  wc_workspaceID : string;
  wc_collectionID : string;
  wc_name : string;
}.

(** [request] is a reference: the handle data shares the request object
    with whoever else holds it (the caller, the store, another handle). *)
Record WorkspaceRequest : Type := mkWorkspaceRequest {
  wr_providerID : string;
  wr_workspaceID : string;
  wr_collectionID : string;
  wr_requestID : string;
  wr_request : ReqRef;
}.

(** ** The collection tree ([HoppCollection] of the data package)

    The fields the provider's mutations and handle getters read: the
    optional backend [id], the name, the sub-folders and the requests (by
    reference).  [auth], [headers] and the schema version only feed the
    read-only views and are left out. *)
Inductive HoppCollection : Type :=
| Collection (coll_id : option string) (coll_name : string)
             (coll_folders : list HoppCollection) (coll_requests : list ReqRef).

Definition coll_id (c : HoppCollection) : option string :=
  match c with Collection i _ _ _ => i end.
Definition coll_name (c : HoppCollection) : string :=
  match c with Collection _ n _ _ => n end.
Definition folders (c : HoppCollection) : list HoppCollection :=
  match c with Collection _ _ f _ => f end.
Definition requests (c : HoppCollection) : list ReqRef :=
  match c with Collection _ _ _ r => r end.

(** [Partial<HoppCollection>]: every field may be absent. *)
Record PartialCollection : Type := mkPartialCollection {
  pc_id : option string;
  pc_name : option string;
  pc_folders : option (list HoppCollection);
  pc_requests : option (list ReqRef);
}.

(** [c ? c.id : undefined]. *)
Definition idOf (c : option HoppCollection) : option string :=
  match c with
  | Some c => coll_id c
  | None => None
  end.

(** [{ ...a, ...b }] on partial collections: fields of [b] win. *)
Definition spread (a b : PartialCollection) : PartialCollection :=
  {| pc_id := match pc_id b with Some x => Some x | None => pc_id a end;
     pc_name := match pc_name b with Some x => Some x | None => pc_name a end;
     pc_folders := match pc_folders b with Some x => Some x | None => pc_folders a end;
     pc_requests := match pc_requests b with Some x => Some x | None => pc_requests a end |}.

Definition emptyPartial : PartialCollection :=
  {| pc_id := None; pc_name := None; pc_folders := None; pc_requests := None |}.

(** A collection seen as an object to spread; [null] spreads to nothing. *)
Definition asPartial (c : option HoppCollection) : PartialCollection :=
  match c with
  | Some c => {| pc_id := coll_id c; pc_name := Some (coll_name c);
                 pc_folders := Some (folders c); pc_requests := Some (requests c) |}
  | None => emptyPartial
  end.

(** [Partial<HoppCollection> & { name: string }]. *)
Record NamedCollection : Type := mkNamedCollection {
  nc_name : string;
  nc_id : option string;
  nc_folders : option (list HoppCollection);
  nc_requests : option (list ReqRef);
}.

(** [makeCollection({ folders: [], requests: [], ...newCollection })]. *)
Definition makeCollection (x : NamedCollection) : HoppCollection :=
  Collection (nc_id x) (nc_name x)
             (default [] (nc_folders x))
             (default [] (nc_requests x)).

(** ** The collection store ([~/newstore/collections] and the path helpers)

    The store module is imported by the provider; the provider is
    verified against its interface, for every store.  Each
    operation takes the tree and returns the new tree, with the arguments
    the provider passes. *)

Module Store.

Class Ops : Type := {
  addRESTCollection : HoppCollection -> list HoppCollection -> list HoppCollection;
  addRESTFolder : string -> string -> list HoppCollection -> list HoppCollection;
  appendRESTCollections :
    list HoppCollection -> list HoppCollection -> list HoppCollection;
  editRESTCollection :
    JS.number -> PartialCollection -> list HoppCollection -> list HoppCollection;
  editRESTFolder :
    string -> PartialCollection -> list HoppCollection -> list HoppCollection;
  editRESTRequest :
    string -> JS.number -> ReqRef -> list HoppCollection -> list HoppCollection;
  moveRESTFolder :
    string -> option string -> list HoppCollection -> list HoppCollection;
  moveRESTRequest :
    string -> JS.number -> string -> list HoppCollection -> list HoppCollection;
  navigateToFolderWithIndexPath :
    list HoppCollection -> list JS.number -> option HoppCollection;
  removeRESTCollection :
    JS.number -> option string -> list HoppCollection -> list HoppCollection;
  removeRESTFolder :
    string -> option string -> list HoppCollection -> list HoppCollection;
  removeRESTRequest :
    string -> JS.number -> option string -> list HoppCollection -> list HoppCollection;
  (** returns the insertion index *)
  saveRESTRequestAs :
    string -> ReqRef -> list HoppCollection -> nat * list HoppCollection;
  updateRESTCollectionOrder :
    string -> option string -> list HoppCollection -> list HoppCollection;
  updateRESTRequestOrder :
    JS.number -> option JS.number -> string -> list HoppCollection -> list HoppCollection;
  getRequestsByPath : list HoppCollection -> string -> list ReqRef;
}.

End Store.

(** ** Requests ([HoppRESTRequest] of the data package)

    The provider reads [id] and [name]; every other field (method,
    endpoint, params, headers, body, ...) is carried as [Fields], with
    [PartialFields] for their part in a [Partial<HoppRESTRequest>] and
    [mergeFields] for what lodash [merge] does to them. *)

Section Requests.

Context {Fields PartialFields : Type}.

Record HoppRESTRequest : Type := mkRequest {
  req_id : option string;
  req_name : string;
  req_fields : Fields;
}.

Record PartialRequest : Type := mkPartialRequest {
  upd_id : option string;
  upd_name : option string;
  upd_fields : PartialFields;
}.

(** [delete updatedRequest.id]. *)
Definition deleteId (u : PartialRequest) : PartialRequest :=
  {| upd_id := None; upd_name := upd_name u; upd_fields := upd_fields u |}.

(** The object lodash [merge(object, source)] leaves in [object]: every
    property present in [source] is assigned into it, the others stay. *)
Definition merged (mergeFields : Fields -> PartialFields -> Fields)
           (object : HoppRESTRequest) (source : PartialRequest) : HoppRESTRequest :=
  {| req_id := match upd_id source with Some i => Some i | None => req_id object end;
     req_name := default (req_name object) (upd_name source);
     req_fields := mergeFields (req_fields object) (upd_fields source) |}.

(** [object.name = n]. *)
Definition setName (n : string) (object : HoppRESTRequest) : HoppRESTRequest :=
  {| req_id := req_id object; req_name := n; req_fields := req_fields object |}.

End Requests.

Arguments HoppRESTRequest : clear implicits.
Arguments PartialRequest : clear implicits.

(** ** The state the provider works on

    [restCollectionState] is the tree of the store.  [issuedHandles] is
    the registry.  The remaining three components are the heap: the
    [ref(...)] cells behind request handles, the [shallowRef(...)] cells
    of workspace handles and the request objects, each addressed by the
    position at which it was allocated. *)

(** An element of the registry: a writable handle over the cell of a
    request handle, or (the declared type allows it) one over collection
    data. *)
Inductive IssuedHandle : Type :=
| IssuedRequest (cell : CellRef)
| IssuedCollection (st : HandleState WorkspaceCollection).

Record State (Fields : Type) : Type := mkState {
  restCollectionState : list HoppCollection;
  issuedHandles : list IssuedHandle;
  handleRefs : list (HandleState WorkspaceRequest);
  workspaceRefs : list (HandleState Workspace);
  requestObjects : list (HoppRESTRequest Fields);
}.
Arguments mkState {Fields}.
Arguments restCollectionState {Fields}.
Arguments issuedHandles {Fields}.
Arguments handleRefs {Fields}.
Arguments workspaceRefs {Fields}.
Arguments requestObjects {Fields}.

(** A handle as its holder sees it: a computed value of the reactive
    state, re-evaluated whenever it is read. *)
Definition Handle (Fields T : Type) : Type := State Fields -> HandleState T.

(** ** The provider ([PersonalWorkspaceProviderService]) *)

Section Provider.

Context {Fields PartialFields : Type}.
Context (mergeFields : Fields -> PartialFields -> Fields).
Context `{Store.Ops}.

Local Abbreviation State := (State Fields).
Local Abbreviation Handle := (Handle Fields).

Definition providerID : string := "PERSONAL_WORKSPACE_PROVIDER".

Definition withTree (tree : list HoppCollection) (s : State) : State :=
  mkState tree (issuedHandles s) (handleRefs s) (workspaceRefs s) (requestObjects s).

Definition withHandleRefs (cells : list (HandleState WorkspaceRequest)) (s : State) : State :=
  mkState (restCollectionState s) (issuedHandles s) cells (workspaceRefs s)
          (requestObjects s).

(** *** Owner validity ([../helpers]) *)

(** The type guard [isValidWorkspaceHandle] of
    [services/new-workspace/helpers.ts]:
    [workspace.value.type === "ok" &&
     workspace.value.data.providerID === providerID &&
     workspace.value.data.workspaceID === workspaceID]. *)
Definition isValidWorkspaceHandle (workspace : Handle Workspace)
           (providerID workspaceID : string) (s : State) : bool :=
  match workspace s with
  | Ok data =>
      String.eqb (w_providerID data) providerID
      && String.eqb (w_workspaceID data) workspaceID
  | Invalid _ => false
  end.

(** The type guard [isValidCollectionHandle] of the same file:
    [collection.value.type === "ok" &&
     collection.value.data.providerID === providerID &&
     collection.value.data.workspaceID === workspaceID]. *)
Definition isValidCollectionHandle (collection : Handle WorkspaceCollection)
           (providerID workspaceID : string) (s : State) : bool :=
  match collection s with
  | Ok data =>
      String.eqb (wc_providerID data) providerID
      && String.eqb (wc_workspaceID data) workspaceID
  | Invalid _ => false
  end.

(** The type guard [isValidRequestHandle] of the same file:
    [request.value.type === "ok" &&
     request.value.data.providerID === providerID &&
     request.value.data.workspaceID === workspaceID]. *)
Definition isValidRequestHandle (request : Handle WorkspaceRequest)
           (providerID workspaceID : string) (s : State) : bool :=
  match request s with
  | Ok data =>
      String.eqb (wr_providerID data) providerID
      && String.eqb (wr_workspaceID data) workspaceID
  | Invalid _ => false
  end.

(** As TypeScript type guards the checks also give access to the data:
    [narrow*] is the check followed by the read of [handle.value.data]
    that it licenses. *)
Definition narrowWorkspace (workspace : Handle Workspace)
           (providerID workspaceID : string) (s : State) : option Workspace :=
  if isValidWorkspaceHandle workspace providerID workspaceID s
  then valueData (workspace s) else None.

Definition narrowCollection (collection : Handle WorkspaceCollection)
           (providerID workspaceID : string) (s : State) : option WorkspaceCollection :=
  if isValidCollectionHandle collection providerID workspaceID s
  then valueData (collection s) else None.

Definition narrowRequest (request : Handle WorkspaceRequest)
           (providerID workspaceID : string) (s : State) : option WorkspaceRequest :=
  if isValidRequestHandle request providerID workspaceID s
  then valueData (request s) else None.

(** *** Reading and scanning the cells *)

(** [handleRefData.value] in a computed handle.  The states a handle is
    read in are later states of the one that allocated its cell; a state
    without the cell has nothing valid to show. *)
Definition readCell (cell : CellRef) (now : State) : HandleState WorkspaceRequest :=
  match handleRefs now !! cell with
  | Some st => st
  | None => Invalid "UNALLOCATED"
  end.

(** [collectionID.split("/").map((id) => parseInt(id))]. *)
Definition indexPath (id : string) : list JS.number :=
  map JS.parseInt (JS.split id).

(** [pathToLastIndex]. *)
Definition pathToLastIndex (path : string) : JS.number :=
  let pathArr := JS.split path in
  JS.parseInt (JS.lastSegment pathArr).

(** The callback of [issuedHandles.some(...)]: a valid handle with
    request data whose properties other than [request] equal the key. *)
Definition sameKey (providerID workspaceID collectionID requestID : string)
           (data : WorkspaceRequest) : bool :=
  String.eqb (wr_providerID data) providerID
  && String.eqb (wr_workspaceID data) workspaceID
  && String.eqb (wr_collectionID data) collectionID
  && String.eqb (wr_requestID data) requestID.

Definition issuedWithKey (cells : list (HandleState WorkspaceRequest))
           (providerID workspaceID collectionID requestID : string)
           (handle : IssuedHandle) : bool :=
  match handle with
  | IssuedRequest cell =>
      match cells !! cell with
      | Some (Ok data) => sameKey providerID workspaceID collectionID requestID data
      | _ => false
      end
  | IssuedCollection _ => false
  end.

(** The callback of [issuedHandles.findIndex(...)]: a valid handle with
    request data and this request ID. *)
Definition issuedWithRequestID (cells : list (HandleState WorkspaceRequest))
           (requestID : string) (handle : IssuedHandle) : bool :=
  match handle with
  | IssuedRequest cell =>
      match cells !! cell with
      | Some (Ok data) => String.eqb (wr_requestID data) requestID
      | _ => false
      end
  | IssuedCollection _ => false
  end.

(** One turn of the invalidation loop over the registry: skip invalid
    handles and handles without a [requestID]; when the test holds,
    delete [data], set the type to "invalid" and the reason. *)
Definition invalidateIf (test : WorkspaceRequest -> bool)
           (cells : list (HandleState WorkspaceRequest)) (handle : IssuedHandle)
  : list (HandleState WorkspaceRequest) :=
  match handle with
  | IssuedRequest cell =>
      match cells !! cell with
      | Some (Ok data) =>
          if test data then <[cell := Invalid "REQUEST_INVALIDATED"]> cells else cells
      | _ => cells
      end
  | IssuedCollection _ => cells
  end.

(** *** Creating collections *)

Definition createRESTRootCollection (workspaceHandle : Handle Workspace)
           (newCollection : NamedCollection) (s : State)
  : Completion (Either string (Handle WorkspaceCollection)) * State :=
  if negb (isValidWorkspaceHandle workspaceHandle providerID "personal" s)
  then (Resolves (Left "INVALID_WORKSPACE_HANDLE"), s)
  else
    let newCollectionName := nc_name newCollection in
    let newCollectionID := JS.toString (JS.length (restCollectionState s)) in
    let newRootCollection := makeCollection newCollection in
    let tree := Store.addRESTCollection newRootCollection (restCollectionState s) in
    (Resolves (Right (fun now =>
       match narrowWorkspace workspaceHandle providerID "personal" now with
       | None => Invalid "WORKSPACE_INVALIDATED"
       | Some data =>
           Ok {| wc_providerID := providerID;
                 wc_workspaceID := w_workspaceID data;
                 wc_collectionID := newCollectionID;
                 wc_name := newCollectionName |}
       end)),
     withTree tree s).

Definition createRESTChildCollection (parentCollectionHandle : Handle WorkspaceCollection)
           (newChildCollection : NamedCollection) (s : State)
  : Completion (Either string (Handle WorkspaceCollection)) * State :=
  match narrowCollection parentCollectionHandle providerID "personal" s with
  | None => (Resolves (Left "INVALID_COLLECTION_HANDLE"), s)
  | Some data =>
      let collectionID := wc_collectionID data in
      let providerID' := wc_providerID data in
      let workspaceID := wc_workspaceID data in
      let newCollectionName := nc_name newChildCollection in
      let tree := Store.addRESTFolder newCollectionName collectionID
                                      (restCollectionState s) in
      (Resolves (Right (fun now =>
         if negb (isValidCollectionHandle parentCollectionHandle providerID "personal" now)
         then Invalid "COLLECTION_INVALIDATED"
         else Ok {| wc_providerID := providerID';
                    wc_workspaceID := workspaceID;
                    wc_collectionID := collectionID;
                    wc_name := newCollectionName |})),
       withTree tree s)
  end.

Definition updateRESTCollection (collectionHandle : Handle WorkspaceCollection)
           (updatedCollection : PartialCollection) (s : State)
  : Completion (Either string unit) * State :=
  match narrowCollection collectionHandle providerID "personal" s with
  | None => (Resolves (Left "INVALID_COLLECTION_HANDLE"), s)
  | Some data =>
      let collectionID := wc_collectionID data in
      let collection :=
        Store.navigateToFolderWithIndexPath (restCollectionState s)
                                            (indexPath collectionID) in
      let newCollection := spread (asPartial collection) updatedCollection in
      let isRootCollection := Nat.eqb (List.length (JS.split collectionID)) 1 in
      let tree :=
        if isRootCollection
        then Store.editRESTCollection (JS.parseInt collectionID) newCollection
                                      (restCollectionState s)
        else Store.editRESTFolder collectionID newCollection (restCollectionState s) in
      (Resolves (Right tt), withTree tree s)
  end.

(** The two calls of [resolveSaveContextOnCollectionReorder] at the end
    act on the save contexts of the tab service, outside this state. *)
Definition removeRESTCollection (collectionHandle : Handle WorkspaceCollection)
           (s : State) : Completion (Either string unit) * State :=
  match narrowCollection collectionHandle providerID "personal" s with
  | None => (Resolves (Left "INVALID_COLLECTION_HANDLE"), s)
  | Some data =>
      let collectionID := wc_collectionID data in
      let isRootCollection := Nat.eqb (List.length (JS.split collectionID)) 1 in
      let collectionIndex := JS.parseInt collectionID in
      let tree :=
        if isRootCollection
        then
          let collectionToRemove :=
            Store.navigateToFolderWithIndexPath (restCollectionState s)
                                                [collectionIndex] in
          Store.removeRESTCollection collectionIndex (idOf collectionToRemove)
                                     (restCollectionState s)
        else
          let folderToRemove :=
            Store.navigateToFolderWithIndexPath (restCollectionState s)
                                                (indexPath collectionID) in
          Store.removeRESTFolder collectionID (idOf folderToRemove)
                                 (restCollectionState s) in
      let cells :=
        fold_left
          (invalidateIf (fun d => JS.startsWith (wr_requestID d) collectionID))
          (issuedHandles s) (handleRefs s) in
      (Resolves (Right tt), withHandleRefs cells (withTree tree s))
  end.

(** *** Requests *)

Definition createRESTRequest (parentCollectionHandle : Handle WorkspaceCollection)
           (newRequest : ReqRef) (s : State)
  : Completion (Either string (Handle WorkspaceRequest)) * State :=
  match narrowCollection parentCollectionHandle providerID "personal" s with
  | None => (Resolves (Left "INVALID_COLLECTION_HANDLE"), s)
  | Some data =>
      let collectionID := wc_collectionID data in
      let providerID' := wc_providerID data in
      let workspaceID := wc_workspaceID data in
      let '(insertionIndex, tree) :=
        Store.saveRESTRequestAs collectionID newRequest (restCollectionState s) in
      let requestID := collectionID +:+ "/" +:+ JS.toString (JS.ofNat insertionIndex) in
      (* const handleRefData = ref({ type: "ok", data: { ... } }) *)
      let handleRefData := List.length (handleRefs s) in
      let cells :=
        handleRefs s ++ [Ok {| wr_providerID := providerID';
                               wr_workspaceID := workspaceID;
                               wr_collectionID := collectionID;
                               wr_requestID := requestID;
                               wr_request := newRequest |}] in
      let handle : Handle WorkspaceRequest := fun now =>
        if negb (isValidCollectionHandle parentCollectionHandle providerID "personal" now)
        then Invalid "COLLECTION_INVALIDATED"
        else readCell handleRefData now in
      let writableHandle := IssuedRequest handleRefData in
      let handleIsAlreadyIssued :=
        existsb (issuedWithKey cells providerID' workspaceID collectionID requestID)
                (issuedHandles s) in
      let registry :=
        if negb handleIsAlreadyIssued
        then issuedHandles s ++ [writableHandle]
        else issuedHandles s in
      (Resolves (Right handle),
       mkState tree registry cells (workspaceRefs s) (requestObjects s))
  end.

(** The call of [resolveSaveContextOnRequestReorder] at the end acts on
    the save contexts of the tab service, outside this state. *)
Definition removeRESTRequest (requestHandle : Handle WorkspaceRequest) (s : State)
  : Completion (Either string unit) * State :=
  match narrowRequest requestHandle providerID "personal" s with
  | None => (Resolves (Left "INVALID_REQUEST_HANDLE"), s)
  | Some data =>
      let collectionID := wr_collectionID data in
      let requestID := wr_requestID data in
      let requestIndex := JS.parseInt (JS.lastSegment (JS.split requestID)) in
      let requestToRemove : option ReqRef :=
        match Store.navigateToFolderWithIndexPath (restCollectionState s)
                                                  (indexPath collectionID) with
        | Some c => JS.index (requests c) requestIndex
        | None => None
        end in
      (* requestToRemove?.id *)
      let requestToRemoveId : option string :=
        match requestToRemove with
        | Some r => match requestObjects s !! r with
                    | Some object => req_id object
                    | None => None
                    end
        | None => None
        end in
      let tree :=
        Store.removeRESTRequest collectionID requestIndex requestToRemoveId
                                (restCollectionState s) in
      let cells :=
        fold_left
          (invalidateIf (fun d => String.eqb (wr_requestID d) requestID))
          (issuedHandles s) (handleRefs s) in
      (Resolves (Right tt), withHandleRefs cells (withTree tree s))
  end.

(** One turn of the loop of [updateRESTRequest] over the registry:
    [issuedHandles[idx].value.data.request.name = newRequest.name].  The
    assignment goes to the request object the handle data refers to. *)
Definition renameIfSame (cells : list (HandleState WorkspaceRequest))
           (requestID : string) (newRequest : ReqRef)
           (objects : list (HoppRESTRequest Fields)) (handle : IssuedHandle)
  : list (HoppRESTRequest Fields) :=
  match handle with
  | IssuedRequest cell =>
      match cells !! cell with
      | Some (Ok data) =>
          if String.eqb (wr_requestID data) requestID
          then match objects !! newRequest with
               | Some source => alter (setName (req_name source)) (wr_request data) objects
               | None => objects
               end
          else objects
      | _ => objects
      end
  | IssuedCollection _ => objects
  end.

(** [merge(request, updatedRequest)] assigns into [request], the object
    the handle data refers to, and returns that same object: [newRequest]
    and [request] are one reference.  (A reference always points at an
    allocated object; the model answers [Throws] for one that does not.) *)
Definition updateRESTRequest (requestHandle : Handle WorkspaceRequest)
           (updatedRequest : PartialRequest PartialFields) (s : State)
  : Completion (Either string unit) * State :=
  match narrowRequest requestHandle providerID "personal" s with
  | None => (Resolves (Left "INVALID_REQUEST_HANDLE"), s)
  | Some data =>
      let updatedRequest := deleteId updatedRequest in
      let collectionID := wr_collectionID data in
      let requestID := wr_requestID data in
      let request := wr_request data in
      match requestObjects s !! request with
      | None => (Throws, s)
      | Some object =>
          let objects :=
            <[request := merged mergeFields object updatedRequest]> (requestObjects s) in
          let newRequest := request in
          let requestIndex := JS.parseInt (JS.lastSegment (JS.split requestID)) in
          let tree :=
            Store.editRESTRequest collectionID requestIndex newRequest
                                  (restCollectionState s) in
          let objects' :=
            fold_left (renameIfSame (handleRefs s) requestID newRequest)
                      (issuedHandles s) objects in
          (Resolves (Right tt),
           mkState tree (issuedHandles s) (handleRefs s) (workspaceRefs s) objects')
      end
  end.

(** *** Import, reorder, move *)

Definition importRESTCollections (workspaceHandle : Handle Workspace)
           (collections : list HoppCollection) (s : State)
  : Completion (Either string (Handle WorkspaceCollection)) * State :=
  if negb (isValidWorkspaceHandle workspaceHandle providerID "personal" s)
  then (Resolves (Left "INVALID_WORKSPACE_HANDLE"), s)
  else
    let tree := Store.appendRESTCollections collections (restCollectionState s) in
    match collections with
    | [] => (Throws, withTree tree s)        (* collections[0].name *)
    | first :: _ =>
        let newCollectionName := coll_name first in
        let newCollectionID := JS.toString (JS.length tree) in
        (Resolves (Right (fun now =>
           match narrowWorkspace workspaceHandle providerID "personal" now with
           | None => Invalid "WORKSPACE_INVALIDATED"
           | Some data =>
               Ok {| wc_providerID := providerID;
                     wc_workspaceID := w_workspaceID data;
                     wc_collectionID := newCollectionID;
                     wc_name := newCollectionName |}
           end)),
         withTree tree s)
    end.

Definition reorderRESTCollection (collectionHandle : Handle WorkspaceCollection)
           (destinationCollectionID : option string) (s : State)
  : Completion (Either string unit) * State :=
  match narrowCollection collectionHandle providerID "personal" s with
  | None => (Resolves (Left "INVALID_COLLECTION_HANDLE"), s)
  | Some data =>
      let draggedCollectionIndex := wc_collectionID data in
      let tree :=
        Store.updateRESTCollectionOrder draggedCollectionIndex destinationCollectionID
                                        (restCollectionState s) in
      (Resolves (Right tt), withTree tree s)
  end.

Definition moveRESTCollection (collectionHandle : Handle WorkspaceCollection)
           (destinationCollectionID : option string) (s : State)
  : Completion (Either string unit) * State :=
  match narrowCollection collectionHandle providerID "personal" s with
  | None => (Resolves (Left "INVALID_COLLECTION_HANDLE"), s)
  | Some data =>
      let tree :=
        Store.moveRESTFolder (wc_collectionID data) destinationCollectionID
                             (restCollectionState s) in
      (Resolves (Right tt), withTree tree s)
  end.

(** [destinationRequestID ? pathToLastIndex(destinationRequestID) : null]:
    [null] and the empty string are both falsy. *)
Definition reorderRESTRequest (requestHandle : Handle WorkspaceRequest)
           (destinationCollectionID : string) (destinationRequestID : option string)
           (s : State) : Completion (Either string unit) * State :=
  match narrowRequest requestHandle providerID "personal" s with
  | None => (Resolves (Left "INVALID_REQUEST_HANDLE"), s)
  | Some data =>
      let draggedRequestIndex := wr_requestID data in
      let destination :=
        match destinationRequestID with
        | Some d => if String.eqb d "" then None else Some (pathToLastIndex d)
        | None => None
        end in
      let tree :=
        Store.updateRESTRequestOrder (pathToLastIndex draggedRequestIndex) destination
                                     destinationCollectionID (restCollectionState s) in
      (Resolves (Right tt), withTree tree s)
  end.

(** [`${collectionID}/${n}`]. *)
Definition childID (collectionID : string) (n : JS.number) : string :=
  collectionID +:+ "/" +:+ JS.toString n.

(** The IDs [moveRESTRequest] takes to be the requests below the moved
    one: [Array.from({ length: range }).map((_, idx) => ...)] with
    [val = range + idx]. *)
Definition affectedRequestIDs (sourceCollectionID : string)
           (affectedReqIndexRange : JS.number) : list string :=
  map (fun idx =>
         let val := JS.add affectedReqIndexRange (JS.ofNat idx) in
         childID sourceCollectionID val)
      (JS.arrayFromLength affectedReqIndexRange).

(** The IDs of the requests below position [i] in a collection of [n]
    requests: the ones a move out of position [i] shifts. *)
Definition requestIDsBelow (sourceCollectionID : string) (n i : Z) : list string :=
  map (fun j => childID sourceCollectionID (JS.Num (i + 1 + Z.of_nat j)))
      (seq 0 (Z.to_nat (n - 1 - i))).

(** The callback of [affectedRequestIDs.forEach(...)]: find the first
    valid issued handle with this request ID and give it the ID with the
    last index decremented. *)
Definition decrementAffected (sourceCollectionID : string)
           (registry : list IssuedHandle)
           (cells : list (HandleState WorkspaceRequest)) (requestID : string)
  : list (HandleState WorkspaceRequest) :=
  match JS.findIndex (issuedWithRequestID cells requestID) registry with
  | None => cells
  | Some handleIdx =>
      match registry !! handleIdx with
      | Some (IssuedRequest cell) =>
          match cells !! cell with
          | Some (Ok data) =>
              let reqIndexPos :=
                JS.Number (JS.lastSegment (JS.split (wr_requestID data))) in
              <[cell := Ok {| wr_providerID := wr_providerID data;
                              wr_workspaceID := wr_workspaceID data;
                              wr_collectionID := wr_collectionID data;
                              wr_requestID :=
                                childID sourceCollectionID
                                        (JS.sub reqIndexPos (JS.Num 1));
                              wr_request := wr_request data |}]> cells
          | _ => cells
          end
      | _ => cells
      end
  end.

Definition moveRESTRequest (requestHandle : Handle WorkspaceRequest)
           (destinationCollectionID : string) (s : State)
  : Completion (Either string unit) * State :=
  match narrowRequest requestHandle providerID "personal" s with
  | None => (Resolves (Left "INVALID_REQUEST_HANDLE"), s)
  | Some data =>
      let draggedRequestID := wr_requestID data in
      let sourceCollectionID := JS.join (JS.dropLast (JS.split draggedRequestID)) in
      let draggedRequestIndexPos := pathToLastIndex draggedRequestID in
      let movedRequestHandleIdx :=
        JS.findIndex (issuedWithRequestID (handleRefs s) draggedRequestID)
                     (issuedHandles s) in
      let movedRequestHandle :=
        match movedRequestHandleIdx with
        | Some idx => issuedHandles s !! idx
        | None => None
        end in
      match movedRequestHandle with
      | Some (IssuedRequest cell) =>
          match handleRefs s !! cell with
          | Some (Ok movedData) =>
              let draggedCollectionReqCountBeforeMove :=
                JS.length (Store.getRequestsByPath (restCollectionState s)
                                                   sourceCollectionID) in
              (* Requests appearing below the request being moved will be
                 affected by the action *)
              let affectedReqIndexRange :=
                JS.sub (JS.sub draggedCollectionReqCountBeforeMove (JS.Num 1))
                       draggedRequestIndexPos in
              let affected := affectedRequestIDs sourceCollectionID affectedReqIndexRange in
              let tree :=
                Store.moveRESTRequest sourceCollectionID draggedRequestIndexPos
                                      destinationCollectionID (restCollectionState s) in
              let destinationCollectionReqCount :=
                JS.length (Store.getRequestsByPath tree destinationCollectionID) in
              let cells :=
                <[cell := Ok {| wr_providerID := wr_providerID movedData;
                                wr_workspaceID := wr_workspaceID movedData;
                                wr_collectionID := destinationCollectionID;
                                wr_requestID :=
                                  childID destinationCollectionID
                                          (JS.sub destinationCollectionReqCount (JS.Num 1));
                                wr_request := wr_request movedData |}]> (handleRefs s) in
              (* Decrement the index pos in affected requests due to move *)
              let cells' :=
                fold_left (decrementAffected sourceCollectionID (issuedHandles s))
                          affected cells in
              (Resolves (Right tt), withHandleRefs cells' (withTree tree s))
          | _ => (Resolves (Left "INVALID_REQUEST_HANDLE"), s)
          end
      | _ => (Resolves (Left "INVALID_REQUEST_HANDLE"), s)
      end
  end.

(** *** Getting handles *)

(** The computed handle reads [collection.name] off the collection found
    at the time of the call; the model keeps that name. *)
Definition getCollectionHandle (workspaceHandle : Handle Workspace)
           (collectionID : string) (s : State)
  : Completion (Either string (Handle WorkspaceCollection)) * State :=
  match narrowWorkspace workspaceHandle providerID "personal" s with
  | None => (Resolves (Left "INVALID_WORKSPACE_HANDLE"), s)
  | Some data =>
      if String.eqb collectionID ""
      then (Resolves (Left "INVALID_COLLECTION_ID"), s)
      else
        match Store.navigateToFolderWithIndexPath (restCollectionState s)
                                                  (indexPath collectionID) with
        | None => (Resolves (Left "COLLECTION_NOT_FOUND"), s)
        | Some collection =>
            let providerID' := w_providerID data in
            let workspaceID := w_workspaceID data in
            (Resolves (Right (fun now =>
               if negb (isValidWorkspaceHandle workspaceHandle providerID "personal" now)
               then Invalid "WORKSPACE_INVALIDATED"
               else Ok {| wc_providerID := providerID';
                          wc_workspaceID := workspaceID;
                          wc_collectionID := collectionID;
                          wc_name := coll_name collection |})),
             s)
        end
  end.

Definition getRequestHandle (workspaceHandle : Handle Workspace)
           (requestID : string) (s : State)
  : Completion (Either string (Handle WorkspaceRequest)) * State :=
  match narrowWorkspace workspaceHandle providerID "personal" s with
  | None => (Resolves (Left "INVALID_COLLECTION_HANDLE"), s)
  | Some data =>
      if String.eqb requestID ""
      then (Resolves (Left "INVALID_REQUEST_ID"), s)
      else
        let providerID' := w_providerID data in
        let workspaceID := w_workspaceID data in
        let collectionID := JS.join (JS.dropLast (JS.split requestID)) in
        let requestIndexPath := JS.lastSegment (JS.split requestID) in
        if String.eqb requestIndexPath ""
        then (Resolves (Left "INVALID_REQUEST_ID"), s)
        else
          let requestIndex := JS.parseInt requestIndexPath in
          (* Navigate to the collection containing the request *)
          let collection :=
            Store.navigateToFolderWithIndexPath (restCollectionState s)
                                                (indexPath collectionID) in
          (* Grab the request with it's index *)
          let request : option ReqRef :=
            match collection with
            | Some c => JS.index (requests c) requestIndex
            | None => None
            end in
          match request with
          | None => (Resolves (Left "REQUEST_NOT_FOUND"), s)
          | Some request =>
              let handleRefData := List.length (handleRefs s) in
              let cells :=
                handleRefs s ++ [Ok {| wr_providerID := providerID';
                                       wr_workspaceID := workspaceID;
                                       wr_collectionID := collectionID;
                                       wr_requestID := requestID;
                                       wr_request := request |}] in
              let handle : Handle WorkspaceRequest := fun now =>
                if negb (isValidWorkspaceHandle workspaceHandle providerID "personal" now)
                then Invalid "WORKSPACE_INVALIDATED"
                else readCell handleRefData now in
              let writableHandle := IssuedRequest handleRefData in
              let handleIsAlreadyIssued :=
                existsb (issuedWithKey cells providerID' workspaceID collectionID requestID)
                        (issuedHandles s) in
              let registry :=
                if negb handleIsAlreadyIssued
                then issuedHandles s ++ [writableHandle]
                else issuedHandles s in
              (Resolves (Right handle),
               mkState (restCollectionState s) registry cells (workspaceRefs s)
                       (requestObjects s))
          end
  end.

(** [shallowRef({ type: "ok", data: { ... } })]. *)
Definition getPersonalWorkspaceHandle (s : State) : Handle Workspace * State :=
  let cell := List.length (workspaceRefs s) in
  (fun now =>
     match workspaceRefs now !! cell with
     | Some st => st
     | None => Invalid "UNALLOCATED"
     end,
   mkState (restCollectionState s) (issuedHandles s) (handleRefs s)
           (workspaceRefs s ++ [Ok {| w_providerID := providerID;
                                      w_workspaceID := "personal";
                                      w_name := "Personal Workspace" |}])
           (requestObjects s)).

Definition getWorkspaceHandle (workspaceID : string) (s : State)
  : Completion (Either string (Handle Workspace)) * State :=
  if negb (String.eqb workspaceID "personal")
  then (Resolves (Left "INVALID_WORKSPACE_ID"), s)
  else
    let '(handle, s') := getPersonalWorkspaceHandle s in
    (Resolves (Right handle), s').

(** *** Calls of the provider, one after the other *)

(** A call of a method of the provider that touches the state, with its
    arguments.  (The views and the two exports only read.) *)
Inductive Call : Type :=
| CreateRESTRootCollection (w : Handle Workspace) (c : NamedCollection)
| CreateRESTChildCollection (p : Handle WorkspaceCollection) (c : NamedCollection)
| UpdateRESTCollection (h : Handle WorkspaceCollection) (u : PartialCollection)
| RemoveRESTCollection (h : Handle WorkspaceCollection)
| CreateRESTRequest (p : Handle WorkspaceCollection) (r : ReqRef)
| RemoveRESTRequest (h : Handle WorkspaceRequest)
| UpdateRESTRequest (h : Handle WorkspaceRequest) (u : PartialRequest PartialFields)
| ImportRESTCollections (w : Handle Workspace) (cs : list HoppCollection)
| ReorderRESTCollection (h : Handle WorkspaceCollection) (d : option string)
| MoveRESTCollection (h : Handle WorkspaceCollection) (d : option string)
| ReorderRESTRequest (h : Handle WorkspaceRequest) (dc : string) (dr : option string)
| MoveRESTRequest (h : Handle WorkspaceRequest) (d : string)
| GetCollectionHandle (w : Handle Workspace) (id : string)
| GetRequestHandle (w : Handle Workspace) (id : string)
| GetWorkspaceHandle (id : string)
| GetPersonalWorkspaceHandle.

(** The state a call leaves behind. *)
Definition after (c : Call) (s : State) : State :=
  match c with
  | CreateRESTRootCollection w c => snd (createRESTRootCollection w c s)
  | CreateRESTChildCollection p c => snd (createRESTChildCollection p c s)
  | UpdateRESTCollection h u => snd (updateRESTCollection h u s)
  | RemoveRESTCollection h => snd (removeRESTCollection h s)
  | CreateRESTRequest p r => snd (createRESTRequest p r s)
  | RemoveRESTRequest h => snd (removeRESTRequest h s)
  | UpdateRESTRequest h u => snd (updateRESTRequest h u s)
  | ImportRESTCollections w cs => snd (importRESTCollections w cs s)
  | ReorderRESTCollection h d => snd (reorderRESTCollection h d s)
  | MoveRESTCollection h d => snd (moveRESTCollection h d s)
  | ReorderRESTRequest h dc dr => snd (reorderRESTRequest h dc dr s)
  | MoveRESTRequest h d => snd (moveRESTRequest h d s)
  | GetCollectionHandle w id => snd (getCollectionHandle w id s)
  | GetRequestHandle w id => snd (getRequestHandle w id s)
  | GetWorkspaceHandle id => snd (getWorkspaceHandle id s)
  | GetPersonalWorkspaceHandle => snd (getPersonalWorkspaceHandle s)
  end.

Definition afterAll (cs : list Call) (s : State) : State :=
  fold_left (fun s c => after c s) cs s.

(** *** The registry: invariants and frames *)

(** The data of a registry entry that is a valid request handle. *)
Definition issuedRequestData (cells : list (HandleState WorkspaceRequest))
           (handle : IssuedHandle) : option WorkspaceRequest :=
  match handle with
  | IssuedRequest cell =>
      match cells !! cell with
      | Some (Ok data) => Some data
      | _ => None
      end
  | IssuedCollection _ => None
  end.

(** The composite key of a request handle. *)
Definition keyOf (d : WorkspaceRequest) : string * string * string * string :=
  (wr_providerID d, wr_workspaceID d, wr_collectionID d, wr_requestID d).

(** Every cell the registry refers to is allocated. *)
Definition allocatedIn (cells : list (HandleState WorkspaceRequest))
           (registry : list IssuedHandle) : Prop :=
  forall cell, In (IssuedRequest cell) registry -> (cell < List.length cells)%nat.

Definition registryAllocated (s : State) : Prop :=
  allocatedIn (handleRefs s) (issuedHandles s).

(** No two entries of the registry are valid request handles with the
    same composite key. *)
Definition uniqueKeysIn (cells : list (HandleState WorkspaceRequest))
           (registry : list IssuedHandle) : Prop :=
  forall i j hi hj di dj,
    registry !! i = Some hi ->
    registry !! j = Some hj ->
    issuedRequestData cells hi = Some di ->
    issuedRequestData cells hj = Some dj ->
    keyOf di = keyOf dj ->
    i = j.

Definition uniqueKeys (s : State) : Prop :=
  uniqueKeysIn (handleRefs s) (issuedHandles s).

(** From [s] to [s'] the registry is the same, or it has one more entry:
    the writable handle of a cell allocated in between, whose key no
    valid request handle of the registry of [s] has. *)
Definition appendedOnlyIfFresh (s s' : State) : Prop :=
  issuedHandles s' = issuedHandles s
  \/ exists new,
      handleRefs s' = handleRefs s ++ [Ok new]
      /\ issuedHandles s' = issuedHandles s ++ [IssuedRequest (List.length (handleRefs s))]
      /\ forall h d,
          In h (issuedHandles s) ->
          issuedRequestData (handleRefs s) h = Some d ->
          keyOf d <> keyOf new.

(** What one pass of an invalidation loop does to the state of a cell. *)
Definition invalidated (test : WorkspaceRequest -> bool)
           (st : HandleState WorkspaceRequest) : HandleState WorkspaceRequest :=
  match st with
  | Ok data => if test data then Invalid "REQUEST_INVALIDATED" else st
  | Invalid _ => st
  end.

(** The request the tree holds at the place a handle's IDs address. *)
Definition addressed (tree : list HoppCollection) (data : WorkspaceRequest)
  : option ReqRef :=
  JS.index (Store.getRequestsByPath tree (wr_collectionID data))
           (pathToLastIndex (wr_requestID data)).

(** Modelled from the spec: the store of [~/newstore/collections] is not
    among the sources.  The spec has identities made of "positional
    indices into nested arrays"; for a root collection that is: the
    collection the store adds is found, by the store's own lookup, at
    the index that was the length of the root array. *)
Definition addsAtTheEnd : Prop :=
  forall (collection : HoppCollection) (tree : list HoppCollection),
    Store.navigateToFolderWithIndexPath (Store.addRESTCollection collection tree)
                                        [JS.length tree]
    = Some collection.

(** Modelled from the spec: the store of [~/newstore/collections] is not
    among the sources.  For a request the positional index is the one
    [saveRESTRequestAs] returns: saved into a collection that is there,
    the request then sits at that index among the requests of the
    collection. *)
Definition savesAtTheReturnedIndex : Prop :=
  forall (collectionID : string) (request : ReqRef) (tree : list HoppCollection)
         (collection : HoppCollection),
    Store.navigateToFolderWithIndexPath tree (indexPath collectionID) = Some collection ->
    Store.getRequestsByPath (snd (Store.saveRESTRequestAs collectionID request tree))
                            collectionID
    !! fst (Store.saveRESTRequestAs collectionID request tree)
    = Some request.

(** A handle that is read behind an owner check: whenever the check
    fails, the read is invalid with this reason. *)
Definition guardedBy {T : Type} (valid : State -> bool) (reason : string)
           (h : Handle T) : Prop :=
  forall now, valid now = false -> h now = Invalid reason.






(** Index paths: [p] addresses the collection at [c] or one below it. *)
Definition inSubtree (c p : list JS.number) : bool :=
  (List.length c <=? List.length p)%nat
  && forallb (fun '(a, b) => JS.number_eqb a b) (combine c p).

End Provider.

Arguments Call : clear implicits.

(** ** A store on lists

    The store the provider is run against on concrete inputs; the general
    theorems hold for every store. *)

Module ListStore.

Definition toIndex (n : JS.number) : option nat :=
  match n with
  | JS.Num z => if Z.ltb z 0 then None else Some (Z.to_nat z)
  | JS.NaN => None
  end.

(** Modelled from the spec: [navigateToFolderWithIndexPath] of
    [~/newstore/collections], which is not among the sources.  In the
    spec "2/0/1" is the third root collection, then its first sub-folder,
    then that one's second sub-folder; an empty path, or an index with
    nothing at it, leads nowhere. *)
Fixpoint navigate (collections : list HoppCollection) (indexPaths : list JS.number)
  : option HoppCollection :=
  match indexPaths with
  | [] => None
  | i :: rest =>
      match JS.index collections i with
      | None => None
      | Some c =>
          match rest with
          | [] => Some c
          | _ => navigate (folders c) rest
          end
      end
  end.

Definition setFolders (fs : list HoppCollection) (c : HoppCollection) : HoppCollection :=
  Collection (coll_id c) (coll_name c) fs (requests c).

Definition setRequests (rs : list ReqRef) (c : HoppCollection) : HoppCollection :=
  Collection (coll_id c) (coll_name c) (folders c) rs.

(** Apply [f] to the collection at the end of the path, if there is one. *)
Fixpoint alterAt (f : HoppCollection -> HoppCollection) (indexPaths : list JS.number)
         (collections : list HoppCollection) : list HoppCollection :=
  match indexPaths with
  | [] => collections
  | i :: rest =>
      match toIndex i with
      | None => collections
      | Some n =>
          match rest with
          | [] => alter f n collections
          | _ => alter (fun c => setFolders (alterAt f rest (folders c)) c) n collections
          end
      end
  end.

(** [Object.assign(target, partial)]. *)
Definition assign (p : PartialCollection) (c : HoppCollection) : HoppCollection :=
  Collection (match pc_id p with Some i => Some i | None => coll_id c end)
             (default (coll_name c) (pc_name p))
             (default (folders c) (pc_folders p))
             (default (requests c) (pc_requests p)).

(** Take the element at [from] out and put it back before the element
    that was at [to], or at the end. *)
Definition reorder {A : Type} (from : nat) (to : option nat) (l : list A) : list A :=
  match l !! from with
  | None => l
  | Some x =>
      let rest := delete from l in
      match to with
      | None => rest ++ [x]
      | Some t =>
          let t' := if Nat.ltb from t then Nat.pred t else t in
          take t' rest ++ x :: drop t' rest
      end
  end.

(** Apply [f] to the list that holds the collection at the path: the root
    list, or the folders of its parent. *)
Definition alterSiblings (f : list HoppCollection -> list HoppCollection)
           (indexPaths : list JS.number) (collections : list HoppCollection)
  : list HoppCollection :=
  match removelast indexPaths with
  | [] => f collections
  | parent => alterAt (fun c => setFolders (f (folders c)) c) parent collections
  end.

Definition lastIndex (indexPaths : list JS.number) : option nat :=
  toIndex (List.last indexPaths JS.NaN).

Definition path (id : string) : list JS.number := map JS.parseInt (JS.split id).

(** Modelled from the spec: [getRequestsByPath] of
    [~/helpers/collection/request], which is not among the sources: the
    requests of the collection the index path leads to. *)
Definition requestsAt (collections : list HoppCollection) (id : string) : list ReqRef :=
  match navigate collections (path id) with
  | Some c => requests c
  | None => []
  end.

(** Modelled from the spec: the mutations of the collection store of
    [~/newstore/collections], which is not among the sources.  The spec
    describes an in-memory tree of nested arrays addressed by index
    paths and changed by create, delete, move and reorder.  On lists:
    creating appends, deleting removes the element at the index, moving
    removes at the source and appends at the destination, reordering
    takes the dragged element out and puts it back before the
    destination element, or at the end when there is none; a path that
    leads nowhere changes nothing. *)
#[global] Instance ops : Store.Ops := {|
  Store.addRESTCollection c t := t ++ [c];
  Store.addRESTFolder name id t :=
    alterAt (fun c => setFolders (folders c ++ [Collection None name [] []]) c) (path id) t;
  Store.appendRESTCollections cs t := t ++ cs;
  Store.editRESTCollection i p t :=
    match toIndex i with
    | Some n => alter (assign p) n t
    | None => t
    end;
  Store.editRESTFolder id p t := alterAt (assign p) (path id) t;
  Store.editRESTRequest id i r t :=
    match toIndex i with
    | Some n => alterAt (fun c => setRequests (<[n := r]> (requests c)) c) (path id) t
    | None => t
    end;
  Store.moveRESTFolder id dest t :=
    match navigate t (path id), lastIndex (path id) with
    | Some folder, Some n =>
        let t' := alterSiblings (delete n) (path id) t in
        match dest with
        | None => t' ++ [folder]
        | Some d => alterAt (fun c => setFolders (folders c ++ [folder]) c) (path d) t'
        end
    | _, _ => t
    end;
  Store.moveRESTRequest id i dest t :=
    match toIndex i with
    | Some n =>
        match requestsAt t id !! n with
        | Some r =>
            alterAt (fun c => setRequests (requests c ++ [r]) c) (path dest)
                    (alterAt (fun c => setRequests (delete n (requests c)) c) (path id) t)
        | None => t
        end
    | None => t
    end;
  Store.navigateToFolderWithIndexPath := navigate;
  Store.removeRESTCollection i _ t :=
    match toIndex i with
    | Some n => delete n t
    | None => t
    end;
  Store.removeRESTFolder id _ t :=
    match lastIndex (path id) with
    | Some n => alterSiblings (delete n) (path id) t
    | None => t
    end;
  Store.removeRESTRequest id i _ t :=
    match toIndex i with
    | Some n => alterAt (fun c => setRequests (delete n (requests c)) c) (path id) t
    | None => t
    end;
  Store.saveRESTRequestAs id r t :=
    (List.length (requestsAt t id),
     alterAt (fun c => setRequests (requests c ++ [r]) c) (path id) t);
  Store.updateRESTCollectionOrder id dest t :=
    match lastIndex (path id) with
    | Some n =>
        alterSiblings
          (reorder n (match dest with Some d => lastIndex (path d) | None => None end))
          (path id) t
    | None => t
    end;
  Store.updateRESTRequestOrder i dest id t :=
    match toIndex i with
    | Some n =>
        alterAt (fun c =>
                   setRequests
                     (reorder n (match dest with Some d => toIndex d | None => None end)
                              (requests c)) c)
                (path id) t
    | None => t
    end;
  Store.getRequestsByPath := requestsAt;
|}.

End ListStore.

(** ** Concrete inputs

    Requests with two further fields, a method and an endpoint; a partial
    request may carry either. *)

Module Sample.

Definition Fields : Type := string * string.
Definition PartialFields : Type := option string * option string.

Definition mergeFields (f : Fields) (p : PartialFields) : Fields :=
  (default (fst f) (fst p), default (snd f) (snd p)).

Definition request (name endpoint : string) : HoppRESTRequest Fields :=
  {| req_id := None; req_name := name; req_fields := ("GET", endpoint) |}.

Definition requestData (collectionID requestID : string) (r : ReqRef) : WorkspaceRequest :=
  {| wr_providerID := providerID; wr_workspaceID := "personal";
     wr_collectionID := collectionID; wr_requestID := requestID; wr_request := r |}.

(** A handle that is a plain ref holding this state. *)
Definition constant {T : Type} (st : HandleState T) : Handle Fields T := fun _ => st.

Definition personal : Handle Fields Workspace :=
  constant (Ok {| w_providerID := providerID; w_workspaceID := "personal";
                  w_name := "Personal Workspace" |}).

(** The computed handle to a collection named "c", as
    [getCollectionHandle] builds it on the personal workspace handle. *)
Definition collection (collectionID : string) : Handle Fields WorkspaceCollection :=
  fun now =>
    if negb (isValidWorkspaceHandle personal providerID "personal" now)
    then Invalid "WORKSPACE_INVALIDATED"
    else Ok {| wc_providerID := providerID; wc_workspaceID := "personal";
               wc_collectionID := collectionID; wc_name := "c" |}.

(** The computed handle over a cell, as [getRequestHandle] builds it on
    the personal workspace handle. *)
Definition requestHandle (cell : CellRef) : Handle Fields WorkspaceRequest := fun now =>
  if negb (isValidWorkspaceHandle personal providerID "personal" now)
  then Invalid "WORKSPACE_INVALIDATED"
  else readCell cell now.

Definition empty : State Fields :=
  {| restCollectionState := []; issuedHandles := []; handleRefs := [];
     workspaceRefs := []; requestObjects := [] |}.

Definition getRequest (requestID : string) : Call Fields PartialFields :=
  GetRequestHandle personal requestID.

(** Collection "0" with three requests, collection "1" with none. *)
Definition three : State Fields :=
  {| restCollectionState :=
       [Collection None "c" [] [0; 1; 2]%nat; Collection None "c" [] []];
     issuedHandles := []; handleRefs := []; workspaceRefs := [];
     requestObjects := [request "r0" "/0"; request "r1" "/1"; request "r2" "/2"] |}.

(** ... after handles to the three requests have been got. *)
Definition issued3 : State Fields :=
  afterAll mergeFields [getRequest "0/0"; getRequest "0/1"; getRequest "0/2"] three.

(** Eleven root collections, the k-th holding the one request k. *)
Definition eleven : State Fields :=
  {| restCollectionState :=
       map (fun k => Collection None "c" [] [k]) (seq 0 11);
     issuedHandles := []; handleRefs := []; workspaceRefs := [];
     requestObjects := map (fun _ => request "r" "/") (seq 0 11) |}.

(** ... after handles to the requests "2/0" and "10/0" have been got. *)
Definition issued11 : State Fields :=
  afterAll mergeFields [getRequest "2/0"; getRequest "10/0"] eleven.

(** Two root collections with one request each, and a handle to "0/0". *)
Definition issued2 : State Fields :=
  afterAll mergeFields [getRequest "0/0"]
    {| restCollectionState :=
         [Collection None "c" [] [0%nat]; Collection None "c" [] [1%nat]];
       issuedHandles := []; handleRefs := []; workspaceRefs := [];
       requestObjects := [request "r0" "/0"; request "r1" "/1"] |}.

(** A partial request that changes the endpoint and nothing else. *)
Definition newEndpoint : PartialRequest PartialFields :=
  {| upd_id := None; upd_name := None; upd_fields := (None, Some "/new") |}.

End Sample.

(** ** The views ([getRESTRootCollectionView], [getRESTCollectionChildrenView]) *)

(** [s.includes(sub)]: [sub] occurs somewhere in [s]. *)
Fixpoint includes (s sub : string) : bool :=
  if String.prefix sub s then true
  else match s with
       | EmptyString => false
       | String _ s' => includes s' sub
       end.

(** The value of an item of type "collection". *)
Record CollectionItem : Type := mkCollectionItem {
  ci_collectionID : string;
  ci_isLastItem : bool;
  ci_name : string;
  ci_parentCollectionID : option string;
}.

(** The value of an item of type "request". *)
Record RequestItem : Type := mkRequestItem {
  ri_isLastItem : bool;
  ri_collectionID : string;
  ri_requestID : string;
  ri_request : ReqRef;
}.

Inductive RESTCollectionViewItem : Type :=
| ItemCollection (value : CollectionItem)
| ItemRequest (value : RequestItem).

Section Views.

Context {Fields : Type}.
Context `{Store.Ops}.

Local Abbreviation State := (State Fields).
Local Abbreviation Handle := (Handle Fields).

(** The data of the two views.  [loading] is a fresh [ref(false)] that
    nothing writes; [collections] and [content] are computed values,
    read in a state. *)
Record RootRESTCollectionView : Type := mkRootView {
  rv_providerID : string;
  rv_workspaceID : string;
  rv_loading : bool;
  rv_collections : State -> list CollectionItem;
}.

Record RESTCollectionChildrenView : Type := mkChildrenView {
  cv_providerID : string;
  cv_workspaceID : string;
  cv_collectionID : string;
  cv_loading : bool;
  cv_content : State -> list RESTCollectionViewItem;
}.

(** [id === arr.length - 1]. *)
Definition isLastIndex {A : Type} (l : list A) (id : nat) : bool :=
  JS.number_eqb (JS.ofNat id) (JS.sub (JS.length l) (JS.Num 1)).

(** The [collections] of the root view:
    [state.map((coll, id) => ({ collectionID: id.toString(), ... }))]. *)
Definition rootCollections (now : State) : list CollectionItem :=
  imap (fun id coll =>
          {| ci_collectionID := JS.toString (JS.ofNat id);
             ci_isLastItem := isLastIndex (restCollectionState now) id;
             ci_name := coll_name coll;
             ci_parentCollectionID := None |})
       (restCollectionState now).

Definition getRESTRootCollectionView (workspaceHandle : Handle Workspace)
  : Either string (Handle RootRESTCollectionView) :=
  Right (fun now =>
           match narrowWorkspace workspaceHandle providerID "personal" now with
           | None => Invalid "INVALID_WORKSPACE_HANDLE"
           | Some data =>
               Ok {| rv_providerID := providerID;
                     rv_workspaceID := w_workspaceID data;
                     rv_loading := false;
                     rv_collections := rootCollections |}
           end).

(** The [content] of the children view of a collection: its folders,
    then its requests, or nothing when the path leads nowhere. *)
Definition childrenContent (collectionID : string) (now : State)
  : list RESTCollectionViewItem :=
  let indexPath := indexPath collectionID in
  let item := Store.navigateToFolderWithIndexPath (restCollectionState now) indexPath in
  match item with
  | Some item =>
      let collections :=
        imap (fun id childColl =>
                ItemCollection
                  {| ci_collectionID := childID collectionID (JS.ofNat id);
                     ci_isLastItem :=
                       if (1 <? List.length (folders item))%nat
                       then isLastIndex (folders item) id
                       else false;
                     ci_name := coll_name childColl;
                     ci_parentCollectionID := Some collectionID |})
             (folders item) in
      let requests :=
        imap (fun id req =>
                ItemRequest
                  {| ri_isLastItem :=
                       if (1 <? List.length (requests item))%nat
                       then isLastIndex (requests item) id
                       else false;
                     ri_collectionID := collectionID;
                     ri_requestID := childID collectionID (JS.ofNat id);
                     ri_request := req |})
             (requests item) in
      collections ++ requests
  | None => []
  end.

Definition getRESTCollectionChildrenView (collectionHandle : Handle WorkspaceCollection)
  : Either string (Handle RESTCollectionChildrenView) :=
  Right (fun now =>
           match narrowCollection collectionHandle providerID "personal" now with
           | None => Invalid "INVALID_COLLECTION_HANDLE"
           | Some data =>
               let collectionID := wc_collectionID data in
               Ok {| cv_providerID := providerID;
                     cv_workspaceID := wc_workspaceID data;
                     cv_collectionID := wc_collectionID data;
                     cv_loading := false;
                     cv_content := childrenContent collectionID |}
           end).

End Views.

Arguments RootRESTCollectionView : clear implicits.
Arguments RESTCollectionChildrenView : clear implicits.

(** ** Inherited auth and headers ([getRESTCollectionLevelAuthHeadersView])

    [HoppRESTAuth] and the headers of [HoppRESTHeaders] are types of the
    data package.  The view reads the [authType] of an auth, the [key]
    and the [active] flag of a header, and the [auth] and [headers] of a
    collection; they are taken as they come: the types, the readers of
    their fields, and the auth [{ authType: "none", authActive: true }]. *)

Section Inheritance.

Context {Fields Auth Header : Type}.
Context (authType : Auth -> string) (authNone : Auth).
Context (headerKey : Header -> string) (headerActive : Header -> bool).
Context (authOf : HoppCollection -> option Auth).
Context (headersOf : HoppCollection -> option (list Header)).
Context `{Store.Ops}.

Local Abbreviation State := (State Fields).
Local Abbreviation Handle := (Handle Fields).

(** [HoppInheritedProperty["auth"]]; [inheritedAuth] is whatever the
    folder had as [auth], be it [undefined]. *)
Record InheritedAuth : Type := mkInheritedAuth {
  ia_parentID : string;
  ia_parentName : string;
  ia_inheritedAuth : option Auth;
}.

(** An element of [HoppInheritedProperty["headers"]]. *)
Record InheritedHeader : Type := mkInheritedHeader {
  ih_parentID : string;
  ih_parentName : string;
  ih_inheritedHeader : Header;
}.

(** [auth?.authType === "inherit"]. *)
Definition isInherit (auth : option Auth) : bool :=
  match auth with
  | Some a => String.eqb (authType a) "inherit"
  | None => false
  end.

(** [path.join("/")] on an array of numbers. *)
Definition joinPath (path : list JS.number) : string :=
  JS.join (map JS.toString path).

(** The callback of [activeHeaders.forEach(...)]: replace the header
    with the same key, or push. *)
Definition mergeHeader (currentPath parentName : string)
           (headers : list InheritedHeader) (header : Header) : list InheritedHeader :=
  let index :=
    JS.findIndex
      (fun h => String.eqb (headerKey (ih_inheritedHeader h)) (headerKey header))
      headers in
  let entry := {| ih_parentID := currentPath;
                  ih_parentName := parentName;
                  ih_inheritedHeader := header |} in
  match index with
  | Some index => <[index := entry]> headers
  | None => headers ++ [entry]
  end.

(** The body of the loop over the path, for a parent folder that was
    found at [prefix = path.slice(0, i + 1)]. *)
Definition inheritFrom (prefix : list JS.number) (parentFolder : HoppCollection)
           (acc : InheritedAuth * list InheritedHeader)
  : InheritedAuth * list InheritedHeader :=
  let '(auth, headers) := acc in
  let parentFolderAuth := authOf parentFolder in
  let parentFolderHeaders := headersOf parentFolder in
  (* check if the parent folder has authType 'inherit' and if it is the root folder *)
  let auth :=
    if isInherit parentFolderAuth && Nat.eqb (List.length prefix) 1
    then {| ia_parentID := joinPath prefix;
            ia_parentName := coll_name parentFolder;
            ia_inheritedAuth := ia_inheritedAuth auth |}
    else auth in
  let auth :=
    if negb (isInherit parentFolderAuth)
    then {| ia_parentID := joinPath prefix;
            ia_parentName := coll_name parentFolder;
            ia_inheritedAuth := parentFolderAuth |}
    else auth in
  (* Update headers, overwriting duplicates by key *)
  let headers :=
    match parentFolderHeaders with
    | Some parentFolderHeaders =>
        let activeHeaders := List.filter headerActive parentFolderHeaders in
        fold_left (mergeHeader (joinPath prefix) (coll_name parentFolder))
                  activeHeaders headers
    | None => headers
    end in
  (auth, headers).

(** The loop [for (let i = 0; i < path.length; i++)] from the indices
    still to go; it returns what it has as soon as a parent folder is
    not found. *)
Fixpoint inheritAlong (tree : list HoppCollection) (path : list JS.number)
         (indices : list nat) (acc : InheritedAuth * list InheritedHeader)
  : InheritedAuth * list InheritedHeader :=
  match indices with
  | [] => acc
  | i :: rest =>
      let prefix := take (S i) path in
      match Store.navigateToFolderWithIndexPath tree prefix with
      | None => acc
      | Some parentFolder => inheritAlong tree path rest (inheritFrom prefix parentFolder acc)
      end
  end.

(** The data of the view for a collection ID, in a state. *)
Definition inheritedProperties (collectionID : string) (now : State)
  : InheritedAuth * list InheritedHeader :=
  let auth := {| ia_parentID := collectionID;
                 ia_parentName := "";
                 ia_inheritedAuth := Some authNone |} in
  let headers := [] in
  if String.eqb collectionID "" then (auth, headers)
  else
    let path := indexPath collectionID in
    if Nat.eqb (List.length path) 0 then (auth, headers)
    else inheritAlong (restCollectionState now) path (seq 0 (List.length path))
                      (auth, headers).

Definition getRESTCollectionLevelAuthHeadersView
           (collectionHandle : Handle WorkspaceCollection)
  : Either string (Handle (InheritedAuth * list InheritedHeader)) :=
  Right (fun now =>
           match narrowCollection collectionHandle providerID "personal" now with
           | None => Invalid "INVALID_COLLECTION_HANDLE"
           | Some data => Ok (inheritedProperties (wc_collectionID data) now)
           end).

(** The inherited header with a key, if there is one. *)
Definition inheritedFor (key : string) (headers : list InheritedHeader)
  : option InheritedHeader :=
  List.find (fun h => String.eqb (headerKey (ih_inheritedHeader h)) key) headers.

(** The last active header of a folder with a key. *)
Definition lastActive (key : string) (hs : list Header) : option Header :=
  List.find (fun h => String.eqb (headerKey h) key) (rev (List.filter headerActive hs)).

(** All the folders along the path, from the root down, or [None] when
    one of them is not found. *)
Definition foldersAlong (tree : list HoppCollection) (path : list JS.number)
  : option (list HoppCollection) :=
  mapM (fun i => Store.navigateToFolderWithIndexPath tree (take (S i) path))
       (seq 0 (List.length path)).

(** The last active header with a key that a folder sets itself. *)
Definition activeFor (key : string) (folder : HoppCollection) : option Header :=
  match headersOf folder with
  | Some hs => lastActive key hs
  | None => None
  end.

End Inheritance.

Arguments InheritedAuth : clear implicits.
Arguments InheritedHeader : clear implicits.

(** ** Searching the tree ([getRESTSearchResultsView])

    The callback of the watcher on the search query, which fills the
    [results] of the view.  [toLowerCase] is the method of JavaScript
    strings; [nameOf] reads the name of a request object through its
    reference. *)

Section Search.

Context (toLowerCase : string -> string) (nameOf : ReqRef -> string).
Context (searchQuery : string).

Definition isMatch (inputText textToMatch : string) : bool :=
  includes (toLowerCase inputText) (toLowerCase textToMatch).

Definition filterRequests (requests : list ReqRef) : list ReqRef :=
  List.filter (fun request => isMatch (nameOf request) searchQuery) requests.

(** The test of the [.filter(...)] after the [.map(...)]. *)
Definition hasContent (childCollection : HoppCollection) : bool :=
  (0 <? List.length (requests childCollection))%nat
  || (0 <? List.length (folders childCollection))%nat
  || isMatch (coll_name childCollection) searchQuery.

(** The callback of the [.map(...)] of [filterChildCollections]; the
    recursive call on the folders is written out as the filter over the
    map, so that the recursion is on the collection. *)
Fixpoint filterChildCollection (childCollection : HoppCollection) : HoppCollection :=
  match childCollection with
  | Collection id name folders requests =>
      (* Render the entire collection tree if the search query matches a collection name *)
      if isMatch name searchQuery then childCollection
      else Collection id name
                      (List.filter hasContent (map filterChildCollection folders))
                      (filterRequests requests)
  end.

Definition filterChildCollections (childCollections : list HoppCollection)
  : list HoppCollection :=
  List.filter hasContent (map filterChildCollection childCollections).

(** The callback of the watcher: the whole tree for an empty query, the
    filtered root collections otherwise. *)
Definition searchResults (state : list HoppCollection) : list HoppCollection :=
  if String.eqb searchQuery "" then state
  else filterChildCollections state.

(** All the requests of a collection, at any depth. *)
Fixpoint requestsWithin (c : HoppCollection) : list ReqRef :=
  match c with
  | Collection _ _ folders requests => requests ++ flat_map requestsWithin folders
  end.

(** The requests of a collection that do not lie in or below a
    collection whose name matches the query. *)
Fixpoint requestsOutsideMatch (c : HoppCollection) : list ReqRef :=
  match c with
  | Collection _ name folders requests =>
      if isMatch name searchQuery then []
      else requests ++ flat_map requestsOutsideMatch folders
  end.

(** The collection holds a match: its name, the name of one of its
    requests, or a folder that holds one. *)
Fixpoint holdsMatch (c : HoppCollection) : bool :=
  match c with
  | Collection _ name folders requests =>
      isMatch name searchQuery
      || existsb (fun request => isMatch (nameOf request) searchQuery) requests
      || existsb holdsMatch folders
  end.

End Search.

(** ** Concrete inputs for the views

    A tree three levels deep, with auth and headers told by the names of
    the collections, and lower-casing of ASCII letters. *)

Module SampleViews.

(** "api" holds the request 0 and the folder "users", which holds the
    requests 1 and 3 and the folder "admin" with the request 2; "misc" is
    empty. *)
Definition tree : list HoppCollection :=
  [Collection None "api"
              [Collection None "users" [Collection None "admin" [] [2%nat]] [1%nat; 3%nat]]
              [0%nat];
   Collection None "misc" [] []].

Definition state : State Sample.Fields :=
  {| restCollectionState := tree;
     issuedHandles := []; handleRefs := []; workspaceRefs := [];
     requestObjects := [Sample.request "List" "/"; Sample.request "Get user" "/users/1";
                        Sample.request "Delete" "/admin";
                        Sample.request "Create user" "/users"] |}.

Definition nameOf (r : ReqRef) : string :=
  match requestObjects state !! r with
  | Some object => req_name object
  | None => ""
  end.

Definition lowerAscii (c : ascii) : ascii :=
  let n := nat_of_ascii c in
  if (65 <=? n)%nat && (n <=? 90)%nat then ascii_of_nat (n + 32) else c.

Fixpoint toLowerCase (s : string) : string :=
  match s with
  | EmptyString => EmptyString
  | String c s' => String (lowerAscii c) (toLowerCase s')
  end.

(** An auth is its type; a header is its key, its value and its
    [active] flag. *)
Definition Auth : Type := string.
Definition Header : Type := string * string * bool.

Definition authType (a : Auth) : string := a.
Definition headerKey (h : Header) : string := fst (fst h).
Definition headerActive (h : Header) : bool := snd h.

(** "api" has a bearer auth, "users", "admin" and "misc" inherit. *)
Definition authOf (c : HoppCollection) : option Auth :=
  if String.eqb (coll_name c) "api" then Some "bearer"
  else if String.eqb (coll_name c) "users" || String.eqb (coll_name c) "admin"
          || String.eqb (coll_name c) "misc"
       then Some "inherit"
       else None.

(** "api" sets Accept and X-Env, "users" sets Accept again and an
    inactive X-Off, the others have no headers. *)
Definition headersOf (c : HoppCollection) : option (list Header) :=
  if String.eqb (coll_name c) "api"
  then Some [("Accept", "json", true); ("X-Env", "dev", true)]
  else if String.eqb (coll_name c) "users"
       then Some [("Accept", "xml", true); ("X-Off", "1", false)]
       else None.

Definition api : HoppCollection :=
  Collection None "api"
             [Collection None "users" [Collection None "admin" [] [2%nat]] [1%nat; 3%nat]]
             [0%nat].
Definition users : HoppCollection :=
  Collection None "users" [Collection None "admin" [] [2%nat]] [1%nat; 3%nat].
Definition admin : HoppCollection := Collection None "admin" [] [2%nat].

End SampleViews.

(** ** Concrete inputs with a workspace handle that changes

    The personal workspace handle is a [shallowRef]; whoever holds it can
    write it.  The samples start from such a handle and then have its cell
    hold an invalid state, or the data of another workspace. *)

Module SampleOwner.

(** The handle [getPersonalWorkspaceHandle] returns on [Sample.three]
    and the state it leaves. *)
Definition workspace : Handle Sample.Fields Workspace :=
  fst (getPersonalWorkspaceHandle Sample.three).

Definition start : State Sample.Fields :=
  snd (getPersonalWorkspaceHandle Sample.three).

(** [workspace.value = st], by the holder of the ref. *)
Definition written (st : HandleState Workspace) (s : State Sample.Fields)
  : State Sample.Fields :=
  mkState (restCollectionState s) (issuedHandles s) (handleRefs s)
          (<[0%nat := st]> (workspaceRefs s)) (requestObjects s).

Definition gone : HandleState Workspace := Invalid "WORKSPACE_GONE".

Definition team : HandleState Workspace :=
  Ok {| w_providerID := providerID; w_workspaceID := "team-1"; w_name := "Team" |}.

(** The handle a call has returned. *)
Definition issued {T : Type}
           (run : Completion (Either string (Handle Sample.Fields T)) * State Sample.Fields)
  : Handle Sample.Fields T :=
  match fst run with
  | Resolves (Right h) => h
  | _ => Sample.constant (Invalid "NOT_ISSUED")
  end.

(** The collection handle to "1" got on the workspace handle. *)
Definition parent : Handle Sample.Fields WorkspaceCollection :=
  issued (getCollectionHandle workspace "1" start).

Definition named : NamedCollection :=
  {| nc_name := "n"; nc_id := None; nc_folders := None; nc_requests := None |}.

End SampleOwner.

(** ** How a cell may change

    What the writes of the provider can make of the state of a cell:
    nothing, or out of a valid state the invalid one of the invalidation
    loops, or a valid one for the same owner and the same request
    object (the IDs rewritten by [moveRESTRequest]). *)

Definition evolves (st st' : HandleState WorkspaceRequest) : Prop :=
  st' = st
  \/ exists d,
      st = Ok d
      /\ (st' = Invalid "REQUEST_INVALIDATED"
          \/ exists d',
              st' = Ok d'
              /\ wr_providerID d' = wr_providerID d
              /\ wr_workspaceID d' = wr_workspaceID d
              /\ wr_request d' = wr_request d).

(** Every cell of [cells] is still there in [cells'], changed as a cell
    may change. *)
Definition cellsEvolve (cells cells' : list (HandleState WorkspaceRequest)) : Prop :=
  forall cell st,
    cells !! cell = Some st ->
    exists st', cells' !! cell = Some st' /\ evolves st st'.

(** * Properties *)

(** ** Strings and numbers *)

Lemma split_nonempty (s : string) : JS.split s <> [].
Proof.
  induction s as [|c s IH]; simpl; [discriminate|].
  destruct (Ascii.eqb c "/"); [discriminate|].
  destruct (JS.split s); discriminate.
Qed.

Lemma decimalDigit_char (d : N) :
  (d < 10)%N -> JS.decimalDigit (pretty_N_char d) = Some (Z.of_N d).
Proof.
  intros Hd.
  assert (Hc : (d = 0 \/ d = 1 \/ d = 2 \/ d = 3 \/ d = 4 \/ d = 5 \/ d = 6 \/ d = 7
                \/ d = 8 \/ d = 9)%N) by lia.
  repeat (destruct Hc as [->|Hc]; [reflexivity|]). subst d. reflexivity.
Qed.

(** Reading the digits [pretty_N_go] puts in front of [s] adds the number
    they spell to the accumulator, shifted. *)
Lemma digits_pretty_N_go (x : N) :
  (0 < x)%N ->
  exists p : Z,
    forall (s : string) (acc : option Z),
      JS.digits JS.decimalDigit 10 (pretty_N_go x s) acc
      = JS.digits JS.decimalDigit 10 s (Some (p * default 0 acc + Z.of_N x)).
Proof.
  induction x as [x IH] using (well_founded_induction N.lt_wf_0). intros Hx.
  assert (Hr : (x `mod` 10 < 10)%N) by (apply N.mod_lt; lia).
  assert (Hdm : x = (10 * (x `div` 10) + x `mod` 10)%N) by (apply N.div_mod; lia).
  destruct (N.eq_dec (x `div` 10)%N 0%N) as [Hq|Hq].
  - exists 10. intros s acc. rewrite pretty_N_go_step by exact Hx.
    rewrite Hq, pretty_N_go_0. simpl. rewrite decimalDigit_char by exact Hr.
    do 2 f_equal. lia.
  - destruct (IH (x `div` 10)%N) as [p Hp]; [apply N.div_lt; lia | lia |].
    exists (10 * p). intros s acc. rewrite pretty_N_go_step by exact Hx.
    rewrite Hp. simpl. rewrite decimalDigit_char by exact Hr.
    do 2 f_equal. lia.
Qed.

Lemma allDecimal_pretty_N_go (x : N) :
  forall s : string, JS.allDecimal s = true -> JS.allDecimal (pretty_N_go x s) = true.
Proof.
  induction x as [x IH] using (well_founded_induction N.lt_wf_0). intros s Hs.
  destruct (N.eq_dec x 0%N) as [->|Hx]; [rewrite pretty_N_go_0; exact Hs|].
  rewrite pretty_N_go_step by lia.
  apply IH; [apply N.div_lt; lia|].
  simpl. rewrite decimalDigit_char by (apply N.mod_lt; lia). exact Hs.
Qed.

(** The decimal string of a natural number is a non-empty run of digits
    that reads back as the number. *)
Lemma pretty_decimal (z : Z) :
  0 <= z ->
  JS.allDecimal (pretty z) = true
  /\ JS.digits JS.decimalDigit 10 (pretty z) None = Some z
  /\ pretty z <> "".
Proof.
  intros Hz. destruct z as [|p|p]; [repeat split; discriminate| |lia].
  change (pretty (Z.pos p)) with (pretty_N_go (N.pos p) "").
  destruct (digits_pretty_N_go (N.pos p)) as [q Hq]; [lia|].
  assert (Hd : JS.digits JS.decimalDigit 10 (pretty_N_go (N.pos p) "") None
               = Some (Z.pos p)).
  { rewrite Hq. simpl. f_equal. lia. }
  split; [apply allDecimal_pretty_N_go; reflexivity|]. split; [exact Hd|].
  intros He. rewrite He in Hd. discriminate Hd.
Qed.

Lemma Number_toString (z : Z) : 0 <= z -> JS.Number (JS.toString (JS.Num z)) = JS.Num z.
Proof.
  intros Hz. destruct (pretty_decimal z Hz) as (Ha & Hd & Hne).
  unfold JS.Number, JS.toString.
  destruct (String.eqb_spec (pretty z) ""); [contradiction|].
  rewrite Ha, Hd. reflexivity.
Qed.

Lemma split_app_slash (a t : string) :
  JS.split (a +:+ String "/" t) = JS.split a ++ JS.split t.
Proof.
  induction a as [|c a IH]; [reflexivity|].
  change (String c a +:+ String "/" t) with (String c (a +:+ String "/" t)).
  simpl. rewrite IH. destruct (Ascii.eqb c "/"); [reflexivity|].
  destruct (JS.split a) as [|seg rest] eqn:E; [|reflexivity].
  exfalso. exact (split_nonempty a E).
Qed.

Lemma decimalDigit_not_slash (c : ascii) (d : Z) :
  JS.decimalDigit c = Some d -> Ascii.eqb c "/" = false.
Proof.
  intros Hd. destruct (Ascii.eqb_spec c "/") as [->|]; [discriminate Hd | reflexivity].
Qed.

Lemma split_decimal (t : string) : JS.allDecimal t = true -> JS.split t = [t].
Proof.
  induction t as [|c t IH]; [reflexivity|]. simpl.
  destruct (JS.decimalDigit c) as [d|] eqn:Hd; [|discriminate].
  intros Ht. rewrite (decimalDigit_not_slash c d Hd), (IH Ht). reflexivity.
Qed.

Lemma join_split (a : string) : JS.join (JS.split a) = a.
Proof.
  induction a as [|c a IH]; [reflexivity|]. simpl.
  destruct (JS.split a) as [|seg rest] eqn:E; [exfalso; exact (split_nonempty a E)|].
  destruct (Ascii.eqb_spec c "/") as [->|Hc].
  - change (JS.join ("" :: seg :: rest)) with ("" +:+ "/" +:+ JS.join (seg :: rest)).
    rewrite IH. reflexivity.
  - destruct rest as [|seg' rest].
    + simpl in *. rewrite IH. reflexivity.
    + change (JS.join (String c seg :: seg' :: rest))
        with (String c (seg +:+ "/" +:+ JS.join (seg' :: rest))).
      f_equal. exact IH.
Qed.

(** The ID [`${collectionID}/${n}`] of a child at position [n] splits
    back into the path of the collection and the decimal string of [n]. *)
Lemma split_childID (collectionID : string) (z : Z) :
  0 <= z ->
  JS.split (childID collectionID (JS.Num z)) = JS.split collectionID ++ [pretty z].
Proof.
  intros Hz. unfold childID, JS.toString.
  change ("/" +:+ pretty z) with (String "/" (pretty z)).
  rewrite split_app_slash. f_equal. apply split_decimal.
  apply pretty_decimal. exact Hz.
Qed.

Lemma lastSegment_childID (collectionID : string) (z : Z) :
  0 <= z ->
  JS.lastSegment (JS.split (childID collectionID (JS.Num z))) = pretty z.
Proof.
  intros Hz. rewrite split_childID by exact Hz. unfold JS.lastSegment.
  apply last_last.
Qed.

Lemma parent_childID (collectionID : string) (z : Z) :
  0 <= z ->
  JS.join (JS.dropLast (JS.split (childID collectionID (JS.Num z)))) = collectionID.
Proof.
  intros Hz. rewrite split_childID by exact Hz. unfold JS.dropLast.
  rewrite removelast_last. apply join_split.
Qed.

Lemma pretty_N_go_head (x : N) :
  (0 < x)%N ->
  forall s : string,
  exists (d : N) (rest : string),
    (1 <= d < 10)%N /\ pretty_N_go x s = String (pretty_N_char d) rest.
Proof.
  induction x as [x IH] using (well_founded_induction N.lt_wf_0). intros Hx s.
  rewrite pretty_N_go_step by exact Hx.
  assert (Hdm : x = (10 * (x `div` 10) + x `mod` 10)%N) by (apply N.div_mod; lia).
  assert (Hr : (x `mod` 10 < 10)%N) by (apply N.mod_lt; lia).
  destruct (N.eq_dec (x `div` 10)%N 0%N) as [Hq|Hq].
  - rewrite Hq, pretty_N_go_0. exists (x `mod` 10)%N, s. split; [lia | reflexivity].
  - apply IH; [apply N.div_lt; lia | lia].
Qed.

Lemma parseInt_toString (z : Z) : 0 <= z -> JS.parseInt (JS.toString (JS.Num z)) = JS.Num z.
Proof.
  intros Hz. destruct (pretty_decimal z Hz) as (_ & Hd & _).
  unfold JS.toString. destruct z as [|p|p]; [reflexivity| |lia].
  change (pretty (Z.pos p)) with (pretty_N_go (N.pos p) "") in *.
  destruct (pretty_N_go_head (N.pos p)) with (s := "") as (d & rest & Hr & E); [lia|].
  rewrite E in *.
  assert (Hp : JS.parseInt (String (pretty_N_char d) rest)
               = match JS.digits JS.decimalDigit 10 (String (pretty_N_char d) rest) None with
                 | Some v => JS.Num v
                 | None => JS.NaN
                 end).
  { assert (Hc : (d = 1 \/ d = 2 \/ d = 3 \/ d = 4 \/ d = 5 \/ d = 6 \/ d = 7
                  \/ d = 8 \/ d = 9)%N) by lia.
    repeat (destruct Hc as [->|Hc]; [reflexivity|]). subst d. reflexivity. }
  rewrite Hp, Hd. reflexivity.
Qed.

(** The decimal string of an index is the index path of a root
    collection. *)
Lemma indexPath_toString (k : nat) : indexPath (JS.toString (JS.ofNat k)) = [JS.Num (Z.of_nat k)].
Proof.
  unfold indexPath, JS.toString, JS.ofNat.
  rewrite split_decimal by (apply pretty_decimal; lia). simpl.
  pose proof (parseInt_toString (Z.of_nat k) ltac:(lia)) as Hp.
  unfold JS.toString in Hp. rewrite Hp. reflexivity.
Qed.

Lemma pathToLastIndex_childID (collectionID : string) (z : Z) :
  0 <= z -> pathToLastIndex (childID collectionID (JS.Num z)) = JS.Num z.
Proof.
  intros Hz. unfold pathToLastIndex. rewrite lastSegment_childID by exact Hz.
  apply (parseInt_toString z Hz).
Qed.

(** The IDs [moveRESTRequest] takes to be affected are those of the
    requests below the moved one exactly when the collection held
    [2 * i + 2] requests. *)
Lemma affectedRequestIDs_right_iff (sourceCollectionID : string) (n i : Z) :
  0 <= i < n - 1 ->
  affectedRequestIDs sourceCollectionID (JS.sub (JS.sub (JS.Num n) (JS.Num 1)) (JS.Num i))
  = requestIDsBelow sourceCollectionID n i
  <-> n = 2 * i + 2.
Proof.
  intros Hi. unfold affectedRequestIDs, requestIDsBelow. simpl.
  split.
  - destruct (Z.to_nat (n - 1 - i)) as [|k] eqn:Hk; [lia|]. simpl.
    intros [= Hhead _]. unfold childID in Hhead.
    apply String.app_inj in Hhead. apply String.app_inj in Hhead.
    unfold JS.toString in Hhead. simpl in Hhead.
    apply pretty_Z_inj in Hhead. lia.
  - intros ->. apply map_ext. intros j. do 2 f_equal. unfold JS.ofNat. f_equal. lia.
Qed.

Lemma startsWith_append (p rest : string) : JS.startsWith (p +:+ rest) p = true.
Proof.
  unfold JS.startsWith. induction p as [|c p IH]; simpl.
  - destruct rest; reflexivity.
  - destruct (ascii_dec c c) as [_|Hne]; [exact IH | contradiction].
Qed.

(** ** The list store *)

Lemma index_toIndex {A : Type} (l : list A) (i : JS.number) :
  JS.index l i = match ListStore.toIndex i with
                 | Some n => l !! n
                 | None => None
                 end.
Proof. destruct i as [|z]; simpl; [reflexivity|]. destruct (z <? 0); reflexivity. Qed.

(** The collection at a path, after [alterAt] along that path, is the
    collection that was there with [f] applied. *)
Lemma navigate_alterAt (f : HoppCollection -> HoppCollection) (indexPaths : list JS.number) :
  forall (collections : list HoppCollection) (c : HoppCollection),
    ListStore.navigate collections indexPaths = Some c ->
    ListStore.navigate (ListStore.alterAt f indexPaths collections) indexPaths = Some (f c).
Proof.
  induction indexPaths as [|i rest IH]; intros collections c; [discriminate|].
  cbn [ListStore.navigate ListStore.alterAt]. rewrite !index_toIndex.
  destruct (ListStore.toIndex i) as [n|]; [|discriminate].
  destruct (collections !! n) as [c0|] eqn:Hn; [|discriminate].
  destruct rest as [|j rest].
  - intros [= ->]. rewrite list_lookup_alter_eq, Hn. reflexivity.
  - intros Hnav. rewrite list_lookup_alter_eq, Hn. cbn [fmap option_fmap option_map].
    cbn [folders ListStore.setFolders]. apply IH. exact Hnav.
Qed.

Lemma addRESTCollection_position (c : HoppCollection) (tree : list HoppCollection) :
  Store.addRESTCollection c tree !! List.length tree = Some c.
Proof. simpl. rewrite lookup_app_r by lia. rewrite Nat.sub_diag. reflexivity. Qed.

(** On the list store the index [saveRESTRequestAs] returns is the
    position at which the request then sits in its collection. *)
Lemma saveRESTRequestAs_position (id : string) (r : ReqRef)
      (tree : list HoppCollection) (c : HoppCollection) :
  ListStore.navigate tree (ListStore.path id) = Some c ->
  Store.getRequestsByPath (snd (Store.saveRESTRequestAs id r tree)) id
  !! fst (Store.saveRESTRequestAs id r tree) = Some r.
Proof.
  intros Hnav. simpl. unfold ListStore.requestsAt.
  rewrite (navigate_alterAt _ _ _ _ Hnav), Hnav. simpl.
  rewrite lookup_app_r by lia. rewrite Nat.sub_diag. reflexivity.
Qed.

(** The list store has the two facts that tie a created identity to a
    position. *)
Lemma list_store_adds_at_the_end : addsAtTheEnd.
Proof.
  intros collection tree. simpl.
  destruct (Z.ltb_spec (Z.of_nat (List.length tree)) 0); [lia|].
  rewrite Nat2Z.id, lookup_app_r by lia. rewrite Nat.sub_diag. reflexivity.
Qed.

Lemma list_store_saves_at_the_returned_index : savesAtTheReturnedIndex.
Proof.
  intros collectionID request tree collection Hnav.
  exact (saveRESTRequestAs_position collectionID request tree collection Hnav).
Qed.

(** ** The invalidation loop *)

Section InvalidationLoop.

Variable test : WorkspaceRequest -> bool.

Lemma invalidated_idempotent (st : HandleState WorkspaceRequest) :
  invalidated test (invalidated test st) = invalidated test st.
Proof.
  destruct st as [d|r]; simpl; [|reflexivity].
  destruct (test d) eqn:E; simpl; [reflexivity|]. rewrite E. reflexivity.
Qed.

Lemma invalidateIf_length (cells : list (HandleState WorkspaceRequest)) (h : IssuedHandle) :
  List.length (invalidateIf test cells h) = List.length cells.
Proof.
  destruct h as [cell|st]; simpl; [|reflexivity].
  destruct (cells !! cell) as [[d|r]|]; try reflexivity.
  destruct (test d); [apply length_insert | reflexivity].
Qed.

(** A turn of the loop on the handle of [cell] leaves the cell as one
    pass leaves it. *)
Lemma invalidateIf_own (cells : list (HandleState WorkspaceRequest)) (cell : CellRef) :
  invalidateIf test cells (IssuedRequest cell) !! cell = invalidated test <$> cells !! cell.
Proof.
  simpl. destruct (cells !! cell) as [[d|r]|] eqn:E; simpl; rewrite ?E; try reflexivity.
  destruct (test d).
  - apply list_lookup_insert_eq. eapply lookup_lt_Some; eassumption.
  - exact E.
Qed.

(** A turn of the loop leaves every other cell alone. *)
Lemma invalidateIf_other (cells : list (HandleState WorkspaceRequest))
      (h : IssuedHandle) (cell : CellRef) :
  h <> IssuedRequest cell -> invalidateIf test cells h !! cell = cells !! cell.
Proof.
  intros Hne. destruct h as [c|st]; simpl; [|reflexivity].
  destruct (cells !! c) as [[d|r]|]; try reflexivity.
  destruct (test d); [|reflexivity].
  apply list_lookup_insert_ne. congruence.
Qed.

Lemma issued_request_dec (h : IssuedHandle) (cell : CellRef) :
  {h = IssuedRequest cell} + {h <> IssuedRequest cell}.
Proof.
  destruct h as [c|st]; [|right; discriminate].
  destruct (Nat.eq_dec c cell) as [->|Hne]; [left; reflexivity|right; congruence].
Qed.

(** Whatever the loop does, a cell ends as it was or as one pass leaves it. *)
Lemma invalidate_loop_either (registry : list IssuedHandle) :
  forall (cells : list (HandleState WorkspaceRequest)) (cell : CellRef),
    fold_left (invalidateIf test) registry cells !! cell = cells !! cell
    \/ fold_left (invalidateIf test) registry cells !! cell
       = invalidated test <$> cells !! cell.
Proof.
  induction registry as [|h registry IH]; intros cells cell; simpl; [left; reflexivity|].
  destruct (issued_request_dec h cell) as [->|Hne].
  - right. destruct (IH (invalidateIf test cells (IssuedRequest cell)) cell) as [E|E];
      rewrite E, invalidateIf_own; [reflexivity|].
    destruct (cells !! cell); simpl; [|reflexivity].
    rewrite invalidated_idempotent. reflexivity.
  - destruct (IH (invalidateIf test cells h) cell) as [E|E];
      rewrite E, invalidateIf_other by assumption; [left|right]; reflexivity.
Qed.

(** The cell of a registered handle ends as one pass leaves it. *)
Lemma invalidate_loop_registered (registry : list IssuedHandle) :
  forall (cells : list (HandleState WorkspaceRequest)) (cell : CellRef),
    In (IssuedRequest cell) registry ->
    fold_left (invalidateIf test) registry cells !! cell
    = invalidated test <$> cells !! cell.
Proof.
  induction registry as [|h registry IH]; intros cells cell Hin; simpl; [destruct Hin|].
  destruct (issued_request_dec h cell) as [->|Hne].
  - destruct (invalidate_loop_either registry
                (invalidateIf test cells (IssuedRequest cell)) cell) as [E|E];
      rewrite E, invalidateIf_own; [reflexivity|].
    destruct (cells !! cell); simpl; [|reflexivity].
    rewrite invalidated_idempotent. reflexivity.
  - destruct Hin as [->|Hin]; [congruence|].
    rewrite IH by assumption. rewrite invalidateIf_other by assumption. reflexivity.
Qed.


Lemma invalidate_loop_length (registry : list IssuedHandle) :
  forall cells : list (HandleState WorkspaceRequest),
    List.length (fold_left (invalidateIf test) registry cells) = List.length cells.
Proof.
  induction registry as [|h registry IH]; intros cells; simpl; [reflexivity|].
  rewrite IH. apply invalidateIf_length.
Qed.

End InvalidationLoop.

(** ** The provider, for every store *)

Section ProviderFacts.

Context {Fields PartialFields : Type}.
Context (mergeFields : Fields -> PartialFields -> Fields).
Context `{Store.Ops}.

Local Abbreviation State := (State Fields).
Local Abbreviation Handle := (Handle Fields).

Lemma isValidRequestHandle_narrow (h : Handle WorkspaceRequest) (p w : string) (s : State) :
  isValidRequestHandle h p w s = false <-> narrowRequest h p w s = None.
Proof.
  unfold narrowRequest, isValidRequestHandle.
  destruct (h s) as [d|r]; simpl; [|split; reflexivity].
  destruct (_ && _); split; (reflexivity || discriminate).
Qed.

Lemma isValidCollectionHandle_narrow (h : Handle WorkspaceCollection) (p w : string) (s : State) :
  isValidCollectionHandle h p w s = false <-> narrowCollection h p w s = None.
Proof.
  unfold narrowCollection, isValidCollectionHandle.
  destruct (h s) as [d|r]; simpl; [|split; reflexivity].
  destruct (_ && _); split; (reflexivity || discriminate).
Qed.

Lemma isValidWorkspaceHandle_narrow (h : Handle Workspace) (p w : string) (s : State) :
  isValidWorkspaceHandle h p w s = false <-> narrowWorkspace h p w s = None.
Proof.
  unfold narrowWorkspace, isValidWorkspaceHandle.
  destruct (h s) as [d|r]; simpl; [|split; reflexivity].
  destruct (_ && _); split; (reflexivity || discriminate).
Qed.

(** The data a type guard narrows to is the data of the handle's value. *)
Lemma narrowRequest_value (h : Handle WorkspaceRequest) (p w : string) (s : State)
      (data : WorkspaceRequest) :
  narrowRequest h p w s = Some data ->
  h s = Ok data /\ wr_providerID data = p /\ wr_workspaceID data = w.
Proof.
  unfold narrowRequest, isValidRequestHandle. destruct (h s) as [d|r]; [|discriminate].
  destruct (String.eqb (wr_providerID d) p) eqn:E1; [|discriminate].
  destruct (String.eqb (wr_workspaceID d) w) eqn:E2; [|discriminate].
  simpl. intros [= ->]. apply String.eqb_eq in E1, E2. auto.
Qed.

(** *** Removing a request *)


(** *** Rejecting an invalid handle *)

(** C5.  Each of the eleven mutations starts with the owner check of the
    handle it is given, against the provider ID of the service and the
    workspace ID "personal"; when the check fails the call resolves to a
    [Left] with an error code and the state, the collection tree
    included, is the state it was called in. *)
Theorem invalid_handle_is_rejected (s : State) :
  (forall w c,
      isValidWorkspaceHandle w providerID "personal" s = false ->
      createRESTRootCollection w c s = (Resolves (Left "INVALID_WORKSPACE_HANDLE"), s))
  /\ (forall p c,
         isValidCollectionHandle p providerID "personal" s = false ->
         createRESTChildCollection p c s = (Resolves (Left "INVALID_COLLECTION_HANDLE"), s))
  /\ (forall h u,
         isValidCollectionHandle h providerID "personal" s = false ->
         updateRESTCollection h u s = (Resolves (Left "INVALID_COLLECTION_HANDLE"), s))
  /\ (forall h,
         isValidCollectionHandle h providerID "personal" s = false ->
         removeRESTCollection h s = (Resolves (Left "INVALID_COLLECTION_HANDLE"), s))
  /\ (forall p r,
         isValidCollectionHandle p providerID "personal" s = false ->
         createRESTRequest p r s = (Resolves (Left "INVALID_COLLECTION_HANDLE"), s))
  /\ (forall h u,
         isValidRequestHandle h providerID "personal" s = false ->
         updateRESTRequest mergeFields h u s = (Resolves (Left "INVALID_REQUEST_HANDLE"), s))
  /\ (forall h,
         isValidRequestHandle h providerID "personal" s = false ->
         removeRESTRequest h s = (Resolves (Left "INVALID_REQUEST_HANDLE"), s))
  /\ (forall h d,
         isValidCollectionHandle h providerID "personal" s = false ->
         moveRESTCollection h d s = (Resolves (Left "INVALID_COLLECTION_HANDLE"), s))
  /\ (forall h d,
         isValidRequestHandle h providerID "personal" s = false ->
         moveRESTRequest h d s = (Resolves (Left "INVALID_REQUEST_HANDLE"), s))
  /\ (forall h d,
         isValidCollectionHandle h providerID "personal" s = false ->
         reorderRESTCollection h d s = (Resolves (Left "INVALID_COLLECTION_HANDLE"), s))
  /\ (forall h dc dr,
         isValidRequestHandle h providerID "personal" s = false ->
         reorderRESTRequest h dc dr s = (Resolves (Left "INVALID_REQUEST_HANDLE"), s)).
Proof.
  repeat split; intros.
  - unfold createRESTRootCollection.
    match goal with Hv : _ = false |- _ => rewrite Hv end. reflexivity.
  - unfold createRESTChildCollection.
    match goal with Hv : _ = false |- _ =>
      apply isValidCollectionHandle_narrow in Hv; rewrite Hv end. reflexivity.
  - unfold updateRESTCollection.
    match goal with Hv : _ = false |- _ =>
      apply isValidCollectionHandle_narrow in Hv; rewrite Hv end. reflexivity.
  - unfold removeRESTCollection.
    match goal with Hv : _ = false |- _ =>
      apply isValidCollectionHandle_narrow in Hv; rewrite Hv end. reflexivity.
  - unfold createRESTRequest.
    match goal with Hv : _ = false |- _ =>
      apply isValidCollectionHandle_narrow in Hv; rewrite Hv end. reflexivity.
  - unfold updateRESTRequest.
    match goal with Hv : _ = false |- _ =>
      apply isValidRequestHandle_narrow in Hv; rewrite Hv end. reflexivity.
  - unfold removeRESTRequest.
    match goal with Hv : _ = false |- _ =>
      apply isValidRequestHandle_narrow in Hv; rewrite Hv end. reflexivity.
  - unfold moveRESTCollection.
    match goal with Hv : _ = false |- _ =>
      apply isValidCollectionHandle_narrow in Hv; rewrite Hv end. reflexivity.
  - unfold moveRESTRequest.
    match goal with Hv : _ = false |- _ =>
      apply isValidRequestHandle_narrow in Hv; rewrite Hv end. reflexivity.
  - unfold reorderRESTCollection.
    match goal with Hv : _ = false |- _ =>
      apply isValidCollectionHandle_narrow in Hv; rewrite Hv end. reflexivity.
  - unfold reorderRESTRequest.
    match goal with Hv : _ = false |- _ =>
      apply isValidRequestHandle_narrow in Hv; rewrite Hv end. reflexivity.
Qed.

(** *** Handles follow their owner *)

Lemma guardedBy_never_ok {T : Type} (valid : State -> bool) (reason : string)
      (h : Handle T) :
  guardedBy valid reason h ->
  forall now data, h now = Ok data -> valid now = true.
Proof.
  intros Hg now data Hok. destruct (valid now) eqn:E; [reflexivity|].
  rewrite (Hg now E) in Hok. discriminate.
Qed.

(** C3.  Every collection handle and request handle the provider issues
    (from [createRESTRootCollection], [createRESTChildCollection],
    [createRESTRequest], [importRESTCollections], [getCollectionHandle]
    and [getRequestHandle]) is read behind the owner check of the
    workspace or parent collection handle it was derived from: in every
    state in which that check fails, reading the issued handle gives
    [{ type: "invalid" }] with the reason WORKSPACE_INVALIDATED or
    COLLECTION_INVALIDATED, whatever its holder did or did not do; hence
    (by [guardedBy_never_ok]) a read that gives "ok" has a valid owner. *)
Theorem issued_handles_follow_their_owner (s s' : State) :
  (forall w c h,
      createRESTRootCollection w c s = (Resolves (Right h), s') ->
      guardedBy (isValidWorkspaceHandle w providerID "personal")
                "WORKSPACE_INVALIDATED" h)
  /\ (forall p c h,
         createRESTChildCollection p c s = (Resolves (Right h), s') ->
         guardedBy (isValidCollectionHandle p providerID "personal")
                   "COLLECTION_INVALIDATED" h)
  /\ (forall p r h,
         createRESTRequest p r s = (Resolves (Right h), s') ->
         guardedBy (isValidCollectionHandle p providerID "personal")
                   "COLLECTION_INVALIDATED" h)
  /\ (forall w cs h,
         importRESTCollections w cs s = (Resolves (Right h), s') ->
         guardedBy (isValidWorkspaceHandle w providerID "personal")
                   "WORKSPACE_INVALIDATED" h)
  /\ (forall w id h,
         getCollectionHandle w id s = (Resolves (Right h), s') ->
         guardedBy (isValidWorkspaceHandle w providerID "personal")
                   "WORKSPACE_INVALIDATED" h)
  /\ (forall w id h,
         getRequestHandle w id s = (Resolves (Right h), s') ->
         guardedBy (isValidWorkspaceHandle w providerID "personal")
                   "WORKSPACE_INVALIDATED" h).
Proof.
  repeat split.
  - intros w c h. unfold createRESTRootCollection.
    destruct (negb _); [discriminate|]. intros [= <- _] now Hv.
    apply isValidWorkspaceHandle_narrow in Hv. rewrite Hv. reflexivity.
  - intros p c h. unfold createRESTChildCollection.
    destruct (narrowCollection _ _ _ s); [|discriminate].
    intros [= <- _] now Hv. rewrite Hv. reflexivity.
  - intros p r h. unfold createRESTRequest.
    destruct (narrowCollection _ _ _ s); [|discriminate].
    destruct (Store.saveRESTRequestAs _ _ _).
    intros [= <- _] now Hv. rewrite Hv. reflexivity.
  - intros w cs h. unfold importRESTCollections.
    destruct (negb _); [discriminate|]. destruct cs; [discriminate|].
    intros [= <- _] now Hv.
    apply isValidWorkspaceHandle_narrow in Hv. rewrite Hv. reflexivity.
  - intros w id h. unfold getCollectionHandle.
    destruct (narrowWorkspace _ _ _ s); [|discriminate].
    destruct (String.eqb id ""); [discriminate|].
    destruct (Store.navigateToFolderWithIndexPath _ _); [|discriminate].
    intros [= <- _] now Hv. rewrite Hv. reflexivity.
  - intros w id h. unfold getRequestHandle.
    destruct (narrowWorkspace _ _ _ s); [|discriminate].
    destruct (String.eqb id ""); [discriminate|].
    destruct (String.eqb _ ""); [discriminate|].
    destruct (Store.navigateToFolderWithIndexPath _ _) as [c|]; [|discriminate].
    destruct (JS.index (requests c) _); [|discriminate].
    intros [= <- _] now Hv. rewrite Hv. reflexivity.
Qed.

(** *** Identities of created entities *)

(** C7.  Identities are positional indices.  On a store that finds an
    added root collection at the index the root array's length was, and a
    saved request at the index [saveRESTRequestAs] returns:
    the handle [createRESTRootCollection] returns carries, whenever it
    reads "ok", the decimal string of the length the root array had before
    the insertion as its collection ID, this ID is the index path of that
    one index, and the tree after the call holds the new collection at
    it; the cell behind the handle [createRESTRequest] returns holds the
    request, the collection ID C of the parent handle and the request ID
    C/i, where i is the insertion index the store returned, the tree
    after the call holds the request at the place these IDs address
    (when the parent collection is there), and the handle reads that cell
    while its parent is valid. *)
Theorem created_ids_are_index_paths (s s' : State) :
  addsAtTheEnd ->
  savesAtTheReturnedIndex ->
  (forall w c h,
      createRESTRootCollection w c s = (Resolves (Right h), s') ->
      forall now,
        isValidWorkspaceHandle w providerID "personal" now = true ->
        exists d,
          h now = Ok d
          /\ wc_collectionID d = JS.toString (JS.ofNat (List.length (restCollectionState s)))
          /\ indexPath (wc_collectionID d)
             = [JS.ofNat (List.length (restCollectionState s))]
          /\ Store.navigateToFolderWithIndexPath (restCollectionState s')
                                                 (indexPath (wc_collectionID d))
             = Some (makeCollection c))
  /\ (forall p r h,
         createRESTRequest p r s = (Resolves (Right h), s') ->
         exists parent d,
           p s = Ok parent
           /\ readCell (List.length (handleRefs s)) s' = Ok d
           /\ wr_collectionID d = wc_collectionID parent
           /\ wr_requestID d =
              wc_collectionID parent +:+ "/"
              +:+ JS.toString (JS.ofNat (fst (Store.saveRESTRequestAs
                                                (wc_collectionID parent) r
                                                (restCollectionState s))))
           /\ wr_request d = r
           /\ (forall collection,
                  Store.navigateToFolderWithIndexPath
                    (restCollectionState s) (indexPath (wc_collectionID parent))
                  = Some collection ->
                  addressed (restCollectionState s') d = Some r)
           /\ (isValidCollectionHandle p providerID "personal" s' = true -> h s' = Ok d)).
Proof.
  intros Hadd Hsave. split.
  - intros w c h. unfold createRESTRootCollection.
    destruct (negb _); [discriminate|]. intros [= <- <-] now Hv.
    unfold narrowWorkspace. rewrite Hv.
    unfold isValidWorkspaceHandle in Hv. destruct (w now) as [data|]; [|discriminate].
    eexists. split; [reflexivity|]. cbn [wc_collectionID valueData].
    change (JS.length (restCollectionState s))
      with (JS.ofNat (List.length (restCollectionState s))).
    split; [reflexivity|].
    assert (Hpath : indexPath (pretty (Z.of_nat (List.length (restCollectionState s))))
                    = [JS.ofNat (List.length (restCollectionState s))])
      by apply indexPath_toString.
    rewrite Hpath. split; [reflexivity|]. apply Hadd.
  - intros p r h. unfold createRESTRequest.
    destruct (narrowCollection p providerID "personal" s) as [parent|] eqn:Hn;
      [|discriminate].
    pose proof (Hsave (wc_collectionID parent) r (restCollectionState s)) as Hpos.
    destruct (Store.saveRESTRequestAs _ _ _) as [i tree] eqn:Hs.
    intros [= <- <-].
    assert (Hp : p s = Ok parent).
    { unfold narrowCollection in Hn.
      destruct (isValidCollectionHandle _ _ _ _); [|discriminate].
      destruct (p s) as [d|]; [|discriminate]. simpl in Hn. congruence. }
    exists parent. eexists. split; [exact Hp|].
    rewrite Hs. unfold readCell. simpl.
    rewrite lookup_app_r by lia. rewrite Nat.sub_diag. simpl.
    split; [reflexivity|]. split; [reflexivity|]. split; [reflexivity|].
    split; [reflexivity|]. split.
    + intros collection Hnav. unfold addressed. cbn [wr_collectionID wr_requestID].
      change (wc_collectionID parent +:+ "/" +:+ pretty (Z.of_nat i))
        with (childID (wc_collectionID parent) (JS.Num (Z.of_nat i))).
      rewrite pathToLastIndex_childID by lia. simpl.
      destruct (Z.ltb_spec (Z.of_nat i) 0); [lia|]. rewrite Nat2Z.id.
      exact (Hpos collection Hnav).
    + intros Hv. rewrite Hv. reflexivity.
Qed.
(** *** The personal workspace handle *)

(** No call takes a workspace cell away or writes to one: the cells of a
    state are still there, with what they held, after the call. *)
Lemma after_keeps_workspaceRefs (c : Call Fields PartialFields) (s : State) :
  exists more, workspaceRefs (after mergeFields c s) = workspaceRefs s ++ more.
Proof.
  destruct c; simpl;
    unfold createRESTRootCollection, createRESTChildCollection, updateRESTCollection,
      removeRESTCollection, createRESTRequest, removeRESTRequest, updateRESTRequest,
      importRESTCollections, reorderRESTCollection, moveRESTCollection,
      reorderRESTRequest, moveRESTRequest, getCollectionHandle, getRequestHandle,
      getWorkspaceHandle, getPersonalWorkspaceHandle;
    repeat match goal with
           | |- context [match ?x with _ => _ end] => destruct x
           end;
    simpl; try (exists []; rewrite app_nil_r; reflexivity);
    eexists; reflexivity.
Qed.

Lemma afterAll_keeps_workspaceRefs (cs : list (Call Fields PartialFields)) :
  forall s : State,
  exists more, workspaceRefs (afterAll mergeFields cs s) = workspaceRefs s ++ more.
Proof.
  induction cs as [|c cs IH]; intros s.
  - exists []. rewrite app_nil_r. reflexivity.
  - destruct (IH (after mergeFields c s)) as [more2 E2].
    destruct (after_keeps_workspaceRefs c s) as [more1 E1].
    exists (more1 ++ more2).
    change (afterAll mergeFields (c :: cs) s)
      with (afterAll mergeFields cs (after mergeFields c s)).
    rewrite E2, E1, app_assoc. reflexivity.
Qed.

(** C8.  [getWorkspaceHandle] answers [Left("INVALID_WORKSPACE_ID")] to
    every workspace ID other than "personal" and changes nothing; for
    "personal" it returns a handle that reads
    [{ type: "ok", data: { providerID: "PERSONAL_WORKSPACE_PROVIDER",
    workspaceID: "personal", name: "Personal Workspace" } }] right away
    and after any calls of the provider, whatever their arguments: the
    provider never invalidates it. *)
Theorem getWorkspaceHandle_personal_only (workspaceID : string) (s : State) :
  (workspaceID <> "personal" ->
   getWorkspaceHandle workspaceID s = (Resolves (Left "INVALID_WORKSPACE_ID"), s))
  /\ (workspaceID = "personal" ->
      exists h s',
        getWorkspaceHandle workspaceID s = (Resolves (Right h), s')
        /\ forall calls : list (Call Fields PartialFields),
            h (afterAll mergeFields calls s')
            = Ok {| w_providerID := "PERSONAL_WORKSPACE_PROVIDER";
                    w_workspaceID := "personal";
                    w_name := "Personal Workspace" |}).
Proof.
  split.
  - intros Hne. unfold getWorkspaceHandle.
    destruct (String.eqb workspaceID "personal") eqn:E; [|reflexivity].
    apply String.eqb_eq in E. contradiction.
  - intros ->. unfold getWorkspaceHandle, getPersonalWorkspaceHandle. simpl.
    eexists. eexists. split; [reflexivity|].
    intros calls.
    match goal with
    | |- context [afterAll mergeFields calls ?st] =>
        destruct (afterAll_keeps_workspaceRefs calls st) as [more E]
    end.
    rewrite E. simpl.
    rewrite <- app_assoc. rewrite lookup_app_r by lia. rewrite Nat.sub_diag.
    reflexivity.
Qed.

(** *** Registering a request handle *)

Lemma sameKey_keyOf (p w c r : string) (d : WorkspaceRequest) :
  sameKey p w c r d = true <-> keyOf d = (p, w, c, r).
Proof.
  unfold sameKey, keyOf. rewrite !andb_true_iff, !String.eqb_eq.
  split; [intros [[[-> ->] ->] ->]; reflexivity | intros [= -> -> -> ->]; auto].
Qed.

Lemma issuedWithKey_data (cells : list (HandleState WorkspaceRequest))
      (p w c r : string) (h : IssuedHandle) :
  issuedWithKey cells p w c r h
  = match issuedRequestData cells h with
    | Some d => sameKey p w c r d
    | None => false
    end.
Proof.
  destruct h as [cell|st]; simpl; [|reflexivity].
  destruct (cells !! cell) as [[d|reason]|]; reflexivity.
Qed.

(** Allocating a new cell does not change what a registered handle reads. *)
Lemma issuedRequestData_app (cells more : list (HandleState WorkspaceRequest))
      (registry : list IssuedHandle) (h : IssuedHandle) :
  allocatedIn cells registry -> In h registry ->
  issuedRequestData (cells ++ more) h = issuedRequestData cells h.
Proof.
  intros Ha Hin. destruct h as [cell|st]; simpl; [|reflexivity].
  rewrite lookup_app_l by (apply Ha; exact Hin). reflexivity.
Qed.

Lemma lookup_In {A : Type} (l : list A) (i : nat) (x : A) : l !! i = Some x -> In x l.
Proof.
  intros Hl. apply list_elem_of_In. eapply list_elem_of_lookup_2. exact Hl.
Qed.

(** The tail both [createRESTRequest] and [getRequestHandle] end with:
    allocate the cell, scan the registry for the key, push the writable
    handle when the scan finds nothing. *)
Lemma register_unique (cells : list (HandleState WorkspaceRequest))
      (registry : list IssuedHandle) (new : WorkspaceRequest) :
  allocatedIn cells registry ->
  uniqueKeysIn cells registry ->
  let cells' := cells ++ [Ok new] in
  let registry' :=
    if negb (existsb (issuedWithKey cells' (wr_providerID new) (wr_workspaceID new)
                                    (wr_collectionID new) (wr_requestID new))
                     registry)
    then registry ++ [IssuedRequest (List.length cells)]
    else registry in
  allocatedIn cells' registry'
  /\ uniqueKeysIn cells' registry'
  /\ (registry' = registry
      \/ (registry' = registry ++ [IssuedRequest (List.length cells)]
          /\ forall h d, In h registry -> issuedRequestData cells h = Some d ->
                         keyOf d <> keyOf new)).
Proof.
  intros Ha Hu cells' registry'.
  assert (Hold : forall i j hi hj di dj,
             registry !! i = Some hi -> registry !! j = Some hj ->
             issuedRequestData cells' hi = Some di ->
             issuedRequestData cells' hj = Some dj ->
             keyOf di = keyOf dj -> i = j).
  { intros i j hi hj di dj Hi Hj Hdi Hdj Hk.
    unfold cells' in Hdi, Hdj.
    rewrite (issuedRequestData_app _ _ registry) in Hdi
      by (assumption || eapply lookup_In; eassumption).
    rewrite (issuedRequestData_app _ _ registry) in Hdj
      by (assumption || eapply lookup_In; eassumption).
    eapply Hu; eassumption. }
  subst registry'.
  destruct (existsb _ registry) eqn:Hex; cbn [negb].
  - split; [|split; [exact Hold | left; reflexivity]].
    intros cell Hin. unfold cells'. rewrite length_app. specialize (Ha cell Hin). lia.
  - assert (Hfresh : forall h d, In h registry -> issuedRequestData cells h = Some d ->
                                 keyOf d <> keyOf new).
    { intros h d Hin Hd Hk.
      assert (Hx : existsb (issuedWithKey cells' (wr_providerID new) (wr_workspaceID new)
                                          (wr_collectionID new) (wr_requestID new))
                           registry = true).
      { apply existsb_exists. exists h. split; [exact Hin|].
        rewrite issuedWithKey_data. unfold cells'.
        rewrite (issuedRequestData_app _ _ registry) by assumption.
        rewrite Hd. apply sameKey_keyOf. exact Hk. }
      congruence. }
    assert (Hnew : issuedRequestData cells' (IssuedRequest (List.length cells)) = Some new).
    { simpl. unfold cells'. rewrite lookup_app_r by lia. rewrite Nat.sub_diag. reflexivity. }
    assert (Hlast : forall i h, (registry ++ [IssuedRequest (List.length cells)]) !! i = Some h ->
                    registry !! i = Some h
                    \/ (i = List.length registry /\ h = IssuedRequest (List.length cells))).
    { intros i h Hl. apply lookup_app_Some in Hl as [Hl|[Hge Hl]]; [left; exact Hl|].
      right. destruct (i - List.length registry)%nat eqn:E; simpl in Hl; [|discriminate].
      split; [lia | congruence]. }
    split; [|split; [|right; split; [reflexivity | exact Hfresh]]].
    + intros cell Hin. unfold cells'. rewrite length_app. simpl.
      apply in_app_or in Hin as [Hin|[[= <-]|[]]]; [specialize (Ha cell Hin)|]; lia.
    + intros i j hi hj di dj Hi Hj Hdi Hdj Hk.
      apply Hlast in Hi as [Hi|[-> ->]]; apply Hlast in Hj as [Hj|[-> ->]].
      * eapply Hold; eassumption.
      * exfalso. rewrite Hnew in Hdj. injection Hdj as <-.
        unfold cells' in Hdi.
        rewrite (issuedRequestData_app _ _ registry) in Hdi
          by (assumption || eapply lookup_In; eassumption).
        eapply Hfresh; [eapply lookup_In; exact Hi | exact Hdi | exact Hk].
      * exfalso. rewrite Hnew in Hdi. injection Hdi as <-.
        unfold cells' in Hdj.
        rewrite (issuedRequestData_app _ _ registry) in Hdj
          by (assumption || eapply lookup_In; eassumption).
        eapply Hfresh; [eapply lookup_In; exact Hj | exact Hdj | symmetry; exact Hk].
      * reflexivity.
Qed.

Lemma unchanged_registration (s : State) :
  registryAllocated s -> uniqueKeys s ->
  registryAllocated s /\ uniqueKeys s /\ appendedOnlyIfFresh s s.
Proof. intros Ha Hu. split; [exact Ha|]. split; [exact Hu|]. left. reflexivity. Qed.

(** C9.  Under the two invariants of the registry (every registered cell
    is allocated; no two registered valid request handles have the same
    key (providerID, workspaceID, collectionID, requestID)),
    [createRESTRequest] and [getRequestHandle] lead to a state in which
    both hold again, and they leave the registry as it is or append the
    one new writable handle, which they do only when no valid request
    handle of the registry has the key of the new handle. *)
Theorem registration_keeps_keys_unique (s : State) :
  registryAllocated s ->
  uniqueKeys s ->
  (forall p r,
      let s' := snd (createRESTRequest p r s) in
      registryAllocated s' /\ uniqueKeys s' /\ appendedOnlyIfFresh s s')
  /\ (forall w id,
         let s' := snd (getRequestHandle w id s) in
         registryAllocated s' /\ uniqueKeys s' /\ appendedOnlyIfFresh s s').
Proof.
  intros Ha Hu. split.
  - intros p r. unfold createRESTRequest.
    destruct (narrowCollection p providerID "personal" s) as [parent|];
      [|apply unchanged_registration; assumption].
    destruct (Store.saveRESTRequestAs _ _ _) as [i tree]. cbv zeta.
    match goal with
    | |- context [handleRefs s ++ [Ok ?new]] =>
        destruct (register_unique (handleRefs s) (issuedHandles s) new Ha Hu)
          as (Ha' & Hu' & Hr)
    end.
    split; [exact Ha'|]. split; [exact Hu'|].
    destruct Hr as [Hr|[Hr Hfresh]]; [left; exact Hr|].
    right. eexists. split; [reflexivity|]. split; [exact Hr | exact Hfresh].
  - intros w id. unfold getRequestHandle.
    destruct (narrowWorkspace w providerID "personal" s) as [data|];
      [|apply unchanged_registration; assumption].
    destruct (String.eqb id ""); [apply unchanged_registration; assumption|].
    destruct (String.eqb _ ""); [apply unchanged_registration; assumption|].
    destruct (Store.navigateToFolderWithIndexPath _ _) as [c|];
      [|apply unchanged_registration; assumption].
    destruct (JS.index (requests c) _) as [request|];
      [|apply unchanged_registration; assumption].
    cbv zeta.
    match goal with
    | |- context [handleRefs s ++ [Ok ?new]] =>
        destruct (register_unique (handleRefs s) (issuedHandles s) new Ha Hu)
          as (Ha' & Hu' & Hr)
    end.
    split; [exact Ha'|]. split; [exact Hu'|].
    destruct Hr as [Hr|[Hr Hfresh]]; [left; exact Hr|].
    right. eexists. split; [reflexivity|]. split; [exact Hr | exact Hfresh].
Qed.

(** *** Updating a request *)


Lemma setName_idempotent (n : string) (o : HoppRESTRequest Fields) :
  setName n (setName n o) = setName n o.
Proof. reflexivity. Qed.


Section RenameLoop.

Variable cells : list (HandleState WorkspaceRequest).
Variable requestID : string.
Variable newRequest : ReqRef.
Variable n : string.






End RenameLoop.


(** *** Moving a request: the decrement *)

Lemma findIndex_Some {A : Type} (p : A -> bool) (l : list A) (i : nat) :
  JS.findIndex p l = Some i -> exists x, l !! i = Some x /\ p x = true.
Proof.
  revert i. induction l as [|x l IH]; intros i; simpl; [discriminate|].
  destruct (p x) eqn:Hp.
  - intros [= <-]. exists x. split; [reflexivity | exact Hp].
  - destruct (JS.findIndex p l) as [k|]; [|discriminate].
    intros [= <-]. destruct (IH k eq_refl) as (y & Hy & Hpy). exists y. auto.
Qed.

(** A turn of the decrement loop on the ID S/v: either no valid issued
    handle has that ID and nothing is written, or the first one that has
    it gets the ID S/(v-1) and keeps the rest of its data. *)
Lemma decrementAffected_spec (sourceCollectionID : string)
      (registry : list IssuedHandle) (cells : list (HandleState WorkspaceRequest))
      (v : Z) :
  0 <= v ->
  let requestID := childID sourceCollectionID (JS.Num v) in
  (JS.findIndex (issuedWithRequestID cells requestID) registry = None
   /\ decrementAffected sourceCollectionID registry cells requestID = cells)
  \/ exists idx cell data,
      JS.findIndex (issuedWithRequestID cells requestID) registry = Some idx
      /\ registry !! idx = Some (IssuedRequest cell)
      /\ cells !! cell = Some (Ok data)
      /\ wr_requestID data = requestID
      /\ decrementAffected sourceCollectionID registry cells requestID
         = <[cell := Ok {| wr_providerID := wr_providerID data;
                           wr_workspaceID := wr_workspaceID data;
                           wr_collectionID := wr_collectionID data;
                           wr_requestID := childID sourceCollectionID (JS.Num (v - 1));
                           wr_request := wr_request data |}]> cells.
Proof.
  intros Hv requestID. unfold decrementAffected.
  destruct (JS.findIndex (issuedWithRequestID cells requestID) registry) as [idx|] eqn:Hf;
    [|left; split; reflexivity].
  right. destruct (findIndex_Some _ _ _ Hf) as (h & Hh & Hp).
  destruct h as [cell|st]; [|discriminate Hp]. simpl in Hp.
  destruct (cells !! cell) as [[data|reason]|] eqn:Hc; try discriminate Hp.
  apply String.eqb_eq in Hp.
  exists idx, cell, data. rewrite Hh, Hc.
  split; [reflexivity|]. split; [reflexivity|]. split; [reflexivity|].
  split; [exact Hp|].
  rewrite Hp. unfold requestID. rewrite lastSegment_childID by exact Hv.
  pose proof (Number_toString v Hv) as Hn. unfold JS.toString in Hn.
  rewrite Hn. reflexivity.
Qed.

(** *** The registry refers to allocated cells, in every state reached *)

Lemma allocatedIn_length (cells cells' : list (HandleState WorkspaceRequest))
      (registry : list IssuedHandle) :
  List.length cells' = List.length cells ->
  allocatedIn cells registry -> allocatedIn cells' registry.
Proof. intros Hl Ha cell Hin. rewrite Hl. apply Ha. exact Hin. Qed.

Lemma allocatedIn_register (cells : list (HandleState WorkspaceRequest))
      (registry : list IssuedHandle) (st : HandleState WorkspaceRequest) (b : bool) :
  allocatedIn cells registry ->
  allocatedIn (cells ++ [st])
              (if b then registry ++ [IssuedRequest (List.length cells)] else registry).
Proof.
  intros Ha cell Hin. rewrite length_app. simpl.
  destruct b.
  - apply in_app_or in Hin as [Hin|[[= <-]|[]]]; [specialize (Ha cell Hin)|]; lia.
  - specialize (Ha cell Hin). lia.
Qed.

Lemma decrementAffected_length (source : string) (registry : list IssuedHandle)
      (cells : list (HandleState WorkspaceRequest)) (requestID : string) :
  List.length (decrementAffected source registry cells requestID) = List.length cells.
Proof.
  unfold decrementAffected.
  repeat match goal with
         | |- context [match ?x with _ => _ end] => destruct x
         end; rewrite ?length_insert; reflexivity.
Qed.

Lemma decrement_loop_length (source : string) (registry : list IssuedHandle)
      (ids : list string) :
  forall cells : list (HandleState WorkspaceRequest),
    List.length (fold_left (decrementAffected source registry) ids cells)
    = List.length cells.
Proof.
  induction ids as [|id ids IH]; intros cells; simpl; [reflexivity|].
  rewrite IH. apply decrementAffected_length.
Qed.

Lemma after_keeps_allocated (c : Call Fields PartialFields) (s : State) :
  registryAllocated s -> registryAllocated (after mergeFields c s).
Proof.
  unfold registryAllocated. intros Ha.
  destruct c; simpl;
    unfold createRESTRootCollection, createRESTChildCollection, updateRESTCollection,
      removeRESTCollection, createRESTRequest, removeRESTRequest, updateRESTRequest,
      importRESTCollections, reorderRESTCollection, moveRESTCollection,
      reorderRESTRequest, moveRESTRequest, getCollectionHandle, getRequestHandle,
      getWorkspaceHandle, getPersonalWorkspaceHandle;
    repeat match goal with
           | |- context [match ?x with _ => _ end] =>
               lazymatch x with
               | negb (existsb _ _) => fail
               | _ => destruct x
               end
           end;
    cbn [snd issuedHandles handleRefs withTree withHandleRefs];
    try exact Ha;
    try (apply allocatedIn_register; exact Ha);
    try (eapply allocatedIn_length; [|exact Ha]; apply invalidate_loop_length).
  eapply allocatedIn_length; [|exact Ha].
  rewrite decrement_loop_length. apply length_insert.
Qed.

(** The registry never refers to a cell that is not allocated: when
    every request entry of the registry has its cell, the same holds
    after any calls of the provider. *)
Lemma afterAll_keeps_allocated (cs : list (Call Fields PartialFields)) :
  forall s : State, registryAllocated s -> registryAllocated (afterAll mergeFields cs s).
Proof.
  induction cs as [|c cs IH]; intros s Ha; [exact Ha|].
  change (afterAll mergeFields (c :: cs) s)
    with (afterAll mergeFields cs (after mergeFields c s)).
  apply IH. apply after_keeps_allocated. exact Ha.
Qed.

(** *** Removing a collection, reordering *)

(** What [removeRESTCollection] does to the registered cells: a valid
    request handle is invalidated exactly when its request ID, as a
    string, starts with the collection ID; nothing else is written. *)
Lemma removeRESTCollection_loop_spec
      (collectionHandle : Handle WorkspaceCollection) (s s' : State) :
  removeRESTCollection collectionHandle s = (Resolves (Right tt), s') ->
  exists data,
    narrowCollection collectionHandle providerID "personal" s = Some data
    /\ issuedHandles s' = issuedHandles s
    /\ forall cell,
        In (IssuedRequest cell) (issuedHandles s) ->
        handleRefs s' !! cell
        = invalidated (fun d => JS.startsWith (wr_requestID d) (wc_collectionID data))
            <$> handleRefs s !! cell.
Proof.
  unfold removeRESTCollection.
  destruct (narrowCollection collectionHandle providerID "personal" s) as [data|];
    [|discriminate].
  intros [= <-]. exists data. split; [reflexivity|]. split; [reflexivity|].
  intros cell Hin. simpl. apply invalidate_loop_registered. exact Hin.
Qed.

(** X26.  A successful [removeRESTCollection] invalidates every
    registered valid request handle whose request ID, as a string, is the
    collection ID of the handle passed in followed by anything.  (The
    handles are taken by their stored IDs: one left stale by an earlier
    call is judged by the ID it still carries.) *)
Lemma removeRESTCollection_invalidates_prefixed_ids
      (collectionHandle : Handle WorkspaceCollection) (s s' : State) :
  removeRESTCollection collectionHandle s = (Resolves (Right tt), s') ->
  exists data,
    collectionHandle s = Ok data
    /\ forall cell d rest,
        In (IssuedRequest cell) (issuedHandles s) ->
        handleRefs s !! cell = Some (Ok d) ->
        wr_requestID d = wc_collectionID data +:+ rest ->
        handleRefs s' !! cell = Some (Invalid "REQUEST_INVALIDATED").
Proof.
  intros Hrun.
  destruct (removeRESTCollection_loop_spec _ _ _ Hrun) as (data & Hn & _ & Hloop).
  exists data. split.
  - unfold narrowCollection in Hn.
    destruct (isValidCollectionHandle _ _ _ _); [|discriminate].
    destruct (collectionHandle s); [simpl in Hn; congruence | discriminate].
  - intros cell d rest Hin Hc Hid. rewrite (Hloop cell Hin), Hc. simpl.
    rewrite Hid, startsWith_append. reflexivity.
Qed.

(** The two reorder methods and [moveRESTCollection] hand the change to
    the store and write no cell and no registry entry, whatever the
    store does. *)
Lemma reorder_writes_no_handle (s : State) :
  (forall h d,
      let s' := snd (reorderRESTCollection h d s) in
      issuedHandles s' = issuedHandles s /\ handleRefs s' = handleRefs s)
  /\ (forall h dc dr,
         let s' := snd (reorderRESTRequest h dc dr s) in
         issuedHandles s' = issuedHandles s /\ handleRefs s' = handleRefs s)
  /\ (forall h d,
         let s' := snd (moveRESTCollection h d s) in
         issuedHandles s' = issuedHandles s /\ handleRefs s' = handleRefs s).
Proof.
  repeat split; intros;
    unfold reorderRESTCollection, reorderRESTRequest, moveRESTCollection;
    match goal with
    | |- context [match ?x with _ => _ end] => destruct x
    end; reflexivity.
Qed.

End ProviderFacts.

(** ** The provider on the list store, on concrete inputs *)

(** The sample handles are the handles the getters return. *)
Example sample_handles_are_issued :
  getCollectionHandle Sample.personal "1" Sample.three
  = (Resolves (Right (Sample.collection "1")), Sample.three)
  /\ fst (getRequestHandle Sample.personal "0/0" Sample.three)
     = Resolves (Right (Sample.requestHandle 0))
  /\ fst (getRequestHandle Sample.personal "10/0"
                           (snd (getRequestHandle Sample.personal "2/0" Sample.eleven)))
     = Resolves (Right (Sample.requestHandle 1)).
Proof. repeat split. Qed.

(** C1, where the code departs from it.  Handles to the requests "2/0"
    and "10/0" are issued and the root collection "1" is removed.  The
    request "10/0" is not in the subtree of "1", yet its handle is
    invalidated: the test is [requestID.startsWith(collectionID)] on the
    strings, and "10/0" starts with "1".  The handle to "2/0" is left as
    it was, while the request it was issued for now sits at "1/0" and
    "2/0" addresses another request. *)
Theorem removeRESTCollection_invalidates_by_string_prefix :
  let s := Sample.issued11 in
  let s' := snd (removeRESTCollection (Sample.collection "1") s) in
  fst (removeRESTCollection (Sample.collection "1") s) = Resolves (Right tt)
  /\ issuedHandles s = [IssuedRequest 0; IssuedRequest 1]
  /\ handleRefs s !! 1%nat = Some (Ok (Sample.requestData "10" "10/0" 10))
  /\ inSubtree (indexPath "1") (indexPath "10/0") = false
  /\ handleRefs s' !! 1%nat = Some (Invalid "REQUEST_INVALIDATED")
  /\ handleRefs s !! 0%nat = Some (Ok (Sample.requestData "2" "2/0" 2))
  /\ handleRefs s' !! 0%nat = Some (Ok (Sample.requestData "2" "2/0" 2))
  /\ addressed (restCollectionState s) (Sample.requestData "2" "2/0" 2) = Some 2%nat
  /\ addressed (restCollectionState s') (Sample.requestData "2" "2/0" 2) = Some 3%nat
  /\ addressed (restCollectionState s') (Sample.requestData "1" "1/0" 2) = Some 2%nat.
Proof. vm_compute. repeat split. Qed.

(** C2, where the code departs from it.  Collection "0" holds three
    requests with issued handles "0/0", "0/1", "0/2"; "0/0" is moved to
    the empty collection "1".  The moved handle becomes "1/0" in
    collection "1".  The affected IDs are computed as
    [range + idx] with [range = 3 - 1 - 0 = 2], that is "0/2" and "0/3",
    not "0/1" and "0/2": the handle "0/1" keeps its ID although its
    request is now at "0/0", and two valid handles end with the ID
    "0/1". *)
Theorem moveRESTRequest_misses_the_request_below :
  let s := Sample.issued3 in
  let s' := snd (moveRESTRequest (Sample.requestHandle 0) "1" s) in
  fst (moveRESTRequest (Sample.requestHandle 0) "1" s) = Resolves (Right tt)
  /\ affectedRequestIDs "0" (JS.Num 2) = ["0/2"; "0/3"]
  /\ handleRefs s = [Ok (Sample.requestData "0" "0/0" 0);
                     Ok (Sample.requestData "0" "0/1" 1);
                     Ok (Sample.requestData "0" "0/2" 2)]
  /\ handleRefs s' = [Ok (Sample.requestData "1" "1/0" 0);
                      Ok (Sample.requestData "0" "0/1" 1);
                      Ok (Sample.requestData "0" "0/1" 2)]
  /\ Store.getRequestsByPath (restCollectionState s') "0" = [1; 2]%nat
  /\ addressed (restCollectionState s') (Sample.requestData "0" "0/1" 1) = Some 2%nat.
Proof. vm_compute. repeat split. Qed.

(** C6, where the code departs from it.  With handles issued, request
    "0/0" is dragged to the end of its collection, and (in another state)
    the root collection "0" is dragged to the end of the root.  Both calls
    succeed and write no cell: the handle still reads "0/0" with the
    request it was issued for, while the tree now holds another request
    at "0/0". *)
Theorem reorder_leaves_handles_stale :
  (let s := Sample.issued3 in
   let s' := snd (reorderRESTRequest (Sample.requestHandle 0) "0" None s) in
   fst (reorderRESTRequest (Sample.requestHandle 0) "0" None s) = Resolves (Right tt)
   /\ issuedHandles s' = issuedHandles s
   /\ handleRefs s' = handleRefs s
   /\ handleRefs s' !! 0%nat = Some (Ok (Sample.requestData "0" "0/0" 0))
   /\ addressed (restCollectionState s) (Sample.requestData "0" "0/0" 0) = Some 0%nat
   /\ addressed (restCollectionState s') (Sample.requestData "0" "0/0" 0) = Some 1%nat)
  /\ (let s := Sample.issued2 in
      let s' := snd (reorderRESTCollection (Sample.collection "0") None s) in
      fst (reorderRESTCollection (Sample.collection "0") None s) = Resolves (Right tt)
      /\ issuedHandles s' = issuedHandles s
      /\ handleRefs s' = handleRefs s
      /\ handleRefs s' !! 0%nat = Some (Ok (Sample.requestData "0" "0/0" 0))
      /\ addressed (restCollectionState s) (Sample.requestData "0" "0/0" 0) = Some 0%nat
      /\ addressed (restCollectionState s') (Sample.requestData "0" "0/0" 0) = Some 1%nat).
Proof. vm_compute. repeat split. Qed.

(** The registry holds one writable handle per key.  A second handle got
    for the same request has a cell of its own, which is never pushed:
    when the request is removed, the first handle reads invalid and the
    second still reads "ok". *)
Lemma second_handle_is_not_registered :
  let s := afterAll Sample.mergeFields [Sample.getRequest "0/0"; Sample.getRequest "0/0"]
                    Sample.three in
  let s' := snd (removeRESTRequest (Sample.requestHandle 0) s) in
  issuedHandles s = [IssuedRequest 0]
  /\ fst (removeRESTRequest (Sample.requestHandle 0) s) = Resolves (Right tt)
  /\ Sample.requestHandle 0 s' = Invalid "REQUEST_INVALIDATED"
  /\ Sample.requestHandle 1 s' = Ok (Sample.requestData "0" "0/0" 0).
Proof. vm_compute. repeat split. Qed.



(** ** The theorems at work on the samples *)


(** Every mutation called with a handle that reads invalid. *)
Lemma invalid_handle_is_rejected_witness :
  let s := Sample.issued3 in
  let w : Handle Sample.Fields Workspace := Sample.constant (Invalid "gone") in
  let c : Handle Sample.Fields WorkspaceCollection := Sample.constant (Invalid "gone") in
  let r : Handle Sample.Fields WorkspaceRequest := Sample.constant (Invalid "gone") in
  let new := {| nc_name := "n"; nc_id := None; nc_folders := None; nc_requests := None |} in
  (isValidWorkspaceHandle w providerID "personal" s = false
   /\ isValidCollectionHandle c providerID "personal" s = false
   /\ isValidRequestHandle r providerID "personal" s = false)
  /\ createRESTRootCollection w new s = (Resolves (Left "INVALID_WORKSPACE_HANDLE"), s)
  /\ createRESTChildCollection c new s = (Resolves (Left "INVALID_COLLECTION_HANDLE"), s)
  /\ updateRESTCollection c emptyPartial s = (Resolves (Left "INVALID_COLLECTION_HANDLE"), s)
  /\ removeRESTCollection c s = (Resolves (Left "INVALID_COLLECTION_HANDLE"), s)
  /\ createRESTRequest c 0%nat s = (Resolves (Left "INVALID_COLLECTION_HANDLE"), s)
  /\ updateRESTRequest Sample.mergeFields r Sample.newEndpoint s
     = (Resolves (Left "INVALID_REQUEST_HANDLE"), s)
  /\ removeRESTRequest r s = (Resolves (Left "INVALID_REQUEST_HANDLE"), s)
  /\ moveRESTCollection c None s = (Resolves (Left "INVALID_COLLECTION_HANDLE"), s)
  /\ moveRESTRequest r "1" s = (Resolves (Left "INVALID_REQUEST_HANDLE"), s)
  /\ reorderRESTCollection c None s = (Resolves (Left "INVALID_COLLECTION_HANDLE"), s)
  /\ reorderRESTRequest r "0" None s = (Resolves (Left "INVALID_REQUEST_HANDLE"), s).
Proof.
  intros s w c r new.
  assert (Hw : isValidWorkspaceHandle w providerID "personal" s = false) by reflexivity.
  assert (Hc : isValidCollectionHandle c providerID "personal" s = false) by reflexivity.
  assert (Hr : isValidRequestHandle r providerID "personal" s = false) by reflexivity.
  split; [auto|].
  destruct (invalid_handle_is_rejected Sample.mergeFields s)
    as (H1 & H2 & H3 & H4 & H5 & H6 & H7 & H8 & H9 & H10 & H11).
  split; [apply H1; exact Hw|].
  split; [apply H2; exact Hc|].
  split; [apply H3; exact Hc|].
  split; [apply H4; exact Hc|].
  split; [apply H5; exact Hc|].
  split; [apply H6; exact Hr|].
  split; [apply H7; exact Hr|].
  split; [apply H8; exact Hc|].
  split; [apply H9; exact Hr|].
  split; [apply H10; exact Hc|].
  apply H11; exact Hr.
Defined.

(** Handles issued on the workspace handle of
    [getPersonalWorkspaceHandle] and under a collection handle got on it:
    each reads "ok" right after the call, and reads invalid, with the
    reason of its guard, once the workspace ref holds an invalid state or
    the data of another workspace. *)
Lemma issued_handles_follow_their_owner_witness :
  let w := SampleOwner.workspace in
  let p := SampleOwner.parent in
  let s := SampleOwner.start in
  let got := getRequestHandle w "0/0" s in
  let created := createRESTRequest p 2%nat s in
  let added := createRESTRootCollection w SampleOwner.named s in
  (got = (Resolves (Right (SampleOwner.issued got)), snd got)
   /\ SampleOwner.issued got (snd got) = Ok (Sample.requestData "0" "0/0" 0)
   /\ isValidWorkspaceHandle w providerID "personal"
                             (SampleOwner.written SampleOwner.gone (snd got)) = false
   /\ SampleOwner.issued got (SampleOwner.written SampleOwner.gone (snd got))
      = Invalid "WORKSPACE_INVALIDATED"
   /\ isValidWorkspaceHandle w providerID "personal"
                             (SampleOwner.written SampleOwner.team (snd got)) = false
   /\ SampleOwner.issued got (SampleOwner.written SampleOwner.team (snd got))
      = Invalid "WORKSPACE_INVALIDATED")
  /\ (created = (Resolves (Right (SampleOwner.issued created)), snd created)
      /\ SampleOwner.issued created (snd created) = Ok (Sample.requestData "1" "1/0" 2)
      /\ isValidCollectionHandle p providerID "personal"
                                 (SampleOwner.written SampleOwner.gone (snd created))
         = false
      /\ SampleOwner.issued created (SampleOwner.written SampleOwner.gone (snd created))
         = Invalid "COLLECTION_INVALIDATED")
  /\ (added = (Resolves (Right (SampleOwner.issued added)), snd added)
      /\ SampleOwner.issued added (snd added)
         = Ok {| wc_providerID := providerID; wc_workspaceID := "personal";
                 wc_collectionID := "2"; wc_name := "n" |}
      /\ isValidWorkspaceHandle w providerID "personal"
                                (SampleOwner.written SampleOwner.team (snd added)) = false
      /\ SampleOwner.issued added (SampleOwner.written SampleOwner.team (snd added))
         = Invalid "WORKSPACE_INVALIDATED").
Proof.
  intros w p s got created added.
  split; [|split].
  - assert (Hrun : got = (Resolves (Right (SampleOwner.issued got)), snd got))
      by reflexivity.
    assert (Hgone : isValidWorkspaceHandle w providerID "personal"
                      (SampleOwner.written SampleOwner.gone (snd got)) = false)
      by reflexivity.
    assert (Hteam : isValidWorkspaceHandle w providerID "personal"
                      (SampleOwner.written SampleOwner.team (snd got)) = false)
      by reflexivity.
    destruct (issued_handles_follow_their_owner s (snd got))
      as (_ & _ & _ & _ & _ & Hget).
    pose proof (Hget w "0/0" _ Hrun) as Hguard.
    split; [exact Hrun|]. split; [vm_compute; reflexivity|].
    split; [exact Hgone|]. split; [exact (Hguard _ Hgone)|].
    split; [exact Hteam|]. exact (Hguard _ Hteam).
  - assert (Hrun : created = (Resolves (Right (SampleOwner.issued created)), snd created))
      by reflexivity.
    assert (Hgone : isValidCollectionHandle p providerID "personal"
                      (SampleOwner.written SampleOwner.gone (snd created)) = false)
      by reflexivity.
    destruct (issued_handles_follow_their_owner s (snd created))
      as (_ & _ & Hcreate & _).
    pose proof (Hcreate p 2%nat _ Hrun) as Hguard.
    split; [exact Hrun|]. split; [vm_compute; reflexivity|].
    split; [exact Hgone|]. exact (Hguard _ Hgone).
  - assert (Hrun : added = (Resolves (Right (SampleOwner.issued added)), snd added))
      by reflexivity.
    assert (Hteam : isValidWorkspaceHandle w providerID "personal"
                      (SampleOwner.written SampleOwner.team (snd added)) = false)
      by reflexivity.
    destruct (issued_handles_follow_their_owner s (snd added)) as (Hroot & _).
    pose proof (Hroot w SampleOwner.named _ Hrun) as Hguard.
    split; [exact Hrun|]. split; [vm_compute; reflexivity|].
    split; [exact Hteam|]. exact (Hguard _ Hteam).
Defined.

(** A root collection created in a tree of two, and a request created in
    the empty collection "1". *)
Lemma created_ids_are_index_paths_witness :
  addsAtTheEnd
  /\ savesAtTheReturnedIndex
  /\ (exists h s',
         createRESTRootCollection Sample.personal SampleOwner.named Sample.three
         = (Resolves (Right h), s')
         /\ isValidWorkspaceHandle Sample.personal providerID "personal" s' = true
         /\ exists d,
             h s' = Ok d
             /\ wc_collectionID d = "2"
             /\ Store.navigateToFolderWithIndexPath (restCollectionState s')
                                                    (indexPath (wc_collectionID d))
                = Some (makeCollection SampleOwner.named))
  /\ (exists h s',
         createRESTRequest (Sample.collection "1") 2%nat Sample.issued3
         = (Resolves (Right h), s')
         /\ exists d,
             readCell 3 s' = Ok d
             /\ wr_requestID d = "1/0"
             /\ wr_request d = 2%nat
             /\ addressed (restCollectionState s') d = Some 2%nat).
Proof.
  split; [exact list_store_adds_at_the_end|].
  split; [exact list_store_saves_at_the_returned_index|].
  split.
  - eexists. eexists. split; [reflexivity|]. split; [reflexivity|].
    destruct (created_ids_are_index_paths
                Sample.three
                (snd (createRESTRootCollection Sample.personal SampleOwner.named
                                               Sample.three))
                list_store_adds_at_the_end list_store_saves_at_the_returned_index)
      as [Hroot _].
    destruct (Hroot Sample.personal SampleOwner.named _ eq_refl
                    (snd (createRESTRootCollection Sample.personal SampleOwner.named
                                                   Sample.three))
                    eq_refl) as (d & Hd & Hid & _ & Hnav).
    exists d. split; [exact Hd|]. split; [rewrite Hid; vm_compute; reflexivity|].
    exact Hnav.
  - eexists. eexists. split; [reflexivity|].
    destruct (created_ids_are_index_paths
                Sample.issued3
                (snd (createRESTRequest (Sample.collection "1") 2%nat Sample.issued3))
                list_store_adds_at_the_end list_store_saves_at_the_returned_index)
      as [_ Hrequest].
    destruct (Hrequest (Sample.collection "1") 2%nat _ eq_refl)
      as (parent & d & Hp & Hcell & _ & Hid & Hreq & Hpos & _).
    injection Hp as <-.
    exists d. split; [exact Hcell|]. split; [rewrite Hid; vm_compute; reflexivity|].
    split; [exact Hreq|].
    apply (Hpos (Collection None "c" [] [])). vm_compute. reflexivity.
Defined.

(** The workspace ID "team", and the personal handle read after a request
    handle was got and its request removed. *)
Lemma getWorkspaceHandle_personal_only_witness :
  ("team" <> "personal"
   /\ getWorkspaceHandle "team" Sample.three
      = (Resolves (Left "INVALID_WORKSPACE_ID"), Sample.three))
  /\ exists h s',
      getWorkspaceHandle "personal" Sample.three = (Resolves (Right h), s')
      /\ h (afterAll Sample.mergeFields
                     [Sample.getRequest "0/0"; RemoveRESTRequest (Sample.requestHandle 0)]
                     s')
         = Ok {| w_providerID := "PERSONAL_WORKSPACE_PROVIDER";
                 w_workspaceID := "personal";
                 w_name := "Personal Workspace" |}.
Proof.
  assert (Hne : "team" <> "personal") by discriminate.
  split.
  - split; [exact Hne|].
    apply (proj1 (getWorkspaceHandle_personal_only Sample.mergeFields "team" Sample.three)).
    exact Hne.
  - destruct (proj2 (getWorkspaceHandle_personal_only Sample.mergeFields "personal"
                                                      Sample.three) eq_refl)
      as (h & s' & Hrun & Hstable).
    exists h, s'. split; [exact Hrun | apply Hstable].
Defined.

(** From an empty registry: getting a handle, then creating a request. *)
Lemma registration_keeps_keys_unique_witness :
  let s1 := snd (getRequestHandle Sample.personal "0/0" Sample.three) in
  let s2 := snd (createRESTRequest (Sample.collection "1") 2%nat s1) in
  (registryAllocated Sample.three /\ uniqueKeys Sample.three)
  /\ (registryAllocated s1 /\ uniqueKeys s1 /\ appendedOnlyIfFresh Sample.three s1)
  /\ (registryAllocated s2 /\ uniqueKeys s2 /\ appendedOnlyIfFresh s1 s2).
Proof.
  intros s1 s2.
  assert (Ha0 : registryAllocated Sample.three) by (intros cell []).
  assert (Hu0 : uniqueKeys Sample.three)
    by (intros i j hi hj di dj Hi; destruct i; discriminate Hi).
  split; [split; assumption|].
  destruct (registration_keeps_keys_unique Sample.three Ha0 Hu0) as [_ Hget].
  destruct (Hget Sample.personal "0/0") as (Ha1 & Hu1 & Hf1).
  split; [repeat split; assumption|].
  destruct (registration_keeps_keys_unique s1 Ha1 Hu1) as [Hcreate _].
  exact (Hcreate (Sample.collection "1") 2%nat).
Defined.


(** * Further properties of the provider *)

(** ** What no call does to the cells and the registry *)

Lemma evolves_refl (st : HandleState WorkspaceRequest) : evolves st st.
Proof. left. reflexivity. Qed.

Lemma evolves_trans (a b c : HandleState WorkspaceRequest) :
  evolves a b -> evolves b c -> evolves a c.
Proof.
  intros [->|(d & -> & Hab)] Hbc; [exact Hbc|].
  destruct Hab as [->|(d' & -> & Hp & Hw & Hr)].
  - destruct Hbc as [->|(x & Hx & _)]; [|discriminate Hx].
    right. exists d. split; [reflexivity|]. left. reflexivity.
  - destruct Hbc as [->|(x & [= <-] & Hbc)].
    + right. exists d. split; [reflexivity|]. right. exists d'. auto.
    + right. exists d. split; [reflexivity|].
      destruct Hbc as [->|(d'' & -> & Hp' & Hw' & Hr')]; [left; reflexivity|].
      right. exists d''. repeat split; congruence.
Qed.

Lemma cellsEvolve_refl (cells : list (HandleState WorkspaceRequest)) :
  cellsEvolve cells cells.
Proof. intros cell st Hc. exists st. split; [exact Hc | apply evolves_refl]. Qed.

Lemma cellsEvolve_trans (a b c : list (HandleState WorkspaceRequest)) :
  cellsEvolve a b -> cellsEvolve b c -> cellsEvolve a c.
Proof.
  intros Hab Hbc cell st Hc.
  destruct (Hab cell st Hc) as (st1 & H1 & E1).
  destruct (Hbc cell st1 H1) as (st2 & H2 & E2).
  exists st2. split; [exact H2 | eapply evolves_trans; eassumption].
Qed.

Lemma cellsEvolve_app (cells more : list (HandleState WorkspaceRequest)) :
  cellsEvolve cells (cells ++ more).
Proof.
  intros cell st Hc. exists st. split; [|apply evolves_refl].
  rewrite lookup_app_l by (eapply lookup_lt_Some; exact Hc). exact Hc.
Qed.

(** Writing a valid state for the same owner and request object over a
    valid state. *)
Lemma cellsEvolve_insert (cells : list (HandleState WorkspaceRequest)) (c : CellRef)
      (d d' : WorkspaceRequest) :
  cells !! c = Some (Ok d) ->
  wr_providerID d' = wr_providerID d ->
  wr_workspaceID d' = wr_workspaceID d ->
  wr_request d' = wr_request d ->
  cellsEvolve cells (<[c := Ok d']> cells).
Proof.
  intros Hc Hp Hw Hr cell st Hs.
  destruct (Nat.eq_dec c cell) as [->|Hne].
  - exists (Ok d'). split.
    + apply list_lookup_insert_eq. eapply lookup_lt_Some; exact Hs.
    + right. exists d. split; [congruence|]. right. exists d'. auto.
  - exists st. split; [|apply evolves_refl].
    rewrite list_lookup_insert_ne by exact Hne. exact Hs.
Qed.

Lemma cellsEvolve_invalidate (test : WorkspaceRequest -> bool)
      (registry : list IssuedHandle) (cells : list (HandleState WorkspaceRequest)) :
  cellsEvolve cells (fold_left (invalidateIf test) registry cells).
Proof.
  intros cell st Hc.
  destruct (invalidate_loop_either test registry cells cell) as [E|E]; rewrite E, Hc.
  - exists st. split; [reflexivity | apply evolves_refl].
  - exists (invalidated test st). split; [reflexivity|].
    destruct st as [d|r]; simpl; [|apply evolves_refl].
    destruct (test d); [|apply evolves_refl].
    right. exists d. split; [reflexivity|]. left. reflexivity.
Qed.

Lemma cellsEvolve_decrementAffected (source : string) (registry : list IssuedHandle)
      (cells : list (HandleState WorkspaceRequest)) (requestID : string) :
  cellsEvolve cells (decrementAffected source registry cells requestID).
Proof.
  unfold decrementAffected.
  destruct (JS.findIndex _ registry) as [idx|]; [|apply cellsEvolve_refl].
  destruct (registry !! idx) as [[c|st]|]; try apply cellsEvolve_refl.
  destruct (cells !! c) as [[d|r]|] eqn:Hc; try apply cellsEvolve_refl.
  eapply cellsEvolve_insert; [exact Hc | reflexivity..].
Qed.

Lemma cellsEvolve_decrement_loop (source : string) (registry : list IssuedHandle)
      (ids : list string) :
  forall cells : list (HandleState WorkspaceRequest),
    cellsEvolve cells (fold_left (decrementAffected source registry) ids cells).
Proof.
  induction ids as [|id ids IH]; intros cells; simpl; [apply cellsEvolve_refl|].
  eapply cellsEvolve_trans; [apply cellsEvolve_decrementAffected | apply IH].
Qed.

Section NoCall.

Context {Fields PartialFields : Type}.
Context (mergeFields : Fields -> PartialFields -> Fields).
Context `{Store.Ops}.

Local Abbreviation State := (State Fields).
Local Abbreviation Handle := (Handle Fields).

Ltac unfold_calls :=
  unfold createRESTRootCollection, createRESTChildCollection, updateRESTCollection,
    removeRESTCollection, createRESTRequest, removeRESTRequest, updateRESTRequest,
    importRESTCollections, reorderRESTCollection, moveRESTCollection,
    reorderRESTRequest, moveRESTRequest, getCollectionHandle, getRequestHandle,
    getWorkspaceHandle, getPersonalWorkspaceHandle.

Ltac split_calls :=
  repeat match goal with
         | |- context [match ?x with _ => _ end] =>
             lazymatch x with
             | negb (existsb _ _) => fail
             | _ => destruct x eqn:?
             end
         end.

Lemma after_cellsEvolve (c : Call Fields PartialFields) (s : State) :
  cellsEvolve (handleRefs s) (handleRefs (after mergeFields c s)).
Proof.
  destruct c; simpl; unfold_calls; split_calls;
    cbn [snd handleRefs withTree withHandleRefs];
    try apply cellsEvolve_refl;
    try apply cellsEvolve_app;
    try apply cellsEvolve_invalidate.
  eapply cellsEvolve_trans; [|apply cellsEvolve_decrement_loop].
  eapply cellsEvolve_insert; [eassumption | reflexivity..].
Qed.

Lemma afterAll_cellsEvolve (cs : list (Call Fields PartialFields)) :
  forall s : State, cellsEvolve (handleRefs s) (handleRefs (afterAll mergeFields cs s)).
Proof.
  induction cs as [|c cs IH]; intros s; [apply cellsEvolve_refl|].
  change (afterAll mergeFields (c :: cs) s)
    with (afterAll mergeFields cs (after mergeFields c s)).
  eapply cellsEvolve_trans; [apply after_cellsEvolve | apply IH].
Qed.

(** X1.  An invalid handle is never made valid again: a cell that holds
    [{ type: "invalid", reason }] holds the same after any calls of the
    provider, whatever their arguments. *)
Theorem invalid_handles_stay_invalid (calls : list (Call Fields PartialFields))
        (s : State) (cell : CellRef) (reason : string) :
  handleRefs s !! cell = Some (Invalid reason) ->
  handleRefs (afterAll mergeFields calls s) !! cell = Some (Invalid reason).
Proof.
  intros Hc. destruct (afterAll_cellsEvolve calls s cell _ Hc) as (st' & Hs & He).
  destruct He as [->|(d & Hd & _)]; [exact Hs | discriminate Hd].
Qed.

(** X2.  A valid handle never comes to stand for another owner or another
    request object: whatever calls are made, a cell that held valid data
    and holds valid data afterwards has the same provider ID, workspace
    ID and request reference; only its collection ID and request ID may
    have been rewritten. *)
Theorem valid_handles_keep_their_request (calls : list (Call Fields PartialFields))
        (s : State) (cell : CellRef) (d d' : WorkspaceRequest) :
  handleRefs s !! cell = Some (Ok d) ->
  handleRefs (afterAll mergeFields calls s) !! cell = Some (Ok d') ->
  wr_providerID d' = wr_providerID d
  /\ wr_workspaceID d' = wr_workspaceID d
  /\ wr_request d' = wr_request d.
Proof.
  intros Hc Hc'. destruct (afterAll_cellsEvolve calls s cell _ Hc) as (st' & Hs & He).
  rewrite Hc' in Hs. injection Hs as <-.
  destruct He as [[= ->]|(x & [= <-] & [Hx|(x' & [= <-] & Hp & Hw & Hr)])];
    [auto | discriminate Hx | auto].
Qed.

Lemma after_registry_grows (c : Call Fields PartialFields) (s : State) :
  exists more, issuedHandles (after mergeFields c s) = issuedHandles s ++ more.
Proof.
  destruct c; simpl; unfold_calls; split_calls;
    cbn [snd issuedHandles withTree withHandleRefs negb];
    try (exists []; rewrite app_nil_r; reflexivity);
    match goal with
    | |- context [if ?b then _ else _] => destruct b
    end;
    try (exists []; rewrite app_nil_r; reflexivity);
    eexists; reflexivity.
Qed.

(** X3.  The registry only grows: no call removes or replaces an entry,
    so after any calls the registry of before is a prefix of the
    registry. *)
Theorem registry_only_grows (calls : list (Call Fields PartialFields)) :
  forall s : State,
  exists more, issuedHandles (afterAll mergeFields calls s) = issuedHandles s ++ more.
Proof.
  induction calls as [|c cs IH]; intros s.
  - exists []. rewrite app_nil_r. reflexivity.
  - change (afterAll mergeFields (c :: cs) s)
      with (afterAll mergeFields cs (after mergeFields c s)).
    destruct (IH (after mergeFields c s)) as [more2 E2].
    destruct (after_registry_grows c s) as [more1 E1].
    exists (more1 ++ more2). rewrite E2, E1, app_assoc. reflexivity.
Qed.

Lemma after_requestObjects (c : Call Fields PartialFields) (s : State) :
  (forall h u, c <> UpdateRESTRequest h u) ->
  requestObjects (after mergeFields c s) = requestObjects s.
Proof.
  intros Hne. destruct c; simpl;
    try (exfalso; eapply Hne; reflexivity);
    unfold_calls; split_calls; reflexivity.
Qed.

End NoCall.

(** ** Getting, creating, removing and moving, one after the other *)

Section Composition.

Context {Fields PartialFields : Type}.
Context (mergeFields : Fields -> PartialFields -> Fields).
Context `{Store.Ops}.

Local Abbreviation State := (State Fields).
Local Abbreviation Handle := (Handle Fields).

(** X4.  Only [updateRESTRequest] writes request objects: calls among
    which there is no [updateRESTRequest] leave every request object as
    it is, and allocate none. *)
Theorem only_update_writes_request_objects (calls : list (Call Fields PartialFields)) :
  forall s : State,
    Forall (fun c => forall h u, c <> UpdateRESTRequest h u) calls ->
    requestObjects (afterAll mergeFields calls s) = requestObjects s.
Proof.
  induction calls as [|c cs IH]; intros s Hall; [reflexivity|].
  change (afterAll mergeFields (c :: cs) s)
    with (afterAll mergeFields cs (after mergeFields c s)).
  inversion Hall as [|c' cs' Hc Hcs]; subst.
  rewrite IH by exact Hcs.
  apply after_requestObjects. exact Hc.
Qed.

(** What a successful [getRequestHandle] has seen and done. *)
Lemma getRequestHandle_success (w : Handle Workspace) (id : string) (s s1 : State)
      (h : Handle WorkspaceRequest) :
  getRequestHandle w id s = (Resolves (Right h), s1) ->
  exists data c request,
    narrowWorkspace w providerID "personal" s = Some data
    /\ String.eqb id "" = false
    /\ String.eqb (JS.lastSegment (JS.split id)) "" = false
    /\ Store.navigateToFolderWithIndexPath
         (restCollectionState s) (indexPath (JS.join (JS.dropLast (JS.split id))))
       = Some c
    /\ JS.index (requests c) (JS.parseInt (JS.lastSegment (JS.split id))) = Some request
    /\ let new := {| wr_providerID := w_providerID data;
                     wr_workspaceID := w_workspaceID data;
                     wr_collectionID := JS.join (JS.dropLast (JS.split id));
                     wr_requestID := id;
                     wr_request := request |} in
       let cells := handleRefs s ++ [Ok new] in
       h = (fun now =>
              if negb (isValidWorkspaceHandle w providerID "personal" now)
              then Invalid "WORKSPACE_INVALIDATED"
              else readCell (List.length (handleRefs s)) now)
       /\ s1 = mkState (restCollectionState s)
                       (if negb (existsb (issuedWithKey cells (w_providerID data)
                                                        (w_workspaceID data)
                                                        (JS.join (JS.dropLast (JS.split id)))
                                                        id)
                                         (issuedHandles s))
                        then issuedHandles s ++ [IssuedRequest (List.length (handleRefs s))]
                        else issuedHandles s)
                       cells (workspaceRefs s) (requestObjects s).
Proof.
  unfold getRequestHandle.
  destruct (narrowWorkspace w providerID "personal" s) as [data|]; [|discriminate].
  destruct (String.eqb id "") eqn:E1; [discriminate|].
  destruct (String.eqb (JS.lastSegment (JS.split id)) "") eqn:E2; [discriminate|].
  destruct (Store.navigateToFolderWithIndexPath _ _) as [c|] eqn:E3; [|discriminate].
  destruct (JS.index (requests c) _) as [request|] eqn:E4; [|discriminate].
  intros [= <- <-]. exists data, c, request. repeat split; assumption.
Qed.

Lemma narrowWorkspace_same (w : Handle Workspace) (p i : string) (s s1 : State) :
  w s1 = w s -> narrowWorkspace w p i s1 = narrowWorkspace w p i s.
Proof. intros E. unfold narrowWorkspace, isValidWorkspaceHandle. rewrite E. reflexivity. Qed.

Lemma narrowWorkspace_ids (w : Handle Workspace) (p i : string) (s : State)
      (data : Workspace) :
  narrowWorkspace w p i s = Some data ->
  w s = Ok data /\ w_providerID data = p /\ w_workspaceID data = i.
Proof.
  unfold narrowWorkspace, isValidWorkspaceHandle. destruct (w s) as [d|r]; [|discriminate].
  destruct (String.eqb (w_providerID d) p) eqn:E1; [|discriminate].
  destruct (String.eqb (w_workspaceID d) i) eqn:E2; [|discriminate].
  simpl. intros [= ->]. apply String.eqb_eq in E1, E2. auto.
Qed.

Lemma sameKey_own (d : WorkspaceRequest) :
  sameKey (wr_providerID d) (wr_workspaceID d) (wr_collectionID d) (wr_requestID d) d
  = true.
Proof. unfold sameKey. rewrite !String.eqb_refl. reflexivity. Qed.

Lemma issuedWithKey_app (cells more : list (HandleState WorkspaceRequest))
      (p w c r : string) (h : IssuedHandle) :
  issuedWithKey cells p w c r h = true ->
  issuedWithKey (cells ++ more) p w c r h = true.
Proof.
  destruct h as [cell|st]; simpl; [|discriminate].
  destruct (cells !! cell) as [st|] eqn:Hc; [|discriminate].
  rewrite lookup_app_l by (eapply lookup_lt_Some; exact Hc). rewrite Hc. auto.
Qed.

(** X5.  Getting a handle to the same request a second time registers
    nothing: whether the first call pushed its writable handle or found
    the key already issued, the second call, made on a workspace handle
    that reads as before, succeeds too, pushes nothing and leaves the
    tree alone. *)
Theorem getRequestHandle_again_registers_nothing
        (w : Handle Workspace) (id : string) (s s1 : State) (h1 : Handle WorkspaceRequest) :
  getRequestHandle w id s = (Resolves (Right h1), s1) ->
  w s1 = w s ->
  exists h2 s2,
    getRequestHandle w id s1 = (Resolves (Right h2), s2)
    /\ issuedHandles s2 = issuedHandles s1
    /\ restCollectionState s2 = restCollectionState s1.
Proof.
  intros Hget Hw.
  destruct (getRequestHandle_success _ _ _ _ _ Hget)
    as (data & c & request & Hn & E1 & E2 & E3 & E4 & Hh & Hs1).
  cbv zeta in Hs1.
  unfold getRequestHandle.
  rewrite (narrowWorkspace_same w _ _ s s1 Hw), Hn, E1, E2.
  assert (Htree : restCollectionState s1 = restCollectionState s) by (rewrite Hs1; reflexivity).
  rewrite Htree, E3, E4.
  eexists. eexists. split; [reflexivity|]. cbn [issuedHandles restCollectionState].
  split; [|reflexivity].
  match goal with
  | |- (if negb ?b then _ else _) = _ => assert (Hex : b = true); [|rewrite Hex; reflexivity]
  end.
  apply existsb_exists. rewrite Hs1. cbn [handleRefs issuedHandles].
  match goal with
  | |- context [if negb ?b then _ else _] => destruct b eqn:Hfirst
  end; cbn [negb].
  - apply existsb_exists in Hfirst as (x & Hin & Hx).
    exists x. split; [exact Hin|]. apply issuedWithKey_app. exact Hx.
  - exists (IssuedRequest (List.length (handleRefs s))). split.
    + apply in_or_app. right. left. reflexivity.
    + simpl. rewrite lookup_app_l by (rewrite length_app; simpl; lia).
      rewrite lookup_app_r by lia. rewrite Nat.sub_diag. simpl.
      match goal with
      | |- sameKey _ _ _ _ ?d = true => exact (sameKey_own d)
      end.
Qed.

(** X6.  A handle that [getRequestHandle] has registered reads invalid
    once its request is removed through it: the removal succeeds, and
    reading the handle afterwards gives REQUEST_INVALIDATED (or
    WORKSPACE_INVALIDATED, should the workspace handle have turned
    invalid). *)
Theorem removed_request_handle_reads_invalid
        (w : Handle Workspace) (id : string) (s s1 : State) (h : Handle WorkspaceRequest) :
  getRequestHandle w id s = (Resolves (Right h), s1) ->
  issuedHandles s1 = issuedHandles s ++ [IssuedRequest (List.length (handleRefs s))] ->
  w s1 = w s ->
  exists s2,
    removeRESTRequest h s1 = (Resolves (Right tt), s2)
    /\ (h s2 = Invalid "REQUEST_INVALIDATED" \/ h s2 = Invalid "WORKSPACE_INVALIDATED").
Proof.
  intros Hget Hpushed Hw.
  destruct (getRequestHandle_success _ _ _ _ _ Hget)
    as (data & c & request & Hn & E1 & E2 & E3 & E4 & Hh & Hs1).
  cbv zeta in Hs1.
  destruct (narrowWorkspace_ids _ _ _ _ _ Hn) as (Hws & Hp & Hi).
  assert (Hcell : handleRefs s1 !! List.length (handleRefs s)
                  = Some (Ok {| wr_providerID := w_providerID data;
                                wr_workspaceID := w_workspaceID data;
                                wr_collectionID := JS.join (JS.dropLast (JS.split id));
                                wr_requestID := id;
                                wr_request := request |})).
  { rewrite Hs1. cbn [handleRefs]. rewrite lookup_app_r by lia.
    rewrite Nat.sub_diag. reflexivity. }
  assert (Hvalid : isValidWorkspaceHandle w providerID "personal" s1 = true).
  { unfold isValidWorkspaceHandle. rewrite Hw, Hws, Hp, Hi. reflexivity. }
  assert (Hread : h s1 = Ok {| wr_providerID := w_providerID data;
                               wr_workspaceID := w_workspaceID data;
                               wr_collectionID := JS.join (JS.dropLast (JS.split id));
                               wr_requestID := id;
                               wr_request := request |}).
  { rewrite Hh, Hvalid. unfold readCell. rewrite Hcell. reflexivity. }
  unfold removeRESTRequest, narrowRequest, isValidRequestHandle.
  rewrite Hread. cbn [wr_providerID wr_workspaceID valueData].
  rewrite Hp, Hi. cbn [String.eqb andb]. rewrite !String.eqb_refl. cbn [andb].
  eexists. split; [reflexivity|].
  rewrite Hh.
  destruct (negb (isValidWorkspaceHandle w providerID "personal" _)); [right; reflexivity|].
  left. unfold readCell. cbn [handleRefs withHandleRefs withTree wr_requestID].
  rewrite invalidate_loop_registered
    by (rewrite Hpushed; apply in_or_app; right; left; reflexivity).
  rewrite Hcell. simpl. rewrite String.eqb_refl. reflexivity.
Qed.

(** X7.  [moveRESTRequest] has a second way to fail: a handle that passes
    the owner check but whose request ID no valid registered handle
    carries is answered with INVALID_REQUEST_HANDLE, and neither the
    store nor any cell is touched. *)
Theorem moveRESTRequest_needs_a_registered_handle
        (h : Handle WorkspaceRequest) (destination : string) (s : State)
        (data : WorkspaceRequest) :
  narrowRequest h providerID "personal" s = Some data ->
  (forall x, In x (issuedHandles s) ->
             issuedWithRequestID (handleRefs s) (wr_requestID data) x = false) ->
  moveRESTRequest h destination s = (Resolves (Left "INVALID_REQUEST_HANDLE"), s).
Proof.
  intros Hn Hnone. unfold moveRESTRequest. rewrite Hn.
  destruct (JS.findIndex _ (issuedHandles s)) as [idx|] eqn:Hf; [|reflexivity].
  exfalso. destruct (findIndex_Some _ _ _ Hf) as (x & Hx & Hp).
  rewrite (Hnone x) in Hp by (eapply lookup_In; exact Hx). discriminate Hp.
Qed.

(** X8.  The request ID [createRESTRequest] makes parses back: the
    parsing that [getRequestHandle] and [moveRESTRequest] apply to a
    request ID gives the collection ID of the parent and the insertion
    index the store returned. *)
Theorem created_request_id_parses_back
        (p : Handle WorkspaceCollection) (r : ReqRef) (s s' : State)
        (h : Handle WorkspaceRequest) :
  createRESTRequest p r s = (Resolves (Right h), s') ->
  exists d,
    handleRefs s' !! List.length (handleRefs s) = Some (Ok d)
    /\ JS.join (JS.dropLast (JS.split (wr_requestID d))) = wr_collectionID d
    /\ pathToLastIndex (wr_requestID d)
       = JS.ofNat (fst (Store.saveRESTRequestAs (wr_collectionID d) r
                                                (restCollectionState s)))
    /\ wr_request d = r.
Proof.
  unfold createRESTRequest.
  destruct (narrowCollection p providerID "personal" s) as [parent|]; [|discriminate].
  destruct (Store.saveRESTRequestAs _ _ _) as [i tree] eqn:Hsave.
  intros [= _ <-]. eexists. cbn [handleRefs].
  split; [rewrite lookup_app_r by lia; rewrite Nat.sub_diag; reflexivity|].
  cbn [wr_requestID wr_collectionID wr_request]. rewrite Hsave.
  change (wc_collectionID parent +:+ "/" +:+ JS.toString (JS.ofNat i))
    with (childID (wc_collectionID parent) (JS.Num (Z.of_nat i))).
  split; [apply parent_childID; lia|]. split; [|reflexivity].
  change (wc_collectionID parent +:+ "/" +:+ pretty (Z.of_nat i))
    with (childID (wc_collectionID parent) (JS.Num (Z.of_nat i))).
  unfold pathToLastIndex. rewrite lastSegment_childID by lia.
  apply (parseInt_toString (Z.of_nat i)). lia.
Qed.

(** X9.  Moving the last request of its collection rewrites one cell
    only.  When the index of the moved request is the last one (the
    collection held at most [i + 1] requests), a successful
    [moveRESTRequest] writes the collection ID and request ID of the
    first valid registered handle with the moved ID, in place, and no
    other cell. *)
Theorem moveRESTRequest_of_the_last_request
        (h : Handle WorkspaceRequest) (destination : string) (s s' : State)
        (data : WorkspaceRequest) (i : Z) :
  moveRESTRequest h destination s = (Resolves (Right tt), s') ->
  h s = Ok data ->
  pathToLastIndex (wr_requestID data) = JS.Num i ->
  let source := JS.join (JS.dropLast (JS.split (wr_requestID data))) in
  Z.of_nat (List.length (Store.getRequestsByPath (restCollectionState s) source)) <= i + 1 ->
  exists idx cell moved,
    JS.findIndex (issuedWithRequestID (handleRefs s) (wr_requestID data)) (issuedHandles s)
    = Some idx
    /\ issuedHandles s !! idx = Some (IssuedRequest cell)
    /\ handleRefs s !! cell = Some (Ok moved)
    /\ issuedHandles s' = issuedHandles s
    /\ handleRefs s'
       = <[cell := Ok {| wr_providerID := wr_providerID moved;
                         wr_workspaceID := wr_workspaceID moved;
                         wr_collectionID := destination;
                         wr_requestID :=
                           childID destination
                                   (JS.sub (JS.length (Store.getRequestsByPath
                                                         (restCollectionState s')
                                                         destination))
                                           (JS.Num 1));
                         wr_request := wr_request moved |}]> (handleRefs s).
Proof.
  intros Hrun Hv Hi source Hn. unfold moveRESTRequest in Hrun.
  destruct (narrowRequest h providerID "personal" s) as [data'|] eqn:Hnarrow;
    [|discriminate].
  apply narrowRequest_value in Hnarrow as (Hv' & _).
  assert (data' = data) by congruence. subst data'.
  destruct (JS.findIndex _ (issuedHandles s)) as [idx|] eqn:Hf; [|discriminate].
  destruct (issuedHandles s !! idx) as [[cell|st]|] eqn:Hidx; try discriminate.
  destruct (handleRefs s !! cell) as [[moved|reason]|] eqn:Hcell; try discriminate.
  rewrite Hi in Hrun. fold source in Hrun.
  assert (Hempty : affectedRequestIDs
                     source
                     (JS.sub (JS.sub (JS.length (Store.getRequestsByPath
                                                   (restCollectionState s) source))
                                     (JS.Num 1))
                             (JS.Num i)) = []).
  { unfold affectedRequestIDs, JS.length, JS.sub, JS.arrayFromLength.
    replace (Z.to_nat _) with 0%nat by lia. reflexivity. }
  rewrite Hempty in Hrun. cbn [fold_left] in Hrun.
  injection Hrun as <-.
  exists idx, cell, moved.
  split; [reflexivity|]. split; [exact Hidx|]. split; [exact Hcell|].
  split; reflexivity.
Qed.

End Composition.

(** ** The views *)

Lemma indexPath_childID (collectionID : string) (k : nat) :
  indexPath (childID collectionID (JS.ofNat k))
  = indexPath collectionID ++ [JS.Num (Z.of_nat k)].
Proof.
  unfold indexPath, JS.ofNat. rewrite split_childID by lia.
  rewrite map_app. simpl.
  pose proof (parseInt_toString (Z.of_nat k) ltac:(lia)) as Hp.
  unfold JS.toString in Hp. rewrite Hp. reflexivity.
Qed.

Lemma isLastIndex_true {A : Type} (l : list A) (k : nat) :
  isLastIndex l k = true <-> S k = List.length l.
Proof.
  unfold isLastIndex, JS.ofNat, JS.length, JS.sub, JS.number_eqb.
  rewrite Z.eqb_eq. lia.
Qed.

Section ViewFacts.

Context {Fields : Type}.
Context `{Store.Ops}.

Local Abbreviation State := (State Fields).
Local Abbreviation Handle := (Handle Fields).

(** X10.  The root view lists the root collections by position: while
    the workspace handle is valid the view reads "ok" and has one item
    per root collection, in order; the item at position [k] bears the
    name of the [k]-th collection and an ID that parses back to the index
    path [[k]], has no parent, and is flagged last exactly when it is the
    last. *)
Theorem root_view_lists_positions
        (w : Handle Workspace) (h : Handle (RootRESTCollectionView Fields)) (now : State) :
  getRESTRootCollectionView w = Right h ->
  isValidWorkspaceHandle w providerID "personal" now = true ->
  exists view,
    h now = Ok view
    /\ List.length (rv_collections view now) = List.length (restCollectionState now)
    /\ forall k item,
        rv_collections view now !! k = Some item ->
        indexPath (ci_collectionID item) = [JS.Num (Z.of_nat k)]
        /\ ci_parentCollectionID item = None
        /\ (ci_isLastItem item = true <-> S k = List.length (restCollectionState now))
        /\ exists c, restCollectionState now !! k = Some c /\ ci_name item = coll_name c.
Proof.
  intros [= <-] Hv. unfold narrowWorkspace. rewrite Hv.
  unfold isValidWorkspaceHandle in Hv. destruct (w now) as [data|]; [|discriminate].
  eexists. split; [reflexivity|]. cbn [rv_collections valueData].
  unfold rootCollections. split; [apply length_imap|].
  intros k item Hk. rewrite list_lookup_imap in Hk.
  destruct (restCollectionState now !! k) as [c|] eqn:Hc; [|discriminate].
  injection Hk as <-. cbn [ci_collectionID ci_parentCollectionID ci_isLastItem ci_name].
  split; [apply indexPath_toString|]. split; [reflexivity|].
  split; [apply isLastIndex_true|]. exists c. split; reflexivity.
Qed.

(** What a valid children view shows. *)
Lemma children_view_content
      (ch : Handle WorkspaceCollection) (h : Handle (RESTCollectionChildrenView Fields))
      (now : State) (data : WorkspaceCollection) :
  getRESTCollectionChildrenView ch = Right h ->
  narrowCollection ch providerID "personal" now = Some data ->
  exists view,
    h now = Ok view
    /\ cv_collectionID view = wc_collectionID data
    /\ cv_content view now = childrenContent (wc_collectionID data) now.
Proof.
  intros [= <-] Hn. rewrite Hn. eexists. split; [reflexivity|]. split; reflexivity.
Qed.

(** X11.  The children view lists the folders of the collection, then
    its requests, by position: the item of the [k]-th folder carries an
    ID whose index path is the path of the collection followed by [k];
    the item of the [k]-th request carries the request and an ID that
    parses back to the collection ID and [k]. *)
Theorem children_view_lists_positions
        (ch : Handle WorkspaceCollection) (h : Handle (RESTCollectionChildrenView Fields))
        (now : State) (data : WorkspaceCollection) (c : HoppCollection) :
  getRESTCollectionChildrenView ch = Right h ->
  narrowCollection ch providerID "personal" now = Some data ->
  Store.navigateToFolderWithIndexPath (restCollectionState now)
                                      (indexPath (wc_collectionID data)) = Some c ->
  exists view,
    h now = Ok view
    /\ List.length (cv_content view now)
       = (List.length (folders c) + List.length (requests c))%nat
    /\ (forall k f,
           folders c !! k = Some f ->
           exists item,
             cv_content view now !! k = Some (ItemCollection item)
             /\ ci_name item = coll_name f
             /\ ci_parentCollectionID item = Some (wc_collectionID data)
             /\ indexPath (ci_collectionID item)
                = indexPath (wc_collectionID data) ++ [JS.Num (Z.of_nat k)])
    /\ (forall k r,
           requests c !! k = Some r ->
           exists item,
             cv_content view now !! (List.length (folders c) + k)%nat
             = Some (ItemRequest item)
             /\ ri_request item = r
             /\ ri_collectionID item = wc_collectionID data
             /\ JS.join (JS.dropLast (JS.split (ri_requestID item))) = wc_collectionID data
             /\ pathToLastIndex (ri_requestID item) = JS.Num (Z.of_nat k)).
Proof.
  intros Hget Hn Hnav.
  destruct (children_view_content ch h now data Hget Hn) as (view & Hview & _ & Hcontent).
  exists view. split; [exact Hview|]. rewrite Hcontent.
  unfold childrenContent. rewrite Hnav. cbv zeta.
  split; [rewrite length_app, !length_imap; reflexivity|]. split.
  - intros k f Hk. eexists.
    rewrite lookup_app_l by (rewrite length_imap; eapply lookup_lt_Some; exact Hk).
    rewrite list_lookup_imap, Hk. split; [reflexivity|].
    cbn [ci_name ci_parentCollectionID ci_collectionID].
    split; [reflexivity|]. split; [reflexivity|]. apply indexPath_childID.
  - intros k r Hk. eexists.
    rewrite lookup_app_r by (rewrite length_imap; lia).
    rewrite length_imap.
    replace (List.length (folders c) + k - List.length (folders c))%nat with k by lia.
    rewrite list_lookup_imap, Hk. split; [reflexivity|].
    cbn [ri_request ri_collectionID ri_requestID].
    split; [reflexivity|]. split; [reflexivity|].
    split; [apply parent_childID; lia|].
    unfold pathToLastIndex, JS.ofNat. rewrite lastSegment_childID by lia.
    apply (parseInt_toString (Z.of_nat k)). lia.
Qed.

(** X12.  In the children view a lone child is never flagged as the last
    item: a folder item (and likewise a request item) is flagged exactly
    when the collection has at least two folders (requests) and the item
    is the last of them.  A path that leads nowhere gives an empty
    content. *)
Theorem children_view_last_flags (collectionID : string) (now : State) :
  match Store.navigateToFolderWithIndexPath (restCollectionState now)
                                            (indexPath collectionID) with
  | None => childrenContent collectionID now = []
  | Some c =>
      (forall k item,
          childrenContent collectionID now !! k = Some (ItemCollection item) ->
          (ci_isLastItem item = true
           <-> (2 <= List.length (folders c))%nat /\ S k = List.length (folders c)))
      /\ (forall k item,
             childrenContent collectionID now !! (List.length (folders c) + k)%nat
             = Some (ItemRequest item) ->
             (ri_isLastItem item = true
              <-> (2 <= List.length (requests c))%nat /\ S k = List.length (requests c)))
  end.
Proof.
  unfold childrenContent.
  destruct (Store.navigateToFolderWithIndexPath _ _) as [c|]; [|reflexivity].
  cbv zeta. split.
  - intros k item Hk.
    destruct (decide (k < List.length (folders c))%nat) as [Hlt|Hge].
    + rewrite lookup_app_l in Hk by (rewrite length_imap; exact Hlt).
      rewrite list_lookup_imap in Hk.
      destruct (folders c !! k); [|discriminate]. injection Hk as <-.
      cbn [ci_isLastItem].
      destruct (Nat.ltb_spec 1 (List.length (folders c))).
      * rewrite isLastIndex_true. lia.
      * split; [discriminate | lia].
    + rewrite lookup_app_r in Hk by (rewrite length_imap; lia).
      rewrite list_lookup_imap in Hk.
      destruct (requests c !! _); discriminate.
  - intros k item Hk.
    rewrite lookup_app_r in Hk by (rewrite length_imap; lia).
    rewrite length_imap in Hk.
    replace (List.length (folders c) + k - List.length (folders c))%nat with k in Hk by lia.
    rewrite list_lookup_imap in Hk.
    destruct (requests c !! k); [|discriminate]. injection Hk as <-.
    cbn [ri_isLastItem].
    destruct (Nat.ltb_spec 1 (List.length (requests c))).
    + rewrite isLastIndex_true. lia.
    + split; [discriminate | lia].
Qed.

(** X13.  Every request the children view lists can be got: with a valid
    workspace handle, [getRequestHandle] on the request ID of a listed
    request item succeeds, leaves the tree alone, and allocates a cell
    that holds this request ID, the collection ID of the view and the
    listed request. *)
Theorem listed_request_can_be_got
        (w : Handle Workspace) (collectionID : string) (s : State)
        (item : RequestItem) :
  isValidWorkspaceHandle w providerID "personal" s = true ->
  In (ItemRequest item) (childrenContent collectionID s) ->
  exists h s' d,
    getRequestHandle w (ri_requestID item) s = (Resolves (Right h), s')
    /\ restCollectionState s' = restCollectionState s
    /\ handleRefs s' = handleRefs s ++ [Ok d]
    /\ wr_requestID d = ri_requestID item
    /\ wr_collectionID d = collectionID
    /\ wr_request d = ri_request item.
Proof.
  intros Hv Hin. unfold childrenContent in Hin.
  destruct (Store.navigateToFolderWithIndexPath (restCollectionState s)
                                                (indexPath collectionID))
    as [c|] eqn:Hnav; [|destruct Hin].
  cbv zeta in Hin. apply in_app_or in Hin as [Hin|Hin].
  { apply list_elem_of_In, list_elem_of_lookup in Hin as [j Hj].
    rewrite list_lookup_imap in Hj. destruct (folders c !! j); discriminate. }
  apply list_elem_of_In, list_elem_of_lookup in Hin as [j Hj].
  rewrite list_lookup_imap in Hj.
  destruct (requests c !! j) as [r|] eqn:Hr; [|discriminate].
  injection Hj as <-. cbn [ri_requestID ri_request].
  unfold getRequestHandle, narrowWorkspace. rewrite Hv.
  unfold isValidWorkspaceHandle in Hv. destruct (w s) as [data|]; [|discriminate].
  cbn [valueData].
  assert (Hz : 0 <= Z.of_nat j) by lia.
  destruct (pretty_decimal (Z.of_nat j) Hz) as (_ & _ & Hne).
  assert (Hid : String.eqb (childID collectionID (JS.ofNat j)) "" = false).
  { unfold childID. destruct collectionID; reflexivity. }
  rewrite Hid. unfold JS.ofNat.
  rewrite lastSegment_childID, parent_childID by exact Hz.
  destruct (String.eqb_spec (pretty (Z.of_nat j)) "") as [E|_]; [contradiction|].
  pose proof (parseInt_toString (Z.of_nat j) Hz) as Hp. unfold JS.toString in Hp.
  rewrite Hp, Hnav. unfold JS.index.
  destruct (Z.ltb_spec (Z.of_nat j) 0); [lia|]. rewrite Nat2Z.id, Hr.
  eexists. eexists. eexists. split; [reflexivity|]. cbn [restCollectionState handleRefs].
  repeat split.
Qed.

End ViewFacts.

(** ** Inherited auth and headers *)

Section InheritanceFacts.

Context {Fields Auth Header : Type}.
Context (authType : Auth -> string) (authNone : Auth).
Context (headerKey : Header -> string) (headerActive : Header -> bool).
Context (authOf : HoppCollection -> option Auth).
Context (headersOf : HoppCollection -> option (list Header)).
Context `{Store.Ops}.

Local Abbreviation State := (State Fields).
Local Abbreviation keyOfEntry :=
  (fun h : InheritedHeader Header => headerKey (ih_inheritedHeader h)).

(** [mergeHeader], read off the list from its head. *)
Lemma mergeHeader_cons (currentPath parentName : string) (a : InheritedHeader Header)
      (hs : list (InheritedHeader Header)) (x : Header) :
  mergeHeader headerKey currentPath parentName (a :: hs) x
  = if String.eqb (headerKey (ih_inheritedHeader a)) (headerKey x)
    then {| ih_parentID := currentPath; ih_parentName := parentName;
            ih_inheritedHeader := x |} :: hs
    else a :: mergeHeader headerKey currentPath parentName hs x.
Proof.
  unfold mergeHeader. simpl.
  destruct (String.eqb (headerKey (ih_inheritedHeader a)) (headerKey x)); [reflexivity|].
  destruct (JS.findIndex _ hs); reflexivity.
Qed.

Lemma mergeHeader_nil (currentPath parentName : string) (x : Header) :
  mergeHeader headerKey currentPath parentName [] x
  = [{| ih_parentID := currentPath; ih_parentName := parentName;
        ih_inheritedHeader := x |}].
Proof. reflexivity. Qed.

(** The keys after a merge: the same keys in the same places, with the
    new key at the end if it was not there. *)
Lemma mergeHeader_keys (currentPath parentName : string)
      (hs : list (InheritedHeader Header)) (x : Header) :
  map keyOfEntry (mergeHeader headerKey currentPath parentName hs x)
  = if existsb (String.eqb (headerKey x)) (map keyOfEntry hs)
    then map keyOfEntry hs
    else map keyOfEntry hs ++ [headerKey x].
Proof.
  induction hs as [|a hs IH]; [reflexivity|].
  rewrite mergeHeader_cons. simpl.
  rewrite (String.eqb_sym (headerKey x)).
  destruct (String.eqb_spec (headerKey (ih_inheritedHeader a)) (headerKey x)) as [E|E].
  - simpl. rewrite E. reflexivity.
  - simpl. rewrite IH. destruct (existsb _ _); reflexivity.
Qed.

Lemma mergeHeader_NoDup (currentPath parentName : string)
      (hs : list (InheritedHeader Header)) (x : Header) :
  List.NoDup (map keyOfEntry hs) ->
  List.NoDup (map keyOfEntry (mergeHeader headerKey currentPath parentName hs x)).
Proof.
  intros Hnd. rewrite mergeHeader_keys.
  destruct (existsb _ _) eqn:E; [exact Hnd|].
  assert (Hnot : ~ In (headerKey x) (map keyOfEntry hs)).
  { intros Hin.
    assert (Ht : existsb (String.eqb (headerKey x)) (map keyOfEntry hs) = true).
    { apply existsb_exists. exists (headerKey x). split; [exact Hin | apply String.eqb_refl]. }
    congruence. }
  clear E. induction (map keyOfEntry hs) as [|k ks IH]; simpl.
  - constructor; [intros [] | constructor].
  - inversion Hnd as [|k' ks' Hk Hks]; subst. constructor.
    + rewrite in_app_iff. simpl. intros [Hin|[Hin|[]]]; [exact (Hk Hin)|].
      apply Hnot. left. symmetry. exact Hin.
    + apply IH; [exact Hks|]. intros Hin. apply Hnot. right. exact Hin.
Qed.

(** What a merge makes of the header inherited for a key. *)
Lemma mergeHeader_inheritedFor (currentPath parentName key : string)
      (hs : list (InheritedHeader Header)) (x : Header) :
  inheritedFor headerKey key (mergeHeader headerKey currentPath parentName hs x)
  = if String.eqb (headerKey x) key
    then Some {| ih_parentID := currentPath; ih_parentName := parentName;
                 ih_inheritedHeader := x |}
    else inheritedFor headerKey key hs.
Proof.
  unfold inheritedFor. induction hs as [|a hs IH]; [simpl; destruct (String.eqb _ _); reflexivity|].
  rewrite mergeHeader_cons.
  destruct (String.eqb_spec (headerKey (ih_inheritedHeader a)) (headerKey x)) as [E|E]; simpl.
  - rewrite E. destruct (String.eqb (headerKey x) key); reflexivity.
  - rewrite IH.
    destruct (String.eqb_spec (headerKey (ih_inheritedHeader a)) key) as [E1|E1];
      [|reflexivity].
    destruct (String.eqb_spec (headerKey x) key); [congruence | reflexivity].
Qed.

(** The headers and the auth after one folder of the path. *)
Lemma inheritFrom_headers (prefix : list JS.number) (folder : HoppCollection)
      (auth : InheritedAuth Auth) (hs : list (InheritedHeader Header)) :
  snd (inheritFrom authType headerKey headerActive authOf headersOf prefix folder (auth, hs))
  = match headersOf folder with
    | Some l =>
        fold_left (mergeHeader headerKey (joinPath prefix) (coll_name folder))
                  (List.filter headerActive l) hs
    | None => hs
    end.
Proof. reflexivity. Qed.

Lemma inheritFrom_auth (prefix : list JS.number) (folder : HoppCollection)
      (auth : InheritedAuth Auth) (hs : list (InheritedHeader Header)) :
  fst (inheritFrom authType headerKey headerActive authOf headersOf prefix folder (auth, hs))
  = if negb (isInherit authType (authOf folder))
    then {| ia_parentID := joinPath prefix;
            ia_parentName := coll_name folder;
            ia_inheritedAuth := authOf folder |}
    else if Nat.eqb (List.length prefix) 1
         then {| ia_parentID := joinPath prefix;
                 ia_parentName := coll_name folder;
                 ia_inheritedAuth := ia_inheritedAuth auth |}
         else auth.
Proof.
  unfold inheritFrom. simpl.
  destruct (isInherit authType (authOf folder)); simpl; [|reflexivity].
  destruct (Nat.eqb _ 1); reflexivity.
Qed.

(** A property of the header list that every merge of an active header
    keeps holds of the headers of the view. *)
Lemma inherited_headers_invariant (Q : list (InheritedHeader Header) -> Prop) :
  Q [] ->
  (forall currentPath parentName hs x,
      headerActive x = true -> Q hs ->
      Q (mergeHeader headerKey currentPath parentName hs x)) ->
  forall (collectionID : string) (now : State),
    Q (snd (inheritedProperties authType authNone headerKey headerActive authOf headersOf
                                collectionID now)).
Proof.
  intros Hnil Hstep collectionID now. unfold inheritedProperties.
  destruct (String.eqb collectionID ""); [exact Hnil|].
  destruct (Nat.eqb _ 0); [exact Hnil|].
  generalize (seq 0 (List.length (indexPath collectionID))) as indices.
  generalize ({| ia_parentID := collectionID; ia_parentName := "";
                 ia_inheritedAuth := Some authNone |}) as auth.
  generalize (@nil (InheritedHeader Header)), Hnil.
  intros hs Hq auth indices. revert auth hs Hq.
  induction indices as [|i rest IH]; intros auth hs Hq; [exact Hq|].
  simpl. destruct (Store.navigateToFolderWithIndexPath _ _) as [folder|]; [|exact Hq].
  pose proof (inheritFrom_headers (take (S i) (indexPath collectionID)) folder auth hs)
    as Hsnd.
  destruct (inheritFrom _ _ _ _ _ _ _ _) as [auth' hs']. simpl in Hsnd. subst hs'.
  apply IH.
  destruct (headersOf folder) as [l|]; [|exact Hq].
  assert (Hall : Forall (fun x => headerActive x = true) (List.filter headerActive l)).
  { apply List.Forall_forall. intros x Hx. apply filter_In in Hx. tauto. }
  revert hs Hq. induction Hall as [|x xs Hx _ IHxs]; intros hs Hq; [exact Hq|].
  simpl. apply IHxs. apply Hstep; assumption.
Qed.

(** X14.  The view never inherits two headers with the same key: the
    keys of the inherited headers are pairwise distinct, for every
    collection ID and every tree. *)
Theorem inherited_header_keys_are_distinct (collectionID : string) (now : State) :
  List.NoDup
    (map keyOfEntry
         (snd (inheritedProperties authType authNone headerKey headerActive authOf
                                   headersOf collectionID now))).
Proof.
  apply (inherited_headers_invariant (fun hs => List.NoDup (map keyOfEntry hs))).
  - constructor.
  - intros currentPath parentName hs x _. apply mergeHeader_NoDup.
Qed.

Lemma mergeHeader_Forall (P : InheritedHeader Header -> Prop)
      (currentPath parentName : string) (hs : list (InheritedHeader Header)) (x : Header) :
  P {| ih_parentID := currentPath; ih_parentName := parentName; ih_inheritedHeader := x |} ->
  Forall P hs ->
  Forall P (mergeHeader headerKey currentPath parentName hs x).
Proof.
  intros Hx. induction hs as [|a hs IH]; intros Hall.
  - rewrite mergeHeader_nil. constructor; [exact Hx | constructor].
  - rewrite mergeHeader_cons. inversion Hall as [|a' hs' Ha Hhs]; subst.
    destruct (String.eqb _ _); constructor; auto.
Qed.

(** X15.  Only active headers are inherited: every header of the view
    has its [active] flag set. *)
Theorem inherited_headers_are_active (collectionID : string) (now : State) :
  Forall (fun h => headerActive (ih_inheritedHeader h) = true)
         (snd (inheritedProperties authType authNone headerKey headerActive authOf
                                   headersOf collectionID now)).
Proof.
  apply (inherited_headers_invariant
           (Forall (fun h => headerActive (ih_inheritedHeader h) = true))).
  - constructor.
  - intros currentPath parentName hs x Hx. apply mergeHeader_Forall. exact Hx.
Qed.

Local Abbreviation foundAt tree path :=
  (fun (i : nat) (folder : HoppCollection) =>
     Store.navigateToFolderWithIndexPath tree (take (S i) path) = Some folder).
Local Abbreviation along :=
  (inheritAlong authType headerKey headerActive authOf headersOf).
Local Abbreviation from :=
  (inheritFrom authType headerKey headerActive authOf headersOf).

(** The loop over indices whose folders are all found splits. *)
Lemma inheritAlong_app (tree : list HoppCollection) (path : list JS.number)
      (l1 l2 : list nat) (fs1 : list HoppCollection)
      (acc : InheritedAuth Auth * list (InheritedHeader Header)) :
  Forall2 (foundAt tree path) l1 fs1 ->
  along tree path (l1 ++ l2) acc = along tree path l2 (along tree path l1 acc).
Proof.
  intros Hall. revert acc. induction Hall as [|i f l1 fs1 Hi _ IH]; intros acc;
    [reflexivity|].
  simpl. rewrite Hi. apply IH.
Qed.

Lemma inheritAlong_cons (tree : list HoppCollection) (path : list JS.number)
      (i : nat) (rest : list nat) (folder : HoppCollection)
      (acc : InheritedAuth Auth * list (InheritedHeader Header)) :
  foundAt tree path i folder ->
  along tree path (i :: rest) acc
  = along tree path rest (from (take (S i) path) folder acc).
Proof. intros Hi. simpl. rewrite Hi. reflexivity. Qed.

(** The folders along a path that names [before ++ folder :: after]. *)
Lemma foldersAlong_split (tree : list HoppCollection) (path : list JS.number)
      (before after : list HoppCollection) (folder : HoppCollection) :
  foldersAlong tree path = Some (before ++ folder :: after) ->
  List.length path = (List.length before + S (List.length after))%nat
  /\ Forall2 (foundAt tree path) (seq 0 (List.length before)) before
  /\ foundAt tree path (List.length before) folder
  /\ Forall2 (foundAt tree path) (seq (S (List.length before)) (List.length after)) after.
Proof.
  unfold foldersAlong. intros Hall. apply mapM_Some in Hall.
  pose proof (Forall2_length _ _ _ Hall) as Hlen.
  rewrite length_seq, length_app in Hlen. simpl in Hlen.
  split; [exact Hlen|].
  rewrite Hlen, seq_app in Hall. simpl in Hall.
  apply Forall2_app_inv in Hall; [|apply length_seq].
  destruct Hall as [Hbefore Hrest]. split; [exact Hbefore|].
  inversion Hrest as [|i f l fs Hi Hafter]; subst. split; [exact Hi|].
  exact Hafter.
Qed.

(** Folders below the first level that inherit their auth leave the
    auth of the view as it is. *)
Lemma inheritAlong_auth_kept (tree : list HoppCollection) (path : list JS.number)
      (a n : nat) (fs : list HoppCollection)
      (acc : InheritedAuth Auth * list (InheritedHeader Header)) :
  (1 <= a)%nat -> (a + n <= List.length path)%nat ->
  Forall2 (foundAt tree path) (seq a n) fs ->
  Forall (fun f => isInherit authType (authOf f) = true) fs ->
  fst (along tree path (seq a n) acc) = fst acc.
Proof.
  revert a fs acc. induction n as [|n IH]; intros a fs acc Ha Hn Hfound Hinh;
    [reflexivity|].
  simpl in Hfound. inversion Hfound as [|i f l fs' Hi Hrest]; subst.
  inversion Hinh as [|f' fs'' Hf Hfs]; subst.
  simpl. rewrite Hi. destruct acc as [auth hs].
  rewrite (IH (S a) fs'); [|lia|lia|exact Hrest|exact Hfs].
  rewrite inheritFrom_auth, Hf. simpl.
  replace (List.length (take (S a) path)) with (S a)
    by (rewrite length_take; lia).
  destruct a as [|a]; [lia | reflexivity].
Qed.

(** X16.  The auth of the view is that of the nearest folder along the
    path that does not inherit: when every folder of the path is found,
    [folder] has an auth type other than inherit and every folder below it
    on the path inherits, the view names [folder], by its index path and
    its name, and gives its auth. *)
Theorem nearest_own_auth_is_inherited (collectionID : string) (now : State)
        (before after : list HoppCollection) (folder : HoppCollection) :
  collectionID <> "" ->
  foldersAlong (restCollectionState now) (indexPath collectionID)
  = Some (before ++ folder :: after) ->
  isInherit authType (authOf folder) = false ->
  Forall (fun f => isInherit authType (authOf f) = true) after ->
  fst (inheritedProperties authType authNone headerKey headerActive authOf headersOf
                           collectionID now)
  = {| ia_parentID := joinPath (take (S (List.length before)) (indexPath collectionID));
       ia_parentName := coll_name folder;
       ia_inheritedAuth := authOf folder |}.
Proof.
  intros Hid Hall Hown Hafter. unfold inheritedProperties.
  destruct (String.eqb_spec collectionID ""); [contradiction|].
  destruct (foldersAlong_split _ _ _ _ _ Hall) as (Hlen & Hbefore & Hfolder & Hrest).
  rewrite Hlen. replace (List.length before + S (List.length after))%nat
    with (S (List.length before + List.length after)) by lia.
  simpl Nat.eqb. cbv iota.
  replace (S (List.length before + List.length after))
    with (List.length before + (1 + List.length after))%nat by lia.
  rewrite seq_app, (inheritAlong_app _ _ _ _ before _ Hbefore).
  rewrite Nat.add_0_l, seq_app.
  rewrite (inheritAlong_app _ _ _ _ [folder]);
    [|constructor; [exact Hfolder | constructor]].
  rewrite (inheritAlong_auth_kept _ _ _ _ after);
    [|lia|lia|replace (List.length before + 1)%nat with (S (List.length before)) by lia;
              exact Hrest|exact Hafter].
  simpl. rewrite Hfolder.
  destruct (along _ _ (seq 0 (List.length before)) _) as [auth hs].
  rewrite inheritFrom_auth, Hown. reflexivity.
Qed.

(** X17.  When every folder along the path is found and every one of
    them inherits its auth, the view falls back to auth type none and names
    the root collection of the path as the parent. *)
Theorem inherit_all_the_way_gives_none (collectionID : string) (now : State)
        (root : HoppCollection) (below : list HoppCollection) :
  collectionID <> "" ->
  foldersAlong (restCollectionState now) (indexPath collectionID)
  = Some (root :: below) ->
  Forall (fun f => isInherit authType (authOf f) = true) (root :: below) ->
  fst (inheritedProperties authType authNone headerKey headerActive authOf headersOf
                           collectionID now)
  = {| ia_parentID := joinPath (take 1 (indexPath collectionID));
       ia_parentName := coll_name root;
       ia_inheritedAuth := Some authNone |}.
Proof.
  intros Hid Hall Hinh. unfold inheritedProperties.
  destruct (String.eqb_spec collectionID ""); [contradiction|].
  destruct (foldersAlong_split _ _ [] below root Hall) as (Hlen & _ & Hroot & Hrest).
  inversion Hinh as [|f fs Hf Hfs]; subst.
  simpl in Hlen, Hroot, Hrest.
  assert (Hone : List.length (take 1 (indexPath collectionID)) = 1%nat)
    by (rewrite length_take; lia).
  rewrite Hlen. simpl Nat.eqb. cbv iota. simpl seq.
  rewrite (inheritAlong_cons _ _ _ _ root _ Hroot).
  rewrite (inheritAlong_auth_kept _ _ 1 _ below);
    [|lia|lia|exact Hrest|exact Hfs].
  rewrite inheritFrom_auth, Hf, Hone. reflexivity.
Qed.

(** The header inherited for a key after the active headers of one
    folder are merged. *)
Lemma fold_mergeHeader_inheritedFor (currentPath parentName key : string)
      (l : list Header) (hs : list (InheritedHeader Header)) :
  inheritedFor headerKey key
               (fold_left (mergeHeader headerKey currentPath parentName) l hs)
  = match List.find (fun h => String.eqb (headerKey h) key) (rev l) with
    | Some h => Some {| ih_parentID := currentPath; ih_parentName := parentName;
                        ih_inheritedHeader := h |}
    | None => inheritedFor headerKey key hs
    end.
Proof.
  induction l as [|x l IH] using rev_ind; [reflexivity|].
  rewrite fold_left_app, rev_app_distr. simpl.
  rewrite mergeHeader_inheritedFor.
  destruct (String.eqb (headerKey x) key); [reflexivity | exact IH].
Qed.

Lemma inheritFrom_inheritedFor (key : string) (prefix : list JS.number)
      (folder : HoppCollection)
      (acc : InheritedAuth Auth * list (InheritedHeader Header)) :
  inheritedFor headerKey key (snd (from prefix folder acc))
  = match activeFor headerKey headerActive headersOf key folder with
    | Some h => Some {| ih_parentID := joinPath prefix;
                        ih_parentName := coll_name folder;
                        ih_inheritedHeader := h |}
    | None => inheritedFor headerKey key (snd acc)
    end.
Proof.
  destruct acc as [auth hs]. rewrite inheritFrom_headers. unfold activeFor, lastActive.
  destruct (headersOf folder) as [l|]; [|reflexivity].
  apply fold_mergeHeader_inheritedFor.
Qed.

(** Folders that set no active header with the key leave the header
    inherited for it as it is. *)
Lemma inheritAlong_header_kept (key : string) (tree : list HoppCollection)
      (path : list JS.number) (indices : list nat) (fs : list HoppCollection)
      (acc : InheritedAuth Auth * list (InheritedHeader Header)) :
  Forall2 (foundAt tree path) indices fs ->
  Forall (fun f => activeFor headerKey headerActive headersOf key f = None) fs ->
  inheritedFor headerKey key (snd (along tree path indices acc))
  = inheritedFor headerKey key (snd acc).
Proof.
  intros Hfound. revert acc.
  induction Hfound as [|i f l fs Hi _ IH]; intros acc Hnone; [reflexivity|].
  inversion Hnone as [|f' fs' Hf Hfs]; subst.
  simpl. rewrite Hi, (IH _ Hfs), inheritFrom_inheritedFor, Hf. reflexivity.
Qed.

(** X18.  A header set lower on the path overrides one with the same
    key set higher up: when every folder of the path is found, [folder]'s
    last active header with the key is [header] and no folder below it on
    the path sets an active header with that key, the view inherits
    [header] for the key, from [folder]. *)
Theorem nearest_header_is_inherited (key : string) (collectionID : string)
        (now : State) (before after : list HoppCollection) (folder : HoppCollection)
        (header : Header) :
  collectionID <> "" ->
  foldersAlong (restCollectionState now) (indexPath collectionID)
  = Some (before ++ folder :: after) ->
  activeFor headerKey headerActive headersOf key folder = Some header ->
  Forall (fun f => activeFor headerKey headerActive headersOf key f = None) after ->
  inheritedFor headerKey key
    (snd (inheritedProperties authType authNone headerKey headerActive authOf headersOf
                              collectionID now))
  = Some {| ih_parentID :=
              joinPath (take (S (List.length before)) (indexPath collectionID));
            ih_parentName := coll_name folder;
            ih_inheritedHeader := header |}.
Proof.
  intros Hid Hall Hown Hafter. unfold inheritedProperties.
  destruct (String.eqb_spec collectionID ""); [contradiction|].
  destruct (foldersAlong_split _ _ _ _ _ Hall) as (Hlen & Hbefore & Hfolder & Hrest).
  rewrite Hlen. replace (List.length before + S (List.length after))%nat
    with (S (List.length before + List.length after)) by lia.
  simpl Nat.eqb. cbv iota.
  replace (S (List.length before + List.length after))
    with (List.length before + (1 + List.length after))%nat by lia.
  rewrite seq_app, (inheritAlong_app _ _ _ _ before _ Hbefore).
  rewrite Nat.add_0_l, seq_app.
  rewrite (inheritAlong_app _ _ _ _ [folder]);
    [|constructor; [exact Hfolder | constructor]].
  rewrite (inheritAlong_header_kept key _ _ _ after);
    [|replace (List.length before + 1)%nat with (S (List.length before)) by lia;
      exact Hrest|exact Hafter].
  simpl. rewrite Hfolder, inheritFrom_inheritedFor, Hown. reflexivity.
Qed.

(** X19.  A key that no folder along the path sets in an active header
    is not inherited. *)
Theorem unset_header_is_not_inherited (key : string) (collectionID : string)
        (now : State) (folders : list HoppCollection) :
  foldersAlong (restCollectionState now) (indexPath collectionID) = Some folders ->
  Forall (fun f => activeFor headerKey headerActive headersOf key f = None) folders ->
  inheritedFor headerKey key
    (snd (inheritedProperties authType authNone headerKey headerActive authOf headersOf
                              collectionID now))
  = None.
Proof.
  intros Hall Hnone. unfold inheritedProperties.
  destruct (String.eqb collectionID ""); [reflexivity|].
  destruct (Nat.eqb _ 0); [reflexivity|].
  unfold foldersAlong in Hall. apply mapM_Some in Hall.
  rewrite (inheritAlong_header_kept key _ _ _ folders _ Hall Hnone). reflexivity.
Qed.

End InheritanceFacts.


(** ** Searching the tree *)

(** Induction on a collection, with the property at hand for all of its
    folders. *)
Lemma HoppCollection_nested_ind (P : HoppCollection -> Prop) :
  (forall id name folders requests,
      Forall P folders -> P (Collection id name folders requests)) ->
  forall c, P c.
Proof.
  intros Hstep. fix IH 1. intros [id name fs rs]. apply Hstep.
  induction fs as [|f fs IHfs]; constructor; [apply IH | exact IHfs].
Qed.

Section SearchFacts.

Context (toLowerCase : string -> string) (nameOf : ReqRef -> string).
Context (searchQuery : string).

Local Abbreviation isMatch := (isMatch toLowerCase).
Local Abbreviation filterRequests := (filterRequests toLowerCase nameOf searchQuery).
Local Abbreviation hasContent := (hasContent toLowerCase searchQuery).
Local Abbreviation filterChildCollection :=
  (filterChildCollection toLowerCase nameOf searchQuery).
Local Abbreviation filterChildCollections :=
  (filterChildCollections toLowerCase nameOf searchQuery).
Local Abbreviation searchResults := (searchResults toLowerCase nameOf searchQuery).
Local Abbreviation requestsOutsideMatch := (requestsOutsideMatch toLowerCase searchQuery).
Local Abbreviation holdsMatch := (holdsMatch toLowerCase nameOf searchQuery).

(** [filterChildCollections] as the source has it: the map whose
    callback calls [filterRequests] and [filterChildCollections] itself,
    then the filter. *)
Lemma filterChildCollections_eq (childCollections : list HoppCollection) :
  filterChildCollections childCollections
  = List.filter hasContent
      (map (fun childCollection =>
              if isMatch (coll_name childCollection) searchQuery
              then childCollection
              else Collection (coll_id childCollection) (coll_name childCollection)
                              (filterChildCollections (folders childCollection))
                              (filterRequests (requests childCollection)))
           childCollections).
Proof.
  unfold filterChildCollections. f_equal. apply map_ext.
  intros [id name fs rs]. reflexivity.
Qed.

Lemma filterChildCollection_name (c : HoppCollection) :
  coll_name (filterChildCollection c) = coll_name c.
Proof. destruct c as [id name fs rs]. simpl. destruct (isMatch name searchQuery); reflexivity. Qed.

Lemma filterChildCollection_matching (c : HoppCollection) :
  isMatch (coll_name c) searchQuery = true -> filterChildCollection c = c.
Proof. destruct c as [id name fs rs]. simpl. intros ->. reflexivity. Qed.

Lemma filter_filter_same {A : Type} (p : A -> bool) (l : list A) :
  List.filter p (List.filter p l) = List.filter p l.
Proof.
  induction l as [|x l IH]; [reflexivity|]. simpl.
  destruct (p x) eqn:E; simpl; [rewrite E; f_equal|]; exact IH.
Qed.

Lemma map_fixed {A : Type} (f : A -> A) (l : list A) :
  Forall (fun x => f x = x) l -> map f l = l.
Proof. induction 1 as [|x l Hx _ IH]; simpl; congruence. Qed.

Lemma Forall_filter_map_fixed (l : list HoppCollection) :
  Forall (fun c => filterChildCollection (filterChildCollection c)
                   = filterChildCollection c) l ->
  Forall (fun c => filterChildCollection c = c)
         (List.filter hasContent (map filterChildCollection l)).
Proof.
  induction 1 as [|x l Hx _ IH]; simpl; [constructor|].
  destruct (hasContent (filterChildCollection x)); [constructor; assumption | exact IH].
Qed.

Lemma filterChildCollection_idempotent (c : HoppCollection) :
  filterChildCollection (filterChildCollection c) = filterChildCollection c.
Proof.
  induction c as [id name fs rs IH] using HoppCollection_nested_ind.
  simpl. destruct (isMatch name searchQuery) eqn:E; simpl; rewrite E; [reflexivity|].
  f_equal.
  - rewrite (map_fixed _ _ (Forall_filter_map_fixed fs IH)). apply filter_filter_same.
  - apply filter_filter_same.
Qed.

(** X20.  Searching the results of a search for the same query again
    changes nothing. *)
Theorem search_is_idempotent (state : list HoppCollection) :
  searchResults (searchResults state) = searchResults state.
Proof.
  unfold searchResults. destruct (String.eqb searchQuery ""); [reflexivity|].
  unfold filterChildCollections.
  rewrite (map_fixed filterChildCollection).
  - apply filter_filter_same.
  - apply Forall_filter_map_fixed. apply List.Forall_forall. intros c _.
    apply filterChildCollection_idempotent.
Qed.

Lemma in_filterChildCollections (x : HoppCollection) (l : list HoppCollection) :
  In x (List.filter hasContent (map filterChildCollection l)) ->
  exists c, In c l /\ x = filterChildCollection c.
Proof.
  intros Hin. apply filter_In in Hin. destruct Hin as [Hin _].
  apply in_map_iff in Hin. destruct Hin as (c & <- & Hc). exists c. split; [exact Hc | reflexivity].
Qed.

Lemma requestsWithin_filterChildCollection (r : ReqRef) (c : HoppCollection) :
  In r (requestsWithin (filterChildCollection c)) -> In r (requestsWithin c).
Proof.
  induction c as [id name fs rs IH] using HoppCollection_nested_ind.
  simpl. destruct (isMatch name searchQuery); [exact (fun H => H)|].
  simpl. rewrite !in_app_iff, !in_flat_map. intros [Hr | (x & Hx & Hrx)].
  - left. apply filter_In in Hr. tauto.
  - right. apply in_filterChildCollections in Hx. destruct Hx as (f & Hf & ->).
    exists f. split; [exact Hf|]. rewrite List.Forall_forall in IH. exact (IH f Hf Hrx).
Qed.

(** X21.  The results hold no request that the tree does not hold. *)
Theorem search_shows_requests_of_the_tree (state : list HoppCollection) (r : ReqRef) :
  In r (flat_map requestsWithin (searchResults state)) ->
  In r (flat_map requestsWithin state).
Proof.
  unfold searchResults. destruct (String.eqb searchQuery ""); [exact (fun H => H)|].
  rewrite !in_flat_map. intros (x & Hx & Hrx).
  apply in_filterChildCollections in Hx. destruct Hx as (c & Hc & ->).
  exists c. split; [exact Hc | exact (requestsWithin_filterChildCollection r c Hrx)].
Qed.

Lemma hasContent_requests (c : HoppCollection) (r : ReqRef) :
  In r (requests c) -> hasContent c = true.
Proof.
  unfold hasContent. destruct (requests c); [intros []|]. reflexivity.
Qed.

Lemma hasContent_folders (c f : HoppCollection) :
  In f (folders c) -> hasContent c = true.
Proof.
  unfold hasContent. destruct (folders c); [intros []|].
  intros _. simpl. rewrite orb_true_r. reflexivity.
Qed.

Lemma hasContent_matching (c : HoppCollection) :
  isMatch (coll_name c) searchQuery = true -> hasContent c = true.
Proof. unfold hasContent. intros ->. apply orb_true_r. Qed.

Lemma matching_request_is_kept (r : ReqRef) (c : HoppCollection) :
  isMatch (nameOf r) searchQuery = true ->
  In r (requestsWithin c) ->
  In r (requestsWithin (filterChildCollection c))
  /\ hasContent (filterChildCollection c) = true.
Proof.
  intros Hr. induction c as [id name fs rs IH] using HoppCollection_nested_ind.
  simpl. destruct (isMatch name searchQuery) eqn:E.
  - intros Hin. split; [exact Hin|]. apply hasContent_matching. exact E.
  - simpl. rewrite !in_app_iff, !in_flat_map. intros [Hin | (f & Hf & Hin)].
    + assert (Hkept : In r (filterRequests rs)).
      { apply filter_In. split; assumption. }
      split; [left; exact Hkept|]. apply (hasContent_requests _ r). exact Hkept.
    + rewrite List.Forall_forall in IH. destruct (IH f Hf Hin) as [Hin' Hcontent].
      assert (Hkept : In (filterChildCollection f)
                         (List.filter hasContent (map filterChildCollection fs))).
      { apply filter_In. split; [apply in_map; exact Hf | exact Hcontent]. }
      split.
      * right. exists (filterChildCollection f). split; [exact Hkept | exact Hin'].
      * apply (hasContent_folders _ (filterChildCollection f)). exact Hkept.
Qed.

(** X22.  No matching request is lost: a request of the tree whose name
    matches the query is among the results, at whatever depth it lies. *)
Theorem search_keeps_matching_requests (state : list HoppCollection) (r : ReqRef) :
  isMatch (nameOf r) searchQuery = true ->
  In r (flat_map requestsWithin state) ->
  In r (flat_map requestsWithin (searchResults state)).
Proof.
  intros Hr. unfold searchResults.
  destruct (String.eqb searchQuery ""); [exact (fun H => H)|].
  rewrite !in_flat_map. intros (c & Hc & Hin).
  destruct (matching_request_is_kept r c Hr Hin) as [Hin' Hcontent].
  exists (filterChildCollection c). split; [|exact Hin'].
  apply filter_In. split; [apply in_map; exact Hc | exact Hcontent].
Qed.

Lemma requestsOutsideMatch_filterChildCollection (r : ReqRef) (c : HoppCollection) :
  In r (requestsOutsideMatch (filterChildCollection c)) ->
  isMatch (nameOf r) searchQuery = true.
Proof.
  induction c as [id name fs rs IH] using HoppCollection_nested_ind.
  simpl. destruct (isMatch name searchQuery) eqn:E; simpl; rewrite E; [intros []|].
  rewrite in_app_iff, in_flat_map. intros [Hin | (x & Hx & Hin)].
  - apply filter_In in Hin. tauto.
  - apply in_filterChildCollections in Hx. destruct Hx as (f & Hf & ->).
    rewrite List.Forall_forall in IH. exact (IH f Hf Hin).
Qed.

(** X23.  For a query that is not empty, a request among the results
    matches the query, unless it lies in or below a collection whose name
    matches. *)
Theorem search_shows_only_matches (state : list HoppCollection) (r : ReqRef) :
  searchQuery <> "" ->
  In r (flat_map requestsOutsideMatch (searchResults state)) ->
  isMatch (nameOf r) searchQuery = true.
Proof.
  intros Hq. unfold searchResults.
  destruct (String.eqb_spec searchQuery ""); [contradiction|].
  rewrite in_flat_map. intros (x & Hx & Hin).
  apply in_filterChildCollections in Hx. destruct Hx as (c & Hc & ->).
  exact (requestsOutsideMatch_filterChildCollection r c Hin).
Qed.

Lemma nonempty_filter {A : Type} (p : A -> bool) (l : list A) :
  (0 <? List.length (List.filter p l))%nat = existsb p l.
Proof.
  induction l as [|x l IH]; [reflexivity|]. simpl.
  destruct (p x); [reflexivity | exact IH].
Qed.

Lemma existsb_map {A B : Type} (f : A -> B) (p : B -> bool) (l : list A) :
  existsb p (map f l) = existsb (fun x => p (f x)) l.
Proof. induction l as [|x l IH]; [reflexivity|]. simpl. rewrite IH. reflexivity. Qed.

Lemma existsb_ext_Forall {A : Type} (p q : A -> bool) (l : list A) :
  Forall (fun x => p x = q x) l -> existsb p l = existsb q l.
Proof. induction 1 as [|x l Hx _ IH]; [reflexivity|]. simpl. rewrite Hx, IH. reflexivity. Qed.

(** A filtered collection is kept exactly when the collection holds a
    match. *)
Lemma hasContent_holdsMatch (c : HoppCollection) :
  hasContent (filterChildCollection c) = holdsMatch c.
Proof.
  induction c as [id name fs rs IH] using HoppCollection_nested_ind.
  simpl. destruct (isMatch name searchQuery) eqn:E.
  - apply hasContent_matching. exact E.
  - unfold hasContent. simpl. rewrite E, orb_false_r.
    unfold filterRequests. rewrite !nonempty_filter, existsb_map.
    f_equal. apply existsb_ext_Forall. exact IH.
Qed.

Lemma filter_map_swap {A B : Type} (f : A -> B) (p : B -> bool) (l : list A) :
  List.filter p (map f l) = map f (List.filter (fun x => p (f x)) l).
Proof.
  induction l as [|x l IH]; [reflexivity|]. simpl.
  destruct (p (f x)); simpl; rewrite IH; reflexivity.
Qed.

(** X24.  For a query that is not empty, the root collections among the
    results are those that hold a match (in their own name, in the name of
    a request or in a folder, at any depth), in the order of the tree and
    under their own names. *)
Theorem search_shows_collections_holding_a_match (state : list HoppCollection) :
  searchQuery <> "" ->
  map coll_name (searchResults state)
  = map coll_name (List.filter holdsMatch state).
Proof.
  intros Hq. unfold searchResults.
  destruct (String.eqb_spec searchQuery ""); [contradiction|].
  unfold filterChildCollections. rewrite filter_map_swap, List.map_map.
  rewrite (List.filter_ext (fun x => hasContent (filterChildCollection x)) holdsMatch
                           hasContent_holdsMatch).
  apply map_ext. apply filterChildCollection_name.
Qed.

End SearchFacts.

(** ** Importing collections *)

Section ImportFacts.

Context {Fields : Type}.
Context `{Store.Ops}.

Local Abbreviation State := (State Fields).
Local Abbreviation Handle := (Handle Fields).

(** X25.  The handle [importRESTCollections] returns names no
    collection.  Its collection ID is the number of root collections after
    the import, one past the index of the last of them: on a store whose
    lookup finds nothing past the end of the root collections,
    [getCollectionHandle] answers COLLECTION_NOT_FOUND for that ID. *)
Theorem imported_handle_names_no_collection
        (w : Handle Workspace) (collections : list HoppCollection) (s s' : State)
        (h : Handle WorkspaceCollection) :
  (forall (tree : list HoppCollection) (k : nat),
      (List.length tree <= k)%nat ->
      Store.navigateToFolderWithIndexPath tree [JS.ofNat k] = None) ->
  importRESTCollections w collections s = (Resolves (Right h), s') ->
  w s' = w s ->
  exists data,
    h s' = Ok data
    /\ wc_collectionID data = JS.toString (JS.length (restCollectionState s'))
    /\ getCollectionHandle w (wc_collectionID data) s'
       = (Resolves (Left "COLLECTION_NOT_FOUND"), s').
Proof.
  intros Hstore. unfold importRESTCollections.
  destruct (isValidWorkspaceHandle w providerID "personal" s) eqn:Hv; [|discriminate].
  destruct collections as [|first rest]; [discriminate|].
  simpl negb. cbv iota. intros [= <- <-] Hw.
  destruct (narrowWorkspace w providerID "personal" s) as [d|] eqn:Hn;
    [|apply isValidWorkspaceHandle_narrow in Hn; congruence].
  set (tree := Store.appendRESTCollections (first :: rest) (restCollectionState s)).
  assert (Hn' : narrowWorkspace w providerID "personal" (withTree tree s) = Some d).
  { rewrite <- Hn. apply narrowWorkspace_same. exact Hw. }
  rewrite Hn'. eexists. split; [reflexivity|].
  cbn [wc_collectionID]. split; [reflexivity|].
  unfold getCollectionHandle. rewrite Hn'.
  change (pretty (Z.of_nat (List.length tree)))
    with (JS.toString (JS.ofNat (List.length tree))).
  assert (Hne : String.eqb (JS.toString (JS.ofNat (List.length tree))) "" = false).
  { destruct (pretty_decimal (Z.of_nat (List.length tree)) ltac:(lia)) as (_ & _ & Hne).
    apply String.eqb_neq. exact Hne. }
  rewrite Hne, indexPath_toString.
  change (restCollectionState (withTree tree s)) with tree.
  pose proof (Hstore tree (List.length tree) (le_n _)) as Hnone.
  unfold JS.ofNat in Hnone. rewrite Hnone. reflexivity.
Qed.

End ImportFacts.

(** ** The further properties at work on the samples *)

Lemma invalid_handles_stay_invalid_witness :
  let s := snd (removeRESTRequest (Sample.requestHandle 1) Sample.issued3) in
  let calls := [Sample.getRequest "0/1"; MoveRESTRequest (Sample.requestHandle 0) "1";
                RemoveRESTCollection (Sample.collection "0")] in
  handleRefs s !! 1%nat = Some (Invalid "REQUEST_INVALIDATED")
  /\ handleRefs (afterAll Sample.mergeFields calls s) !! 1%nat
     = Some (Invalid "REQUEST_INVALIDATED").
Proof.
  intros s calls.
  assert (Hc : handleRefs s !! 1%nat = Some (Invalid "REQUEST_INVALIDATED"))
    by (vm_compute; reflexivity).
  split; [exact Hc|].
  exact (invalid_handles_stay_invalid Sample.mergeFields calls s 1%nat _ Hc).
Defined.

Lemma valid_handles_keep_their_request_witness :
  let calls := [MoveRESTRequest (Sample.requestHandle 0) "1"; Sample.getRequest "1/0"] in
  let s' := afterAll Sample.mergeFields calls Sample.issued3 in
  let d := Sample.requestData "0" "0/2" 2 in
  let d' := Sample.requestData "0" "0/1" 2 in
  handleRefs Sample.issued3 !! 2%nat = Some (Ok d)
  /\ handleRefs s' !! 2%nat = Some (Ok d')
  /\ wr_providerID d' = wr_providerID d
  /\ wr_workspaceID d' = wr_workspaceID d
  /\ wr_request d' = wr_request d.
Proof.
  intros calls s' d d'.
  assert (Hc : handleRefs Sample.issued3 !! 2%nat = Some (Ok d))
    by (vm_compute; reflexivity).
  assert (Hc' : handleRefs s' !! 2%nat = Some (Ok d')) by (vm_compute; reflexivity).
  split; [exact Hc|]. split; [exact Hc'|].
  exact (valid_handles_keep_their_request Sample.mergeFields calls Sample.issued3
                                          2%nat d d' Hc Hc').
Defined.

Lemma only_update_writes_request_objects_witness :
  let calls := [Sample.getRequest "0/1"; MoveRESTRequest (Sample.requestHandle 0) "1";
                RemoveRESTRequest (Sample.requestHandle 1);
                RemoveRESTCollection (Sample.collection "0")] in
  Forall (fun c => forall h u, c <> UpdateRESTRequest h u) calls
  /\ requestObjects (afterAll Sample.mergeFields calls Sample.issued3)
     = requestObjects Sample.issued3.
Proof.
  intros calls.
  assert (Hall : Forall (fun c => forall h u, c <> UpdateRESTRequest h u) calls)
    by (repeat constructor; intros h u; discriminate).
  split; [exact Hall|].
  exact (only_update_writes_request_objects Sample.mergeFields calls Sample.issued3 Hall).
Defined.

Lemma getRequestHandle_again_registers_nothing_witness :
  let s1 := snd (getRequestHandle Sample.personal "0/0" Sample.three) in
  getRequestHandle Sample.personal "0/0" Sample.three
  = (Resolves (Right (Sample.requestHandle 0)), s1)
  /\ Sample.personal s1 = Sample.personal Sample.three
  /\ exists h2 s2,
      getRequestHandle Sample.personal "0/0" s1 = (Resolves (Right h2), s2)
      /\ issuedHandles s2 = issuedHandles s1
      /\ restCollectionState s2 = restCollectionState s1.
Proof.
  intros s1.
  assert (Hget : getRequestHandle Sample.personal "0/0" Sample.three
                 = (Resolves (Right (Sample.requestHandle 0)), s1)) by reflexivity.
  assert (Hw : Sample.personal s1 = Sample.personal Sample.three) by reflexivity.
  split; [exact Hget|]. split; [exact Hw|].
  exact (getRequestHandle_again_registers_nothing _ _ _ _ _ Hget Hw).
Defined.

Lemma removed_request_handle_reads_invalid_witness :
  let s1 := snd (getRequestHandle Sample.personal "0/0" Sample.three) in
  getRequestHandle Sample.personal "0/0" Sample.three
  = (Resolves (Right (Sample.requestHandle 0)), s1)
  /\ issuedHandles s1
     = issuedHandles Sample.three ++ [IssuedRequest (List.length (handleRefs Sample.three))]
  /\ Sample.personal s1 = Sample.personal Sample.three
  /\ exists s2,
      removeRESTRequest (Sample.requestHandle 0) s1 = (Resolves (Right tt), s2)
      /\ (Sample.requestHandle 0 s2 = Invalid "REQUEST_INVALIDATED"
          \/ Sample.requestHandle 0 s2 = Invalid "WORKSPACE_INVALIDATED").
Proof.
  intros s1.
  assert (Hget : getRequestHandle Sample.personal "0/0" Sample.three
                 = (Resolves (Right (Sample.requestHandle 0)), s1)) by reflexivity.
  assert (Hpushed : issuedHandles s1
                    = issuedHandles Sample.three
                        ++ [IssuedRequest (List.length (handleRefs Sample.three))])
    by reflexivity.
  assert (Hw : Sample.personal s1 = Sample.personal Sample.three) by reflexivity.
  split; [exact Hget|]. split; [exact Hpushed|]. split; [exact Hw|].
  exact (removed_request_handle_reads_invalid _ _ _ _ _ Hget Hpushed Hw).
Defined.

(** Two handles are got for "0/0", one for "0/1", and "0/0" is removed
    through the first: the second handle to "0/0", never registered,
    still passes the owner check, and no valid registered handle carries
    its request ID. *)
Lemma moveRESTRequest_needs_a_registered_handle_witness :
  let s := snd (removeRESTRequest
                  (Sample.requestHandle 0)
                  (afterAll Sample.mergeFields
                            [Sample.getRequest "0/0"; Sample.getRequest "0/0";
                             Sample.getRequest "0/1"]
                            Sample.three)) in
  let data := Sample.requestData "0" "0/0" 0 in
  let h := Sample.requestHandle 1 in
  issuedHandles s = [IssuedRequest 0; IssuedRequest 2]
  /\ narrowRequest h providerID "personal" s = Some data
  /\ (forall x, In x (issuedHandles s) ->
                issuedWithRequestID (handleRefs s) (wr_requestID data) x = false)
  /\ moveRESTRequest h "1" s = (Resolves (Left "INVALID_REQUEST_HANDLE"), s).
Proof.
  intros s data h.
  assert (Hn : narrowRequest h providerID "personal" s = Some data)
    by (vm_compute; reflexivity).
  assert (Hnone : forall x, In x (issuedHandles s) ->
                            issuedWithRequestID (handleRefs s) (wr_requestID data) x = false).
  { intros x Hin. vm_compute in Hin.
    destruct Hin as [<-|[<-|[]]]; vm_compute; reflexivity. }
  split; [vm_compute; reflexivity|]. split; [exact Hn|]. split; [exact Hnone|].
  exact (moveRESTRequest_needs_a_registered_handle h "1" s data Hn Hnone).
Defined.

Lemma created_request_id_parses_back_witness :
  let run := createRESTRequest (Sample.collection "1") 2%nat Sample.three in
  let h := match fst run with
           | Resolves (Right h) => h
           | _ => Sample.requestHandle 0
           end in
  let s' := snd run in
  run = (Resolves (Right h), s')
  /\ exists d,
      handleRefs s' !! List.length (handleRefs Sample.three) = Some (Ok d)
      /\ JS.join (JS.dropLast (JS.split (wr_requestID d))) = wr_collectionID d
      /\ pathToLastIndex (wr_requestID d)
         = JS.ofNat (fst (Store.saveRESTRequestAs (wr_collectionID d) 2%nat
                                                  (restCollectionState Sample.three)))
      /\ wr_request d = 2%nat.
Proof.
  intros run h s'.
  assert (Hrun : run = (Resolves (Right h), s')) by reflexivity.
  split; [exact Hrun|].
  exact (created_request_id_parses_back _ _ _ _ _ Hrun).
Defined.

Lemma moveRESTRequest_of_the_last_request_witness :
  let h := Sample.requestHandle 2 in
  let s := Sample.issued3 in
  let s' := snd (moveRESTRequest h "1" s) in
  let data := Sample.requestData "0" "0/2" 2 in
  moveRESTRequest h "1" s = (Resolves (Right tt), s')
  /\ h s = Ok data
  /\ pathToLastIndex (wr_requestID data) = JS.Num 2
  /\ Z.of_nat (List.length (Store.getRequestsByPath
                              (restCollectionState s)
                              (JS.join (JS.dropLast (JS.split (wr_requestID data))))))
     <= 2 + 1
  /\ exists idx cell moved,
      JS.findIndex (issuedWithRequestID (handleRefs s) (wr_requestID data)) (issuedHandles s)
      = Some idx
      /\ issuedHandles s !! idx = Some (IssuedRequest cell)
      /\ handleRefs s !! cell = Some (Ok moved)
      /\ issuedHandles s' = issuedHandles s
      /\ handleRefs s'
         = <[cell := Ok {| wr_providerID := wr_providerID moved;
                           wr_workspaceID := wr_workspaceID moved;
                           wr_collectionID := "1";
                           wr_requestID :=
                             childID "1"
                                     (JS.sub (JS.length (Store.getRequestsByPath
                                                           (restCollectionState s') "1"))
                                             (JS.Num 1));
                           wr_request := wr_request moved |}]> (handleRefs s).
Proof.
  intros h s s' data.
  assert (Hrun : moveRESTRequest h "1" s = (Resolves (Right tt), s'))
    by (vm_compute; reflexivity).
  assert (Hv : h s = Ok data) by (vm_compute; reflexivity).
  assert (Hi : pathToLastIndex (wr_requestID data) = JS.Num 2) by (vm_compute; reflexivity).
  assert (Hn : Z.of_nat (List.length (Store.getRequestsByPath
                                        (restCollectionState s)
                                        (JS.join (JS.dropLast
                                                    (JS.split (wr_requestID data))))))
               <= 2 + 1) by (vm_compute; discriminate).
  split; [exact Hrun|]. split; [exact Hv|]. split; [exact Hi|]. split; [exact Hn|].
  exact (moveRESTRequest_of_the_last_request h "1" s s' data 2
                                             Hrun Hv Hi Hn).
Defined.

Lemma root_view_lists_positions_witness :
  let h := match getRESTRootCollectionView Sample.personal with
           | Right h => h
           | Left reason => Sample.constant (Invalid reason)
           end in
  let now := Sample.three in
  getRESTRootCollectionView Sample.personal = Right h
  /\ isValidWorkspaceHandle Sample.personal providerID "personal" now = true
  /\ exists view,
      h now = Ok view
      /\ List.length (rv_collections view now) = List.length (restCollectionState now)
      /\ forall k item,
          rv_collections view now !! k = Some item ->
          indexPath (ci_collectionID item) = [JS.Num (Z.of_nat k)]
          /\ ci_parentCollectionID item = None
          /\ (ci_isLastItem item = true <-> S k = List.length (restCollectionState now))
          /\ exists c, restCollectionState now !! k = Some c /\ ci_name item = coll_name c.
Proof.
  intros h now.
  assert (Hget : getRESTRootCollectionView Sample.personal = Right h) by reflexivity.
  assert (Hv : isValidWorkspaceHandle Sample.personal providerID "personal" now = true)
    by reflexivity.
  split; [exact Hget|]. split; [exact Hv|].
  exact (root_view_lists_positions Sample.personal h now Hget Hv).
Defined.

Lemma children_view_lists_positions_witness :
  let ch := Sample.collection "0" in
  let h := match getRESTCollectionChildrenView ch with
           | Right h => h
           | Left reason => Sample.constant (Invalid reason)
           end in
  let now := SampleViews.state in
  let data := {| wc_providerID := providerID; wc_workspaceID := "personal";
                 wc_collectionID := "0"; wc_name := "c" |} in
  let c := SampleViews.api in
  getRESTCollectionChildrenView ch = Right h
  /\ narrowCollection ch providerID "personal" now = Some data
  /\ Store.navigateToFolderWithIndexPath (restCollectionState now)
                                         (indexPath (wc_collectionID data)) = Some c
  /\ exists view,
      h now = Ok view
      /\ List.length (cv_content view now)
         = (List.length (folders c) + List.length (requests c))%nat
      /\ (forall k f,
             folders c !! k = Some f ->
             exists item,
               cv_content view now !! k = Some (ItemCollection item)
               /\ ci_name item = coll_name f
               /\ ci_parentCollectionID item = Some (wc_collectionID data)
               /\ indexPath (ci_collectionID item)
                  = indexPath (wc_collectionID data) ++ [JS.Num (Z.of_nat k)])
      /\ (forall k r,
             requests c !! k = Some r ->
             exists item,
               cv_content view now !! (List.length (folders c) + k)%nat
               = Some (ItemRequest item)
               /\ ri_request item = r
               /\ ri_collectionID item = wc_collectionID data
               /\ JS.join (JS.dropLast (JS.split (ri_requestID item))) = wc_collectionID data
               /\ pathToLastIndex (ri_requestID item) = JS.Num (Z.of_nat k)).
Proof.
  intros ch h now data c.
  assert (Hget : getRESTCollectionChildrenView ch = Right h) by reflexivity.
  assert (Hn : narrowCollection ch providerID "personal" now = Some data) by reflexivity.
  assert (Hnav : Store.navigateToFolderWithIndexPath (restCollectionState now)
                                                     (indexPath (wc_collectionID data))
                 = Some c) by (vm_compute; reflexivity).
  split; [exact Hget|]. split; [exact Hn|]. split; [exact Hnav|].
  exact (children_view_lists_positions ch h now data c Hget Hn Hnav).
Defined.

Lemma listed_request_can_be_got_witness :
  let s := SampleViews.state in
  let item := {| ri_isLastItem := true; ri_collectionID := "0/0";
                 ri_requestID := "0/0/1"; ri_request := 3%nat |} in
  isValidWorkspaceHandle Sample.personal providerID "personal" s = true
  /\ In (ItemRequest item) (childrenContent "0/0" s)
  /\ exists h s' d,
      getRequestHandle Sample.personal (ri_requestID item) s = (Resolves (Right h), s')
      /\ restCollectionState s' = restCollectionState s
      /\ handleRefs s' = handleRefs s ++ [Ok d]
      /\ wr_requestID d = ri_requestID item
      /\ wr_collectionID d = "0/0"
      /\ wr_request d = ri_request item.
Proof.
  intros s item.
  assert (Hv : isValidWorkspaceHandle Sample.personal providerID "personal" s = true)
    by reflexivity.
  assert (Hin : In (ItemRequest item) (childrenContent "0/0" s))
    by (vm_compute; auto).
  split; [exact Hv|]. split; [exact Hin|].
  exact (listed_request_can_be_got Sample.personal "0/0" s item Hv Hin).
Defined.

Lemma nearest_own_auth_is_inherited_witness :
  let properties :=
    inheritedProperties SampleViews.authType "none" SampleViews.headerKey
                        SampleViews.headerActive SampleViews.authOf SampleViews.headersOf
                        "0/0/0" SampleViews.state in
  "0/0/0" <> ""
  /\ foldersAlong (restCollectionState SampleViews.state) (indexPath "0/0/0")
     = Some ([] ++ SampleViews.api :: [SampleViews.users; SampleViews.admin])
  /\ isInherit SampleViews.authType (SampleViews.authOf SampleViews.api) = false
  /\ Forall (fun f => isInherit SampleViews.authType (SampleViews.authOf f) = true)
            [SampleViews.users; SampleViews.admin]
  /\ fst properties
     = {| ia_parentID := joinPath (take 1 (indexPath "0/0/0"));
          ia_parentName := "api";
          ia_inheritedAuth := Some "bearer" |}.
Proof.
  intros properties.
  assert (Hid : "0/0/0" <> "") by discriminate.
  assert (Hall : foldersAlong (restCollectionState SampleViews.state) (indexPath "0/0/0")
                 = Some ([] ++ SampleViews.api :: [SampleViews.users; SampleViews.admin]))
    by (vm_compute; reflexivity).
  assert (Hown : isInherit SampleViews.authType (SampleViews.authOf SampleViews.api) = false)
    by reflexivity.
  assert (Hafter : Forall (fun f => isInherit SampleViews.authType (SampleViews.authOf f)
                                    = true)
                          [SampleViews.users; SampleViews.admin])
    by (repeat constructor).
  split; [exact Hid|]. split; [exact Hall|]. split; [exact Hown|]. split; [exact Hafter|].
  exact (nearest_own_auth_is_inherited SampleViews.authType "none" SampleViews.headerKey
           SampleViews.headerActive SampleViews.authOf SampleViews.headersOf
           "0/0/0" SampleViews.state [] [SampleViews.users; SampleViews.admin]
           SampleViews.api Hid Hall Hown Hafter).
Defined.

Lemma inherit_all_the_way_gives_none_witness :
  let properties :=
    inheritedProperties SampleViews.authType "none" SampleViews.headerKey
                        SampleViews.headerActive SampleViews.authOf SampleViews.headersOf
                        "1" SampleViews.state in
  let misc := Collection None "misc" [] [] in
  "1" <> ""
  /\ foldersAlong (restCollectionState SampleViews.state) (indexPath "1") = Some [misc]
  /\ Forall (fun f => isInherit SampleViews.authType (SampleViews.authOf f) = true) [misc]
  /\ fst properties
     = {| ia_parentID := joinPath (take 1 (indexPath "1"));
          ia_parentName := "misc";
          ia_inheritedAuth := Some "none" |}.
Proof.
  intros properties misc.
  assert (Hid : "1" <> "") by discriminate.
  assert (Hall : foldersAlong (restCollectionState SampleViews.state) (indexPath "1")
                 = Some [misc]) by (vm_compute; reflexivity).
  assert (Hinh : Forall (fun f => isInherit SampleViews.authType (SampleViews.authOf f)
                                  = true) [misc])
    by (repeat constructor).
  split; [exact Hid|]. split; [exact Hall|]. split; [exact Hinh|].
  exact (inherit_all_the_way_gives_none SampleViews.authType "none" SampleViews.headerKey
           SampleViews.headerActive SampleViews.authOf SampleViews.headersOf
           "1" SampleViews.state misc [] Hid Hall Hinh).
Defined.

Lemma nearest_header_is_inherited_witness :
  let properties :=
    inheritedProperties SampleViews.authType "none" SampleViews.headerKey
                        SampleViews.headerActive SampleViews.authOf SampleViews.headersOf
                        "0/0/0" SampleViews.state in
  let activeFor :=
    activeFor SampleViews.headerKey SampleViews.headerActive SampleViews.headersOf in
  "0/0/0" <> ""
  /\ foldersAlong (restCollectionState SampleViews.state) (indexPath "0/0/0")
     = Some ([SampleViews.api] ++ SampleViews.users :: [SampleViews.admin])
  /\ activeFor "Accept" SampleViews.users = Some ("Accept", "xml", true)
  /\ Forall (fun f => activeFor "Accept" f = None) [SampleViews.admin]
  /\ inheritedFor SampleViews.headerKey "Accept" (snd properties)
     = Some {| ih_parentID := joinPath (take 2 (indexPath "0/0/0"));
               ih_parentName := "users";
               ih_inheritedHeader := ("Accept", "xml", true) |}.
Proof.
  intros properties activeFor.
  assert (Hid : "0/0/0" <> "") by discriminate.
  assert (Hall : foldersAlong (restCollectionState SampleViews.state) (indexPath "0/0/0")
                 = Some ([SampleViews.api] ++ SampleViews.users :: [SampleViews.admin]))
    by (vm_compute; reflexivity).
  assert (Hown : activeFor "Accept" SampleViews.users = Some ("Accept", "xml", true))
    by reflexivity.
  assert (Hafter : Forall (fun f => activeFor "Accept" f = None) [SampleViews.admin])
    by (repeat constructor).
  split; [exact Hid|]. split; [exact Hall|]. split; [exact Hown|]. split; [exact Hafter|].
  exact (nearest_header_is_inherited SampleViews.authType "none" SampleViews.headerKey
           SampleViews.headerActive SampleViews.authOf SampleViews.headersOf
           "Accept" "0/0/0" SampleViews.state [SampleViews.api] [SampleViews.admin]
           SampleViews.users ("Accept", "xml", true) Hid Hall Hown Hafter).
Defined.

Lemma unset_header_is_not_inherited_witness :
  let properties :=
    inheritedProperties SampleViews.authType "none" SampleViews.headerKey
                        SampleViews.headerActive SampleViews.authOf SampleViews.headersOf
                        "0/0" SampleViews.state in
  let activeFor :=
    activeFor SampleViews.headerKey SampleViews.headerActive SampleViews.headersOf in
  foldersAlong (restCollectionState SampleViews.state) (indexPath "0/0")
  = Some [SampleViews.api; SampleViews.users]
  /\ Forall (fun f => activeFor "X-Off" f = None) [SampleViews.api; SampleViews.users]
  /\ inheritedFor SampleViews.headerKey "X-Off" (snd properties) = None.
Proof.
  intros properties activeFor.
  assert (Hall : foldersAlong (restCollectionState SampleViews.state) (indexPath "0/0")
                 = Some [SampleViews.api; SampleViews.users]) by (vm_compute; reflexivity).
  assert (Hnone : Forall (fun f => activeFor "X-Off" f = None)
                         [SampleViews.api; SampleViews.users])
    by (repeat constructor).
  split; [exact Hall|]. split; [exact Hnone|].
  exact (unset_header_is_not_inherited SampleViews.authType "none" SampleViews.headerKey
           SampleViews.headerActive SampleViews.authOf SampleViews.headersOf
           "X-Off" "0/0" SampleViews.state [SampleViews.api; SampleViews.users]
           Hall Hnone).
Defined.

Lemma search_shows_requests_of_the_tree_witness :
  let results :=
    searchResults SampleViews.toLowerCase SampleViews.nameOf "USER" SampleViews.tree in
  In 3%nat (flat_map requestsWithin results)
  /\ In 3%nat (flat_map requestsWithin SampleViews.tree).
Proof.
  intros results.
  assert (Hin : In 3%nat (flat_map requestsWithin results)) by (vm_compute; auto).
  split; [exact Hin|].
  exact (search_shows_requests_of_the_tree SampleViews.toLowerCase SampleViews.nameOf
                                           "USER" SampleViews.tree 3%nat Hin).
Defined.

Lemma search_keeps_matching_requests_witness :
  let results :=
    searchResults SampleViews.toLowerCase SampleViews.nameOf "delete" SampleViews.tree in
  isMatch SampleViews.toLowerCase (SampleViews.nameOf 2%nat) "delete" = true
  /\ In 2%nat (flat_map requestsWithin SampleViews.tree)
  /\ In 2%nat (flat_map requestsWithin results).
Proof.
  intros results.
  assert (Hr : isMatch SampleViews.toLowerCase (SampleViews.nameOf 2%nat) "delete" = true)
    by reflexivity.
  assert (Hin : In 2%nat (flat_map requestsWithin SampleViews.tree))
    by (vm_compute; auto).
  split; [exact Hr|]. split; [exact Hin|].
  exact (search_keeps_matching_requests SampleViews.toLowerCase SampleViews.nameOf
                                        "delete" SampleViews.tree 2%nat Hr Hin).
Defined.

Lemma search_shows_only_matches_witness :
  let results :=
    searchResults SampleViews.toLowerCase SampleViews.nameOf "create" SampleViews.tree in
  "create" <> ""
  /\ In 3%nat (flat_map (requestsOutsideMatch SampleViews.toLowerCase "create") results)
  /\ isMatch SampleViews.toLowerCase (SampleViews.nameOf 3%nat) "create" = true.
Proof.
  intros results.
  assert (Hq : "create" <> "") by discriminate.
  assert (Hin : In 3%nat (flat_map (requestsOutsideMatch SampleViews.toLowerCase "create")
                                   results))
    by (vm_compute; auto).
  split; [exact Hq|]. split; [exact Hin|].
  exact (search_shows_only_matches SampleViews.toLowerCase SampleViews.nameOf
                                   "create" SampleViews.tree 3%nat Hq Hin).
Defined.

Lemma search_shows_collections_holding_a_match_witness :
  "Delete" <> ""
  /\ map coll_name (searchResults SampleViews.toLowerCase SampleViews.nameOf "Delete"
                                  SampleViews.tree)
     = map coll_name (List.filter (holdsMatch SampleViews.toLowerCase SampleViews.nameOf
                                              "Delete")
                                  SampleViews.tree).
Proof.
  assert (Hq : "Delete" <> "") by discriminate.
  split; [exact Hq|].
  exact (search_shows_collections_holding_a_match SampleViews.toLowerCase SampleViews.nameOf
                                                  "Delete" SampleViews.tree Hq).
Defined.

(** The list store finds nothing past the end of the root collections. *)
Lemma navigate_past_the_end (tree : list HoppCollection) (k : nat) :
  (List.length tree <= k)%nat -> ListStore.navigate tree [JS.ofNat k] = None.
Proof.
  intros Hk. simpl. destruct (Z.ltb_spec (Z.of_nat k) 0) as [Hlt|_]; [lia|].
  rewrite Nat2Z.id, (lookup_ge_None_2 tree k Hk). reflexivity.
Qed.

Lemma imported_handle_names_no_collection_witness :
  let collections := [Collection None "imported" [] []] in
  let run := importRESTCollections Sample.personal collections Sample.three in
  let h := match fst run with
           | Resolves (Right h) => h
           | _ => Sample.collection "0"
           end in
  let s' := snd run in
  (forall (tree : list HoppCollection) (k : nat),
      (List.length tree <= k)%nat ->
      Store.navigateToFolderWithIndexPath tree [JS.ofNat k] = None)
  /\ run = (Resolves (Right h), s')
  /\ Sample.personal s' = Sample.personal Sample.three
  /\ exists data,
      h s' = Ok data
      /\ wc_collectionID data = JS.toString (JS.length (restCollectionState s'))
      /\ getCollectionHandle Sample.personal (wc_collectionID data) s'
         = (Resolves (Left "COLLECTION_NOT_FOUND"), s').
Proof.
  intros collections run h s'.
  assert (Hrun : run = (Resolves (Right h), s')) by reflexivity.
  assert (Hw : Sample.personal s' = Sample.personal Sample.three) by reflexivity.
  split; [exact navigate_past_the_end|]. split; [exact Hrun|]. split; [exact Hw|].
  exact (imported_handle_names_no_collection Sample.personal collections Sample.three s' h
                                             navigate_past_the_end Hrun Hw).
Defined.

Lemma removeRESTCollection_invalidates_prefixed_ids_witness :
  let s := Sample.issued3 in
  let s' := snd (removeRESTCollection (Sample.collection "0") s) in
  removeRESTCollection (Sample.collection "0") s = (Resolves (Right tt), s')
  /\ exists data,
      Sample.collection "0" s = Ok data
      /\ forall cell d rest,
          In (IssuedRequest cell) (issuedHandles s) ->
          handleRefs s !! cell = Some (Ok d) ->
          wr_requestID d = wc_collectionID data +:+ rest ->
          handleRefs s' !! cell = Some (Invalid "REQUEST_INVALIDATED").
Proof.
  intros s s'.
  assert (Hrun : removeRESTCollection (Sample.collection "0") s = (Resolves (Right tt), s'))
    by (vm_compute; reflexivity).
  split; [exact Hrun|].
  exact (removeRESTCollection_invalidates_prefixed_ids (Sample.collection "0") s s' Hrun).
Defined.

